(** * fforw/entity: the EntitySystem storage engine

    A shallow embedding of [src/EntitySystem.js] (the BigInt revision: the
    third document of [src/test/entity-system.js]) and the properties of it
    that the specification states.

    Modelling conventions.

    - A [Float64Array] is a [list Z]: the engine stores presence masks, row
      offsets, entity ids and the sentinel -1 in its cells, and field values
      are taken to be integers.  Reading outside the array gives [undefined]
      ([None]); writing outside the array does nothing, as in JavaScript.
    - BigInt values are [Z].  [Number(b)] of a BigInt is exact below 2^53;
      beyond that the run leaves the integer model.
    - A run ends in [Ok], in [Throw] (a JavaScript exception: the state it
      leaves behind is not tracked) or in [Beyond]: the run would compute a
      number that is not an integer (a quotient that does not divide, a NaN
      store), which this embedding does not represent.
    - Callbacks are opaque: a callback is a name, compared by identity as
      [!==] does, and the system records every invocation in [calls]; bodies
      of callbacks are assumed not to touch the system. *)

From Stdlib Require Import ZArith Lia String List Bool Sorted.
From stdpp Require Import base list strings pretty.

Open Scope string_scope.
Open Scope Z_scope.

(** ** Outcomes *)

Inductive exn : Type :=
| Error (msg : string)   (* throw new Error(msg) *)
| TypeError              (* BigInt(undefined), a property of null or undefined *)
| RangeError.            (* new Float64Array(n) with n < 0 *)

Inductive outcome (A : Type) : Type :=
| Ok (a : A)
| Throw (x : exn)
| Beyond.

Arguments Ok {A} a.
Arguments Throw {A} x.
Arguments Beyond {A}.

#[global] Instance outcome_ret : MRet outcome := fun A a => Ok a.
#[global] Instance outcome_bind : MBind outcome := fun A B f m =>
  match m with
  | Ok a => f a
  | Throw x => Throw x
  | Beyond => Beyond
  end.

(** ** JavaScript numbers, as far as the engine uses them *)

(** [ToInt32], applied by the Number operators [&] and [~]. *)
Definition toInt32 (z : Z) : Z := (z + 2 ^ 31) mod 2 ^ 32 - 2 ^ 31.

(** [x & 1] on a Number cell; [undefined & 1] is 0. *)
Definition and1 (x : option Z) : Z :=
  match x with
  | Some z => Z.land (toInt32 z) 1
  | None => 0
  end.

(** [x < 0] and [x >= 0]; both are false on [undefined]. *)
Definition lt0 (x : option Z) : bool :=
  match x with Some z => z <? 0 | None => false end.

Definition ge0 (x : option Z) : bool :=
  match x with Some z => 0 <=? z | None => false end.

(** [BigInt(x)] of a cell: a TypeError on [undefined]. *)
Definition toBigInt (x : option Z) : outcome Z :=
  match x with Some z => Ok z | None => Throw TypeError end.

(** [Number(b)] of a BigInt. *)
Definition toNumber (b : Z) : outcome Z :=
  if Z.abs b <? 2 ^ 53 then Ok b else Beyond.

(** [x / y] where the engine expects a row index. *)
Definition quotient (x y : Z) : outcome Z :=
  if y =? 0 then Beyond
  else if x mod y =? 0 then Ok (x / y) else Beyond.

(** ** Typed arrays *)

Definition aget (a : list Z) (i : Z) : option Z :=
  if i <? 0 then None else a !! Z.to_nat i.

Definition aset (a : list Z) (i : Z) (v : Z) : list Z :=
  if i <? 0 then a else <[Z.to_nat i := v]> a.

Definition alen (a : list Z) : Z := Z.of_nat (length a).

(** [new Float64Array(n)]. *)
Definition newArray (n : Z) : outcome (list Z) :=
  if n <? 0 then Throw RangeError else Ok (replicate (Z.to_nat n) 0).

(** ** TableState: the row allocator of one table *)

(** [skipOnRemove] is a row index or [Infinity] ([None]).  The fields
    [entitySystem] and [tableName] say which array the state works on: here
    a state always travels with its array, in a [Table]. *)
Record TableState : Type := mkTableState {
  sizeOf : Z;
  rowCounter : Z;
  removeCounter : Z;
  combinedMask : Z;
  isEntityTable : bool;
  skipOnRemove : option Z
}.

Record Table : Type := mkTable { arr : list Z; st : TableState }.

Definition newTableState (sz combined : Z) : TableState :=
  mkTableState sz 0 0 combined (combined =? 0) None.

Definition set_rowCounter (ts : TableState) (v : Z) : TableState :=
  mkTableState (sizeOf ts) v (removeCounter ts) (combinedMask ts)
               (isEntityTable ts) (skipOnRemove ts).

Definition set_removeCounter (ts : TableState) (v : Z) : TableState :=
  mkTableState (sizeOf ts) (rowCounter ts) v (combinedMask ts)
               (isEntityTable ts) (skipOnRemove ts).

Definition set_skipOnRemove (ts : TableState) (v : option Z) : TableState :=
  mkTableState (sizeOf ts) (rowCounter ts) (removeCounter ts) (combinedMask ts)
               (isEntityTable ts) v.

(** The liveness test of the free-slot scan. *)
Definition emptySlot (isE : bool) (array : list Z) (offset : Z) : bool :=
  if isE then and1 (aget array offset) =? 0 else lt0 (aget array offset).

(** [for (let i = skipOnRemove; i < rowCounter; i++)], [n] rows to go. *)
Fixpoint scanFree (isE : bool) (sz : Z) (array : list Z) (i : Z) (n : nat)
  : option Z :=
  match n with
  | O => None
  | S n' =>
      if emptySlot isE array (i * sz) then Some i
      else scanFree isE sz array (i + 1) n'
  end.

(** The copy made when a table grows: twice the length, old slots in place. *)
Definition grow (array : list Z) : list Z :=
  array ++ replicate (length array) 0.

(** [insertRow(at = null)].  The result also says whether the array was
    replaced: a caller that fetched the array before the call then holds the
    old one. *)
Definition insertRow (t : Table) (at_ : option Z)
  : outcome (Z * Table * bool) :=
  let ts := st t in
  let array := arr t in
  '(id, ts') ←
    match at_ with
    | Some a =>
        Ok (a, if rowCounter ts <? a then set_rowCounter ts (a + 1) else ts)
    | None =>
        if 0 <? removeCounter ts then
          let found :=
            match skipOnRemove ts with
            | None => None
            | Some k =>
                scanFree (isEntityTable ts) (sizeOf ts) array k
                         (Z.to_nat (rowCounter ts - k))
            end in
          match found with
          | Some i =>
              let rc := removeCounter ts - 1 in
              let ts1 := set_removeCounter ts rc in
              Ok (i, if rc =? 0 then set_skipOnRemove ts1 None else ts1)
          | None =>
              Throw (Error
                "Illegal State: could not find empty slot but removeCounter > 0")
          end
        else Ok (rowCounter ts, set_rowCounter ts (rowCounter ts + 1))
    end;
  if alen array <=? id * sizeOf ts
  then Ok (id, mkTable (grow array) ts', true)
  else Ok (id, mkTable array ts', false).

(** [Math.min(skipOnRemove, row)]. *)
Definition minSkip (k : option Z) (row : Z) : option Z :=
  match k with
  | None => Some row
  | Some k' => Some (Z.min k' row)
  end.

(** [removeRow(row)]. *)
Definition removeRow (t : Table) (row : Z) : Table :=
  let ts := st t in
  let array := arr t in
  let i := row * sizeOf ts in
  let array' :=
    if isEntityTable ts
    then aset array i
           (Z.land (toInt32 (default 0 (aget array i))) (Z.lnot 1))
    else aset array i (-1) in
  mkTable array'
    (set_skipOnRemove (set_removeCounter ts (removeCounter ts + 1))
                      (minSkip (skipOnRemove ts) row)).

(** ** The component registry *)

(** A JavaScript [Map] with string keys: insertion order is kept, and
    setting a key that is present replaces its value in place. *)
Definition mapGet {V : Type} (m : list (string * V)) (k : string) : option V :=
  snd <$> List.find (fun kv => String.eqb (fst kv) k) m.

Fixpoint mapSet {V : Type} (m : list (string * V)) (k : string) (v : V)
  : list (string * V) :=
  match m with
  | [] => [(k, v)]
  | (k', v') :: m' =>
      if String.eqb k' k then (k, v) :: m' else (k', v') :: mapSet m' k v
  end.

(** An entry of [this.components]. *)
Record ComponentEntry : Type := mkComponentEntry {
  name : string;
  propNames : list string;
  arrayIndex : Z;
  mask : Z
}.

(** An entry of [this.componentsByProp] (typedef PropConfig); [pname] and
    [psizeOf] are its [name] and [sizeOf]. *)
Record PropConfig : Type := mkPropConfig {
  component : string;
  pname : string;
  array : Z;
  offset : Z;
  psizeOf : Z;
  componentMask : Z
}.

(** typedef LayoutJSON and EntitySystemConfig.  [Components] lists the
    object's own keys in enumeration order. *)
Record LayoutJSON : Type := mkLayoutJSON {
  lcomponents : list string;
  lsize : Z
}.

Record EntitySystemConfig : Type := mkConfig {
  Components : list (string * list string);
  Layout : option (list LayoutJSON);
  entityCount : option Z
}.

Definition MAX_ENTITY : Z := 1024.
Definition EXPORT_VERSION : Z := 1.

(** The body of [propNames.forEach] in [loadConfig]. *)
Fixpoint loadProps (comp : string) (names : list string)
    (byProp : list (string * PropConfig))
  : outcome (list (string * PropConfig)) :=
  match names with
  | [] => Ok byProp
  | n :: rest =>
      if (String.length n =? 0)%nat then
        Throw (Error "Invalid prop name: Must be a non-empty String")
      else if String.eqb n "_" || String.eqb n "_id" then
        Throw (Error
          "Invalid prop name: _ and _id are reserved for internal purposes and cannot be used as column names")
      else
        match mapGet byProp n with
        | Some _ =>
            Throw (Error ("Config-Error: " ++ n
                          ++ " already defined for Component [object Object]"))
        | None =>
            loadProps comp rest
              (mapSet byProp n (mkPropConfig comp n (-1) (-1) (-1) 0))
        end
  end.

(** The [for (let component in Components)] loop of [loadConfig]. *)
Fixpoint loadComponents (cs : list (string * list string))
    (comps : list (string * ComponentEntry))
    (byProp : list (string * PropConfig))
  : outcome (list (string * ComponentEntry) * list (string * PropConfig)) :=
  match cs with
  | [] => Ok (comps, byProp)
  | (c, names) :: rest =>
      byProp' ← loadProps c names byProp;
      loadComponents rest (mapSet comps c (mkComponentEntry c names (-1) 0))
                     byProp'
  end.

Record LoadedConfig : Type := mkLoaded {
  lcComponents : list (string * ComponentEntry);
  lcByProp : list (string * PropConfig);
  lcLayout : list LayoutJSON;
  lcEntityCount : Z
}.

(** [if (!Layout) Layout = [{components: Object.keys(Components), size:
    MAX_ENTITY}]]. *)
Definition effectiveLayout (raw : EntitySystemConfig) : list LayoutJSON :=
  match Layout raw with
  | Some l => l
  | None => [mkLayoutJSON (map fst (Components raw)) MAX_ENTITY]
  end.

Definition loadConfig (raw : EntitySystemConfig) : outcome LoadedConfig :=
  '(comps, byProp) ← loadComponents (Components raw) [] [];
  Ok (mkLoaded comps byProp (effectiveLayout raw)
               (default 1024 (entityCount raw))).

(** ** Handlers *)

(** A callback is known by its identity. *)
Definition callback : Type := nat.

(** One invocation [fn(entity, before, newValue)]. *)
Record Call : Type := mkCall {
  callFn : callback;
  callEntity : Z;
  callBefore : Z;
  callNew : Z
}.

(** A handler array [[m0, f0, m1, f1, ...]] is only ever built by
    [push(mask, fn)] and read two cells at a time: a list of pairs. *)
Definition handlers : Type := list (Z * callback).

Fixpoint removeHandler (hs : handlers) (handlerFn : callback) : handlers :=
  match hs with
  | [] => []
  | (m, fn) :: rest =>
      if Nat.eqb fn handlerFn then removeHandler rest handlerFn
      else (m, fn) :: removeHandler rest handlerFn
  end.

(** The calls made by [runEntryHandlers], in order. *)
Fixpoint runEntryHandlers (hs : handlers) (entity before newValue : Z)
  : list Call :=
  match hs with
  | [] => []
  | (m, fn) :: rest =>
      if (Z.land newValue m =? m) && negb (Z.land before m =? m)
      then mkCall fn entity before newValue
           :: runEntryHandlers rest entity before newValue
      else runEntryHandlers rest entity before newValue
  end.

Fixpoint runExitHandlers (hs : handlers) (entity before newValue : Z)
  : list Call :=
  match hs with
  | [] => []
  | (m, fn) :: rest =>
      if negb (Z.land newValue m =? m) && (Z.land before m =? m)
      then mkCall fn entity before newValue
           :: runExitHandlers rest entity before newValue
      else runExitHandlers rest entity before newValue
  end.

(** ** The entity system *)

(** [tables] holds the ten properties [c0..c9] with their states
    [s0..s9]; [None] is [null].  [calls] is the record of the callback
    invocations so far. *)
Record EntitySystem : Type := mkEntitySystem {
  components : list (string * ComponentEntry);
  componentsByProp : list (string * PropConfig);
  maskSize : Z;
  e : list Z;
  s : TableState;
  tables : list (option Table);
  entryHandlers : handlers;
  exitHandlers : handlers;
  calls : list Call
}.

(** [this[TABLE_NAMES[i]]] with [this[TABLE_STATE_NAMES[i]]]: outside
    0..9 the name is [undefined] and so is the property. *)
Definition tableAt (ts : list (option Table)) (i : Z) : option Table :=
  if (0 <=? i) && (i <? 10) then mjoin (ts !! Z.to_nat i) else None.

Definition setTable (ts : list (option Table)) (i : Z) (t : Table)
  : list (option Table) :=
  if (0 <=? i) && (i <? 10) then <[Z.to_nat i := Some t]> ts else ts.

Definition set_e (sys : EntitySystem) (a : list Z) : EntitySystem :=
  mkEntitySystem (components sys) (componentsByProp sys) (maskSize sys) a
    (s sys) (tables sys) (entryHandlers sys) (exitHandlers sys) (calls sys).

Definition set_s (sys : EntitySystem) (ts : TableState) : EntitySystem :=
  mkEntitySystem (components sys) (componentsByProp sys) (maskSize sys)
    (e sys) ts (tables sys) (entryHandlers sys) (exitHandlers sys) (calls sys).

Definition set_tables (sys : EntitySystem) (t : list (option Table))
  : EntitySystem :=
  mkEntitySystem (components sys) (componentsByProp sys) (maskSize sys)
    (e sys) (s sys) t (entryHandlers sys) (exitHandlers sys) (calls sys).

Definition set_entryHandlers (sys : EntitySystem) (h : handlers)
  : EntitySystem :=
  mkEntitySystem (components sys) (componentsByProp sys) (maskSize sys)
    (e sys) (s sys) (tables sys) h (exitHandlers sys) (calls sys).

Definition set_exitHandlers (sys : EntitySystem) (h : handlers)
  : EntitySystem :=
  mkEntitySystem (components sys) (componentsByProp sys) (maskSize sys)
    (e sys) (s sys) (tables sys) (entryHandlers sys) h (calls sys).

Definition add_calls (sys : EntitySystem) (cs : list Call) : EntitySystem :=
  mkEntitySystem (components sys) (componentsByProp sys) (maskSize sys)
    (e sys) (s sys) (tables sys) (entryHandlers sys) (exitHandlers sys)
    (calls sys ++ cs).

(** *** The constructor *)

(** [components.size] of a layout entry.  The entry holds an Array, which
    has a [length] and no [size]: the property reads [undefined]. *)
Definition sizeProperty (comps : list string) : option Z := None.

(** [x > 52]; false on [undefined]. *)
Definition gt52 (x : option Z) : bool :=
  match x with Some n => 52 <? n | None => false end.

(** The [for j] loop over the props of one component of a layout entry:
    each prop gets the component's mask, the table index and the next slot
    offset, and [combined] takes the mask. *)
Fixpoint layoutProps (i m : Z) (names : list string)
    (byProp : list (string * PropConfig)) (off combined : Z)
  : outcome (list (string * PropConfig) * Z * Z) :=
  match names with
  | [] => Ok (byProp, off, combined)
  | n :: rest =>
      match mapGet byProp n with
      | None => Throw TypeError
      | Some cfg =>
          layoutProps i m rest
            (mapSet byProp n
               (mkPropConfig (component cfg) (pname cfg) i off (psizeOf cfg) m))
            (off + 1) (Z.lor combined m)
      end
  end.

Record LayoutAcc : Type := mkLayoutAcc {
  accComponents : list (string * ComponentEntry);
  accByProp : list (string * PropConfig);
  accOffset : Z;
  accMask : Z;
  accCombined : Z
}.

(** [components.forEach(componentName => ...)] for layout entry [i]. *)
Fixpoint layoutComponents (i : Z) (names : list string) (acc : LayoutAcc)
  : outcome LayoutAcc :=
  match names with
  | [] => Ok acc
  | c :: rest =>
      match mapGet (accComponents acc) c with
      | None => Throw TypeError
      | Some entry =>
          let m := accMask acc in
          let comps :=
            mapSet (accComponents acc) c
              (mkComponentEntry (name entry) (propNames entry) i m) in
          '(byProp, off, combined) ←
            layoutProps i m (propNames entry) (accByProp acc)
                        (accOffset acc) (accCombined acc);
          layoutComponents i rest
            (mkLayoutAcc comps byProp off (Z.shiftl m 1) combined)
      end
  end.

(** The [for i] loop over the layout.  A table past [c9] would be stored
    under the property named "undefined", array and state alike: that is
    outside this embedding. *)
Fixpoint layoutTables (i : Z) (layout : list LayoutJSON)
    (comps : list (string * ComponentEntry))
    (byProp : list (string * PropConfig)) (tabs : list (option Table))
  : outcome (list (string * ComponentEntry) * list (string * PropConfig)
             * list (option Table)) :=
  match layout with
  | [] => Ok (comps, byProp, tabs)
  | l :: rest =>
      if gt52 (sizeProperty (lcomponents l)) then
        Throw (Error "There can be at most 52 entities per table.")
      else
        acc ← layoutComponents i (lcomponents l)
                 (mkLayoutAcc comps byProp 1 (if i =? 0 then 2 else 1) 0);
        if 1 <? accOffset acc then
          a ← newArray (accOffset acc * lsize l);
          if 10 <=? i then Beyond
          else
            layoutTables (i + 1) rest (accComponents acc) (accByProp acc)
              (setTable tabs i
                 (mkTable a (newTableState (accOffset acc) (accCombined acc))))
        else
          layoutTables (i + 1) rest (accComponents acc) (accByProp acc) tabs
  end.

(** The closing loop: every prop learns the row width of its table. *)
Fixpoint propSizes (tabs : list (option Table))
    (byProp : list (string * PropConfig))
  : outcome (list (string * PropConfig)) :=
  match byProp with
  | [] => Ok []
  | (k, cfg) :: rest =>
      match tableAt tabs (array cfg) with
      | None => Throw TypeError
      | Some t =>
          rest' ← propSizes tabs rest;
          Ok ((k, mkPropConfig (component cfg) (pname cfg) (array cfg)
                               (offset cfg) (sizeOf (st t)) (componentMask cfg))
              :: rest')
      end
  end.

(** [new EntitySystem(rawConfig)]. *)
Definition newEntitySystem (rawConfig : EntitySystemConfig)
  : outcome EntitySystem :=
  lc ← loadConfig rawConfig;
  let arrayCount := Z.of_nat (length (lcLayout lc)) in
  let entityTableSizeOf := arrayCount * 2 in
  e0 ← newArray (entityTableSizeOf * lcEntityCount lc);
  '(comps, byProp, tabs) ←
    layoutTables 0 (lcLayout lc) (lcComponents lc) (lcByProp lc)
                 (replicate 10 None);
  byProp' ← propSizes tabs byProp;
  Ok (mkEntitySystem comps byProp' arrayCount e0
        (newTableState entityTableSizeOf 0) tabs [] [] []).

(** *** Entities *)

(** [exists(entity)]. *)
Definition exists_ (sys : EntitySystem) (entity : Z) : bool :=
  negb (and1 (aget (e sys) (entity * sizeOf (s sys))) =? 0).

(** [a[off++] = v] for each [v] in turn. *)
Fixpoint storeSeq (a : list Z) (off : Z) (vs : list Z) : list Z :=
  match vs with
  | [] => a
  | v :: vs' => storeSeq (aset a off v) (off + 1) vs'
  end.

(** The two loops of [newEntity]: the mask words (the "exists" bit in
    word 0, zero elsewhere), then -1 in every offset word. *)
Definition initRow (a : list Z) (off n : Z) : list Z :=
  storeSeq
    (storeSeq a off (map (fun i => if i =? 0 then 1 else 0) (seqZ 0 n)))
    (off + Z.max 0 n) (replicate (Z.to_nat n) (-1)).

(** A template value: a number, an array of component names, or
    [undefined]. *)
Inductive tvalue : Type :=
| TNum (z : Z)
| TNames (l : list string)
| TUndefined.

(** A template object: its own keys in enumeration order.  ([for ... in]
    visits keys that are canonical array indices first; the list is taken
    in the order of the visit.) *)
Definition template : Type := list (string * tvalue).

(** [getPropConfig(name)]. *)
Definition getPropConfig (sys : EntitySystem) (nm : string)
  : outcome PropConfig :=
  match mapGet (componentsByProp sys) nm with
  | Some cfg => Ok cfg
  | None =>
      Throw (Error ("Prop '" ++ nm
                    ++ "' is not in any of the registered components"))
  end.

(** [addComponent(entity, name)].  [array] is fetched before
    [ts.insertRow()]: when the table grows there, the back-reference goes
    to the array that was replaced. *)
Definition addComponent (sys : EntitySystem) (entity : Z) (nm : string)
  : outcome EntitySystem :=
  match mapGet (components sys) nm with
  | None => Throw TypeError
  | Some c =>
      let entityRow := entity * sizeOf (s sys) in
      before ← toBigInt (aget (e sys) (entityRow + arrayIndex c));
      let newValue := Z.lor before (mask c) in
      nv ← toNumber newValue;
      let e1 := aset (e sys) (entityRow + arrayIndex c) nv in
      let componentRow := aget e1 (entityRow + maskSize sys + arrayIndex c) in
      sys2 ←
        (if negb (Nat.eqb (length (propNames c)) 0) && lt0 componentRow then
           match tableAt (tables sys) (arrayIndex c) with
           | None => Throw TypeError
           | Some t =>
               '(r, t', grew) ← insertRow t None;
               let e2 :=
                 aset e1 (entityRow + maskSize sys + arrayIndex c) r in
               let t'' :=
                 if grew : bool then t'
                 else mkTable (aset (arr t') (r * sizeOf (st t')) entity)
                              (st t') in
               Ok (set_tables (set_e sys e2)
                     (setTable (tables sys) (arrayIndex c) t''))
           end
         else Ok (set_e sys e1));
      Ok (add_calls sys2
            (runEntryHandlers (entryHandlers sys) entity before newValue))
  end.

(** [removeComponent(entity, name)]. *)
Definition removeComponent (sys : EntitySystem) (entity : Z) (nm : string)
  : outcome EntitySystem :=
  match mapGet (components sys) nm with
  | None => Throw TypeError
  | Some c =>
      let entityRow := entity * sizeOf (s sys) in
      before ← toBigInt (aget (e sys) (entityRow + arrayIndex c));
      let newValue := Z.land before (Z.lnot (mask c)) in
      nv ← toNumber newValue;
      let e1 := aset (e sys) (entityRow + arrayIndex c) nv in
      let sys1 :=
        add_calls (set_e sys e1)
          (runExitHandlers (exitHandlers sys) entity before newValue) in
      match tableAt (tables sys) (arrayIndex c) with
      | None => Ok sys1
      | Some t =>
          if Z.land newValue (combinedMask (st t)) =? 0 then
            match aget e1 (entityRow + maskSize sys + arrayIndex c) with
            | Some row =>
                if 0 <=? row then
                  let e2 :=
                    aset e1 (entityRow + maskSize sys + arrayIndex c) (-1) in
                  q ← quotient row (sizeOf (st t));
                  let t1 := removeRow t q in
                  let t2 := mkTable (aset (arr t1) row (-1)) (st t1) in
                  Ok (set_tables (set_e sys1 e2)
                        (setTable (tables sys) (arrayIndex c) t2))
                else Ok sys1
            | None => Ok sys1
            end
          else Ok sys1
      end
  end.

(** The body of the [for i] loop of [removeEntity]. *)
Definition removeEntityTable (sys : EntitySystem) (entity i : Z)
  : outcome EntitySystem :=
  let off := entity * sizeOf (s sys) in
  m ← toBigInt (aget (e sys) (off + i));
  let rowOffset := aget (e sys) (off + maskSize sys + i) in
  let sys1 :=
    add_calls (set_e sys (aset (e sys) (off + maskSize sys + i) (-1)))
      (runExitHandlers (exitHandlers sys) entity m 0) in
  match rowOffset with
  | Some ro =>
      if 0 <=? ro then
        match tableAt (tables sys) i with
        | None => Throw TypeError
        | Some t =>
            let t1 := mkTable (aset (arr t) ro (-1)) (st t) in
            q ← quotient ro (sizeOf (st t));
            Ok (set_tables sys1 (setTable (tables sys) i (removeRow t1 q)))
        end
      else Ok sys1
  | None => Ok sys1
  end.

Fixpoint removeEntityTables (sys : EntitySystem) (entity : Z) (idxs : list Z)
  : outcome EntitySystem :=
  match idxs with
  | [] => Ok sys
  | i :: rest =>
      sys' ← removeEntityTable sys entity i;
      removeEntityTables sys' entity rest
  end.

(** [removeEntity(entity)]. *)
Definition removeEntity (sys : EntitySystem) (entity : Z)
  : outcome EntitySystem :=
  sys1 ← removeEntityTables sys entity (seqZ 0 (maskSize sys));
  let t := removeRow (mkTable (e sys1) (s sys1)) entity in
  Ok (set_s (set_e sys1 (arr t)) (st t)).

(** [v.forEach(c => this.addComponent(entity, c))]. *)
Fixpoint addTags (sys : EntitySystem) (entity : Z) (cs : list string)
  : outcome EntitySystem :=
  match cs with
  | [] => Ok sys
  | c :: rest =>
      sys' ← addComponent sys entity c;
      addTags sys' entity rest
  end.

(** [masks[array] |= componentMask] on an array of BigInt: a TypeError
    when the cell is [undefined]. *)
Definition orMask (masks : list Z) (i m : Z) : outcome (list Z) :=
  match aget masks i with
  | Some old => Ok (aset masks i (Z.lor old m))
  | None => Throw TypeError
  end.

(** [arrayRows]: a [Map] from table index to row. *)
Definition rowsGet (rows : list (Z * Z)) (k : Z) : option Z :=
  snd <$> List.find (fun kv => fst kv =? k) rows.

(** One ordinary key [name: v] of a template in [addComponents]. *)
Definition addProp (sys : EntitySystem) (entity : Z) (masks : list Z)
    (arrayRows : list (Z * Z)) (nm : string) (v : tvalue)
  : outcome (EntitySystem * list Z * list (Z * Z)) :=
  cfg ← getPropConfig sys nm;
  let entityRow := entity * sizeOf (s sys) in
  '(sys1, componentRow, arrayRows1) ←
    match rowsGet arrayRows (array cfg) with
    | Some r => Ok (sys, r, arrayRows)
    | None =>
        let value := aget (e sys) (entityRow + maskSize sys + array cfg) in
        '(sys', r) ←
          (if ge0 value then
             r ← quotient (default 0 value) (psizeOf cfg);
             Ok (sys, r)
           else
             match tableAt (tables sys) (array cfg) with
             | None => Throw TypeError
             | Some t =>
                 '(r, t', _) ← insertRow t None;
                 let t'' :=
                   mkTable (aset (arr t') (r * psizeOf cfg) entity) (st t') in
                 Ok (set_tables sys (setTable (tables sys) (array cfg) t''), r)
             end);
        Ok (sys', r, (array cfg, r) :: arrayRows)
    end;
  let componentOffset := componentRow * psizeOf cfg in
  let e1 :=
    aset (e sys1) (entityRow + maskSize sys + array cfg) componentOffset in
  match tableAt (tables sys1) (array cfg) with
  | None => Throw TypeError
  | Some t =>
      match v with
      | TNum z =>
          let t' := mkTable (aset (arr t) (componentOffset + offset cfg) z)
                            (st t) in
          masks' ← orMask masks (array cfg) (componentMask cfg);
          Ok (set_tables (set_e sys1 e1)
                (setTable (tables sys1) (array cfg) t'),
              masks', arrayRows1)
      | _ => Beyond
      end
  end.

(** The [for (let name in template)] loop of [addComponents]. *)
Fixpoint addKeys (sys : EntitySystem) (entity : Z) (masks : list Z)
    (arrayRows : list (Z * Z)) (tpl : template)
  : outcome (EntitySystem * list Z) :=
  match tpl with
  | [] => Ok (sys, masks)
  | (nm, v) :: rest =>
      if String.eqb nm "_" then
        match v with
        | TNames cs =>
            sys' ← addTags sys entity cs;
            addKeys sys' entity masks arrayRows rest
        | _ =>
            Throw (Error
              "The special prop _ must contain an Array of component names to add to the entity")
        end
      else if String.eqb nm "_id" then
        addKeys sys entity masks arrayRows rest
      else
        '(sys', masks', arrayRows') ← addProp sys entity masks arrayRows nm v;
        addKeys sys' entity masks' arrayRows' rest
  end.

(** The closing [for j] loop of [addComponents]: one mask write and one
    round of entry handlers per table. *)
Fixpoint writeMasks (sys : EntitySystem) (entity j : Z) (masks : list Z)
  : outcome EntitySystem :=
  match masks with
  | [] => Ok sys
  | m :: rest =>
      let entityRow := entity * sizeOf (s sys) in
      before ← toBigInt (aget (e sys) (entityRow + j));
      let newValue := Z.lor before m in
      nv ← toNumber newValue;
      writeMasks
        (add_calls (set_e sys (aset (e sys) (entityRow + j) nv))
           (runEntryHandlers (entryHandlers sys) entity before newValue))
        entity (j + 1) rest
  end.

(** [TABLE_NAMES.slice(0, maskSize).map((name, i) => BigInt(e[row + i]))]. *)
Fixpoint readMasks (a : list Z) (entityRow : Z) (idxs : list Z)
  : outcome (list Z) :=
  match idxs with
  | [] => Ok []
  | i :: rest =>
      m ← toBigInt (aget a (entityRow + i));
      ms ← readMasks a entityRow rest;
      Ok (m :: ms)
  end.

(** [addComponents(entity, template)]. *)
Definition addComponents (sys : EntitySystem) (entity : Z) (tpl : template)
  : outcome EntitySystem :=
  let entityRow := entity * sizeOf (s sys) in
  masks ← readMasks (e sys) entityRow (seqZ 0 (Z.min (maskSize sys) 10));
  '(sys1, masks1) ← addKeys sys entity masks [] tpl;
  writeMasks sys1 entity 0 masks1.

(** [newEntity(template, id = null)].  [entityArray] is fetched on entry:
    when [insertRow] replaces the entity table, the two initialising loops
    write to the array that was replaced. *)
Definition newEntity (sys : EntitySystem) (tpl : option template)
    (id : option Z) : outcome (Z * EntitySystem) :=
  _ ← match id with
      | Some i =>
          if exists_ sys i then
            Throw (Error ("Entity with id = " ++ pretty i ++ " already exists"))
          else Ok tt
      | None => Ok tt
      end;
  '(entityId, t, grew) ← insertRow (mkTable (e sys) (s sys)) id;
  let sys1 := set_s (set_e sys (arr t)) (st t) in
  let sys2 :=
    if grew : bool then sys1
    else set_e sys1 (initRow (arr t) (entityId * sizeOf (st t)) (maskSize sys)) in
  match tpl with
  | Some props =>
      sys3 ← addComponents sys2 entityId props;
      Ok (entityId, sys3)
  | None => Ok (entityId, sys2)
  end.

(** [getValue(entity, name)]: the cell read, [None] for [undefined]. *)
Definition getValue (sys : EntitySystem) (entity : Z) (nm : string)
  : outcome (option Z) :=
  cfg ← getPropConfig sys nm;
  let entityRow := entity * sizeOf (s sys) in
  match tableAt (tables sys) (array cfg) with
  | None => Throw TypeError
  | Some t =>
      match aget (e sys) (entityRow + maskSize sys + array cfg) with
      | Some componentOffset => Ok (aget (arr t) (componentOffset + offset cfg))
      | None => Ok None
      end
  end.

(** [setValue(entity, name, value)]. *)
Definition setValue (sys : EntitySystem) (entity : Z) (nm : string) (v : Z)
  : outcome EntitySystem :=
  cfg ← getPropConfig sys nm;
  let entityRow := entity * sizeOf (s sys) in
  match tableAt (tables sys) (array cfg) with
  | None => Throw TypeError
  | Some t =>
      match aget (e sys) (entityRow + maskSize sys + array cfg) with
      | Some componentOffset =>
          Ok (set_tables sys
                (setTable (tables sys) (array cfg)
                   (mkTable (aset (arr t) (componentOffset + offset cfg) v)
                            (st t))))
      | None => Ok sys
      end
  end.

(** *** Masks and handlers *)

(** [mask(components)] for an array of names. *)
Fixpoint maskRest (sys : EntitySystem) (idx0 acc : Z) (cs : list string)
  : outcome Z :=
  match cs with
  | [] => Ok acc
  | c :: rest =>
      match mapGet (components sys) c with
      | None => Throw TypeError
      | Some en =>
          if arrayIndex en =? idx0 then
            maskRest sys idx0 (Z.lor acc (mask en)) rest
          else
            Throw (Error
              "mask: All given components must belong to the same table")
      end
  end.

Definition maskOf (sys : EntitySystem) (cs : list string) : outcome Z :=
  match cs with
  | [] => Throw TypeError
  | c :: rest =>
      match mapGet (components sys) c with
      | None => Throw TypeError
      | Some en => maskRest sys (arrayIndex en) (mask en) rest
      end
  end.

(** The cleanup function that [onEnter] and [onExit] return: it remembers
    [fn] and which of the two handler arrays it belongs to. *)
Inductive cleanup : Type :=
| CleanEntry (fn : callback)
| CleanExit (fn : callback).

(** [onEnter(mask, fn)] and [onExit(mask, fn)]. *)
Definition onEnter (sys : EntitySystem) (m : Z) (fn : callback)
  : EntitySystem * cleanup :=
  (set_entryHandlers sys (entryHandlers sys ++ [(m, fn)])%list, CleanEntry fn).

Definition onExit (sys : EntitySystem) (m : Z) (fn : callback)
  : EntitySystem * cleanup :=
  (set_exitHandlers sys (exitHandlers sys ++ [(m, fn)])%list, CleanExit fn).

(** Calling a cleanup function. *)
Definition runCleanup (sys : EntitySystem) (c : cleanup) : EntitySystem :=
  match c with
  | CleanEntry fn =>
      set_entryHandlers sys (removeHandler (entryHandlers sys) fn)
  | CleanExit fn =>
      set_exitHandlers sys (removeHandler (exitHandlers sys) fn)
  end.

(** *** Lookups and queries *)

Definition TABLE_NAMES : list string :=
  ["c0"; "c1"; "c2"; "c3"; "c4"; "c5"; "c6"; "c7"; "c8"; "c9"].

(** [findComponentByProp(name)]: [this.componentsByProp.get(name).component],
    a TypeError when the prop is unknown. *)
Definition findComponentByProp (sys : EntitySystem) (nm : string)
  : outcome string :=
  match mapGet (componentsByProp sys) nm with
  | Some cfg => Ok (component cfg)
  | None => Throw TypeError
  end.

(** [getTableName(component)]: [TABLE_NAMES[arrayIndex]], which is
    [undefined] ([None]) outside 0..9. *)
Definition getTableName (sys : EntitySystem) (nm : string)
  : outcome (option string) :=
  match mapGet (components sys) nm with
  | Some c =>
      Ok (if arrayIndex c <? 0 then None
          else TABLE_NAMES !! Z.to_nat (arrayIndex c))
  | None => Throw TypeError
  end.

(** The loop of [forEach]: the ids handed to [fn], in order. *)
Fixpoint forEachRows (a : list Z) (sz arrayIndex bMask : Z) (rows : list Z)
  : outcome (list Z) :=
  match rows with
  | [] => Ok []
  | i :: rest =>
      m ← toBigInt (aget a (i * sz + arrayIndex));
      ids ← forEachRows a sz arrayIndex bMask rest;
      Ok (if Z.land m bMask =? bMask then i :: ids else ids)
  end.

(** [forEach(arrayIndex, mask, fn)]. *)
Definition forEach (sys : EntitySystem) (arrayIndex bMask : Z)
  : outcome (list Z) :=
  forEachRows (e sys) (sizeOf (s sys)) arrayIndex bMask
              (seqZ 0 (rowCounter (s sys))).

(** The module variable [tmp] is [None] before the first call.
    [tmpArray(size)] reuses it when it is long enough and sets its first
    [size] cells to [0n]; what lies beyond stays. *)
Definition tmpArray (tmp : option (list Z)) (size : Z) : list Z :=
  let n := Z.to_nat size in
  match tmp with
  | Some l => if alen l <? size then replicate n 0
              else (replicate n 0 ++ drop n l)%list
  | None => replicate n 0
  end.

(** The one-character string of a double quote. *)
Definition quote : string := String (Ascii.ascii_of_nat 34) EmptyString.

(** [masks[arrayIndex] |= mask] for every named component; an unknown
    name is an Error. *)
Fixpoint orNames (sys : EntitySystem) (ms : list Z) (cs : list string)
  : outcome (list Z) :=
  match cs with
  | [] => Ok ms
  | c :: rest =>
      match mapGet (components sys) c with
      | None =>
          Throw (Error ("Could not find component " ++ quote ++ c ++ quote))
      | Some en =>
          ms' ← orMask ms (arrayIndex en) (mask en);
          orNames sys ms' rest
      end
  end.

(** The closing loop of [has]: every mask must be contained in the word
    of its table. *)
Fixpoint hasMasks (a : list Z) (entityRow j : Z) (ms : list Z)
  : outcome bool :=
  match ms with
  | [] => Ok true
  | m :: rest =>
      w ← toBigInt (aget a (entityRow + j));
      if Z.land w m =? m then hasMasks a entityRow (j + 1) rest
      else Ok false
  end.

(** The second argument of [has]: an array of BigInt masks, one per table,
    or an array of component names. *)
Inductive hasArg : Type :=
| ByMasks (ms : list Z)
| ByNames (cs : list string).

(** [has(entity, components)]: the answer and the module variable [tmp]
    afterwards. *)
Definition has (sys : EntitySystem) (tmp : option (list Z)) (entity : Z)
    (arg : hasArg) : outcome (bool * option (list Z)) :=
  let entityRow := entity * sizeOf (s sys) in
  match arg with
  | ByMasks (m :: ms) =>
      b ← hasMasks (e sys) entityRow 0 (m :: ms);
      Ok (b, tmp)
  | ByMasks [] =>
      b ← hasMasks (e sys) entityRow 0 (tmpArray tmp (maskSize sys));
      Ok (b, Some (tmpArray tmp (maskSize sys)))
  | ByNames cs =>
      ms ← orNames sys (tmpArray tmp (maskSize sys)) cs;
      b ← hasMasks (e sys) entityRow 0 ms;
      Ok (b, Some ms)
  end.

(** [masks(components)]. *)
Definition masks (sys : EntitySystem) (cs : list string) : outcome (list Z) :=
  orNames sys (replicate (Z.to_nat (maskSize sys)) 0) cs.

(** *** JSON export and import *)

(** [(!masks || (masks[i] & m) === m) && (currMask & m) === m]; the
    [&] of [undefined] with a BigInt is a TypeError. *)
Definition exported (masks : option (list Z)) (i m currMask : Z)
  : outcome bool :=
  pass ←
    match masks with
    | None => Ok true
    | Some ms =>
        match aget ms i with
        | Some f => Ok (Z.land f m =? m)
        | None => Throw TypeError
        end
    end;
  Ok (pass && (Z.land currMask m =? m)).

(** The tag loop of [toJSON] over [this.components.values()]. *)
Fixpoint exportTags (sys : EntitySystem) (masks : option (list Z))
    (rowOffset : Z) (cs : list (string * ComponentEntry))
  : outcome (list string) :=
  match cs with
  | [] => Ok []
  | (_, cfg) :: rest =>
      if Nat.eqb (length (propNames cfg)) 0 then
        currMask ← toBigInt (aget (e sys) (rowOffset + arrayIndex cfg));
        b ← exported masks (arrayIndex cfg) (mask cfg) currMask;
        tags ← exportTags sys masks rowOffset rest;
        Ok (if b : bool then name cfg :: tags else tags)
      else exportTags sys masks rowOffset rest
  end.

(** The prop loop of [toJSON] over [this.componentsByProp.values()];
    [entity] is the object under construction. *)
Fixpoint exportProps (sys : EntitySystem) (masks : option (list Z))
    (rowOffset : Z) (ps : list (string * PropConfig)) (entity : template)
    (containsData : bool) : outcome (template * bool) :=
  match ps with
  | [] => Ok (entity, containsData)
  | (_, cfg) :: rest =>
      currMask ← toBigInt (aget (e sys) (rowOffset + array cfg));
      b ← exported masks (array cfg) (componentMask cfg) currMask;
      if b : bool then
        match aget (e sys) (maskSize sys + rowOffset + array cfg) with
        | Some columnRow =>
            if 0 <=? columnRow then
              match tableAt (tables sys) (array cfg) with
              | None => Throw TypeError
              | Some t =>
                  let v :=
                    match aget (arr t) (columnRow + offset cfg) with
                    | Some z => TNum z
                    | None => TUndefined
                    end in
                  exportProps sys masks rowOffset rest
                    (mapSet entity (pname cfg) v) true
              end
            else exportProps sys masks rowOffset rest entity containsData
        | None => exportProps sys masks rowOffset rest entity containsData
        end
      else exportProps sys masks rowOffset rest entity containsData
  end.

(** The body of the [for i] loop of [toJSON]: the object exported for row
    [i], if any. *)
Definition exportEntity (sys : EntitySystem) (masks : option (list Z))
    (i : Z) : outcome (option template) :=
  let rowOffset := i * sizeOf (s sys) in
  if exists_ sys i then
    tags ← exportTags sys masks rowOffset (components sys);
    let entity0 : template := [("_id", TNum i)] in
    let '(entity1, containsData) :=
      if Nat.eqb (length tags) 0 then (entity0, false)
      else (mapSet entity0 "_" (TNames tags), true) in
    '(entity2, containsData') ←
      exportProps sys masks rowOffset (componentsByProp sys) entity1
                  containsData;
    Ok (if containsData' : bool then Some entity2 else None)
  else Ok None.

Fixpoint exportRows (sys : EntitySystem) (masks : option (list Z))
    (rows : list Z) : outcome (list template) :=
  match rows with
  | [] => Ok []
  | i :: rest =>
      o ← exportEntity sys masks i;
      es ← exportRows sys masks rest;
      Ok (match o with Some en => en :: es | None => es end)
  end.

(** [toJSON(masks)]: the [entities] array of the export. *)
Definition toJSON (sys : EntitySystem) (masks : option (list Z))
  : outcome (list template) :=
  if sizeOf (s sys) =? maskSize sys * 2 then
    exportRows sys masks (seqZ 0 (rowCounter (s sys)))
  else
    Throw (Error
      "Illegal State: sizeOf of entity table must be twice the mask size").

(** [template._id], when it is a number. *)
Definition templateId (t : template) : option Z :=
  match mapGet t "_id" with
  | Some (TNum i) => Some i
  | _ => None
  end.

(** [entities.sort((a, b) => b._id - a._id)]: a stable sort, highest id
    first. *)
Fixpoint insertDesc (x : Z * template) (l : list (Z * template))
  : list (Z * template) :=
  match l with
  | [] => [x]
  | y :: l' =>
      if fst y <=? fst x then x :: y :: l' else y :: insertDesc x l'
  end.

Definition sortDesc (l : list (Z * template)) : list (Z * template) :=
  foldr insertDesc [] l.

(** Every exported object with its [_id]; an object without a numeric
    [_id] is not an export of this engine. *)
Fixpoint withIds (json : list template) : outcome (list (Z * template)) :=
  match json with
  | [] => Ok []
  | t :: rest =>
      match templateId t with
      | Some i => r ← withIds rest; Ok ((i, t) :: r)
      | None => Beyond
      end
  end.

(** The creation loop of [fromJSON]. *)
Fixpoint importAll (sys : EntitySystem) (ents : list (Z * template))
  : outcome EntitySystem :=
  match ents with
  | [] => Ok sys
  | (i, t) :: rest =>
      '(_, sys') ← newEntity sys (Some t) (Some i);
      importAll sys' rest
  end.

(** [for (let i = 0; i < entityArray.length; i += sizeOf)] counting the
    rows without the "exists" bit.  On a constructed system the step is
    positive whenever the array is not empty, so [fuel = length] passes
    are enough. *)
Fixpoint countMissing (a : list Z) (sz i : Z) (fuel : nat) : Z :=
  match fuel with
  | O => 0
  | S fuel' =>
      if i <? alen a then
        (if and1 (aget a i) =? 0 then 1 else 0)
        + countMissing a sz (i + sz) fuel'
      else 0
  end.

(** [EntitySystem.fromJSON(config, json)]. *)
Definition fromJSON (config : EntitySystemConfig) (json : list template)
  : outcome EntitySystem :=
  sys ← newEntitySystem config;
  ents ← withIds json;
  sys1 ← importAll sys (sortDesc ents);
  Ok (set_s sys1
        (set_removeCounter (s sys1)
           (countMissing (e sys1) (sizeOf (s sys1)) 0 (length (e sys1))))).

(** ** Registrations in sequence *)

Inductive registration : Type :=
| RegEnter (m : Z) (fn : callback)
| RegExit (m : Z) (fn : callback).

Definition register (sys : EntitySystem) (r : registration)
  : EntitySystem * cleanup :=
  match r with
  | RegEnter m fn => onEnter sys m fn
  | RegExit m fn => onExit sys m fn
  end.

(** A run of registrations: the system afterwards and the cleanup
    functions handed out, in order. *)
Fixpoint registerAll (sys : EntitySystem) (rs : list registration)
  : EntitySystem * list cleanup :=
  match rs with
  | [] => (sys, [])
  | r :: rest =>
      let '(sys1, c) := register sys r in
      let '(sys2, cs) := registerAll sys1 rest in
      (sys2, c :: cs)
  end.

(** The pairs a run of registrations appends to each handler array. *)
Fixpoint enterPairs (rs : list registration) : handlers :=
  match rs with
  | [] => []
  | RegEnter m fn :: rest => (m, fn) :: enterPairs rest
  | RegExit _ _ :: rest => enterPairs rest
  end.

Fixpoint exitPairs (rs : list registration) : handlers :=
  match rs with
  | [] => []
  | RegEnter _ _ :: rest => exitPairs rest
  | RegExit m fn :: rest => (m, fn) :: exitPairs rest
  end.

(** ** Configurations used in examples *)

(** The configuration of the README, with room for four rows. *)
Definition demoConfig : EntitySystemConfig :=
  mkConfig
    [("Appearance", ["x"; "y"; "z"]); ("Health", ["health"]); ("Marked", [])]
    (Some [mkLayoutJSON ["Appearance"; "Health"; "Marked"] 4])
    (Some 4).

(** Two tables: [A] alone in table 0, [B] and [C] in table 1. *)
Definition twoTableConfig : EntitySystemConfig :=
  mkConfig [("A", ["a"]); ("B", ["b"]); ("C", ["c"])]
    (Some [mkLayoutJSON ["A"] 4; mkLayoutJSON ["B"; "C"] 4])
    (Some 4).

(** One table that is given 53 components, [c0] to [c52], of one prop
    each. *)
Definition crowdedConfig : EntitySystemConfig :=
  mkConfig
    (map (fun i : nat => ("c" ++ pretty i, ["p" ++ pretty i])%string) (seq 0 53))
    (Some [mkLayoutJSON (map (fun i : nat => ("c" ++ pretty i)%string) (seq 0 53)) 2])
    (Some 2).

(** ** Observations used in the statements *)

(** The number of rows below the high-water mark of the entity table whose
    "exists" bit is clear. *)
Definition deadRows (sys : EntitySystem) : Z :=
  Z.of_nat (length (List.filter (fun i => negb (exists_ sys i))
                                (seqZ 0 (rowCounter (s sys))))).





(** The mask word and the offset word of an entity for table [i]. *)
Definition maskWord (sys : EntitySystem) (entity i : Z) : option Z :=
  aget (e sys) (entity * sizeOf (s sys) + i).

Definition offsetWord (sys : EntitySystem) (entity i : Z) : option Z :=
  aget (e sys) (entity * sizeOf (s sys) + maskSize sys + i).

(** ** Runs used in examples *)


(** The empty system: no components, no tables, no rows. *)
Definition emptyConfig : EntitySystemConfig := mkConfig [] (Some []) (Some 0).

(** Two entities of [demoConfig] that were both given [Appearance] by
    [addComponent]; then [y] of the first is set to 7 and [x] of the second
    to 9. *)
Definition demoTwoAppearances : outcome EntitySystem :=
  sys0 ← newEntitySystem demoConfig;
  '(a, sys1) ← newEntity sys0 None None;
  '(b, sys2) ← newEntity sys1 None None;
  sys3 ← addComponent sys2 a "Appearance";
  addComponent sys3 b "Appearance".

(** An entity of [demoConfig] with [Appearance] and the tag [Marked]. *)
Definition demoMarked : outcome EntitySystem :=
  sys0 ← newEntitySystem demoConfig;
  '(_, sys1) ←
    newEntity sys0 (Some [("x", TNum 1); ("_", TNames ["Marked"])]) None;
  Ok sys1.

(** [twoTableConfig] with a callback 7 registered by
    [onEnter(mask("C"), fn)]. *)
Definition watchC : outcome EntitySystem :=
  sys0 ← newEntitySystem twoTableConfig;
  m ← maskOf sys0 ["C"];
  Ok (fst (onEnter sys0 m 7%nat)).

(** One table with room for a single row, and two entities: the first
    has [Health] and holds that row, the second has no component. *)
Definition tightConfig : EntitySystemConfig :=
  mkConfig [("Health", ["health"])] (Some [mkLayoutJSON ["Health"] 1])
           (Some 4).

Definition demoFull : outcome EntitySystem :=
  sys0 ← newEntitySystem tightConfig;
  '(_, sys1) ← newEntity sys0 (Some [("health", TNum 1)]) None;
  '(_, sys2) ← newEntity sys1 None None;
  Ok sys2.

(** ** Runs of the engine *)

(** The calls a client can make that change the system. *)
Inductive operation : Type :=
| OpNewEntity (tpl : option template) (id : option Z)
| OpAddComponent (entity : Z) (nm : string)
| OpAddComponents (entity : Z) (tpl : template)
| OpRemoveComponent (entity : Z) (nm : string)
| OpRemoveEntity (entity : Z)
| OpSetValue (entity : Z) (nm : string) (v : Z)
| OpOnEnter (m : Z) (fn : callback)
| OpOnExit (m : Z) (fn : callback)
| OpCleanup (c : cleanup).

Definition perform (sys : EntitySystem) (o : operation)
  : outcome EntitySystem :=
  match o with
  | OpNewEntity tpl id => '(_, sys') ← newEntity sys tpl id; Ok sys'
  | OpAddComponent entity nm => addComponent sys entity nm
  | OpAddComponents entity tpl => addComponents sys entity tpl
  | OpRemoveComponent entity nm => removeComponent sys entity nm
  | OpRemoveEntity entity => removeEntity sys entity
  | OpSetValue entity nm v => setValue sys entity nm v
  | OpOnEnter m fn => Ok (fst (onEnter sys m fn))
  | OpOnExit m fn => Ok (fst (onExit sys m fn))
  | OpCleanup c => Ok (runCleanup sys c)
  end.

(** The states of a system of configuration [cfg]: built by the
    constructor or by an import, then changed by calls that return.  (A
    call that throws ends the run: the state it leaves is not followed.) *)
Inductive reachable (cfg : EntitySystemConfig) : EntitySystem -> Prop :=
| reach_new sys :
    newEntitySystem cfg = Ok sys -> reachable cfg sys
| reach_import json sys :
    fromJSON cfg json = Ok sys -> reachable cfg sys
| reach_step sys o sys' :
    reachable cfg sys -> perform sys o = Ok sys' -> reachable cfg sys'.

(** What no call changes: the registry, and of every table its row width,
    its combined mask and its kind. *)
Definition tstatic (ts : TableState) : Z * Z * bool :=
  (sizeOf ts, combinedMask ts, isEntityTable ts).

Definition shapeOf (sys : EntitySystem)
  : list (string * ComponentEntry) * list (string * PropConfig) * Z
    * (Z * Z * bool) * list (option (Z * Z * bool)) :=
  (components sys, componentsByProp sys, maskSize sys, tstatic (s sys),
   (fun o : option Table => (fun t => tstatic (st t)) <$> o) <$> tables sys).

(** An entity of [demoConfig] with [Health] only. *)
Definition demoOneHealth : outcome EntitySystem :=
  sys0 ← newEntitySystem demoConfig;
  '(_, sys1) ← newEntity sys0 (Some [("health", TNum 4)]) None;
  Ok sys1.

(** ** Export and import, entity by entity *)

(** [entity] carries component [c]: [(maskWord & mask) === mask], the test
    of [has] and of [toJSON]. *)
Definition carries (sys : EntitySystem) (entity : Z) (c : ComponentEntry)
  : bool :=
  match maskWord sys entity (arrayIndex c) with
  | Some w => Z.land w (mask c) =? mask c
  | None => false
  end.

(** What the export says about one entity: its id, its tag components and
    its prop values. *)
Record Exported : Type := mkExported {
  xid : Z;
  xtags : list string;
  xprops : list (string * Z)
}.

(** The object [toJSON] builds for it. *)
Definition templateOf (d : Exported) : template :=
  ((("_id", TNum (xid d))
    :: (if Nat.eqb (length (xtags d)) 0 then []
        else [("_", TNames (xtags d))]))
   ++ map (fun pv => (fst pv, TNum (snd pv))) (xprops d))%list.

(** The bits the tags and the props of a template set in the mask word of
    table [a]. *)
Definition tagBits (sys : EntitySystem) (tags : list string) (a : Z) : Z :=
  foldr (fun nm acc =>
           match mapGet (components sys) nm with
           | Some c => if arrayIndex c =? a then Z.lor (mask c) acc else acc
           | None => acc
           end) 0 tags.

Definition propBits (sys : EntitySystem) (props : list (string * Z)) (a : Z)
  : Z :=
  foldr (fun pv acc =>
           match mapGet (componentsByProp sys) (fst pv) with
           | Some cfg =>
               if array cfg =? a then Z.lor (componentMask cfg) acc else acc
           | None => acc
           end) 0 props.

(** A registry as the constructor builds it from a configuration that
    assigns every component to one table, at most 52 to a table: every
    component has a table index and a single bit of its own, every prop
    belongs to its component and has a slot of its own in the row of a table
    that exists. *)
Record RegistryOk (sys : EntitySystem) : Prop := mkRegistryOk {
  reg_width : sizeOf (s sys) = 2 * maskSize sys;
  reg_comp_keys : NoDup (map fst (components sys));
  reg_prop_keys : NoDup (map fst (componentsByProp sys));
  reg_comp :
    forall nm c, mapGet (components sys) nm = Some c ->
      name c = nm
      /\ 0 <= arrayIndex c < maskSize sys
      /\ exists k, 0 <= k <= 52 /\ mask c = 2 ^ k
                   /\ (arrayIndex c = 0 -> 1 <= k);
  reg_comp_inj :
    forall nm nm' c c',
      mapGet (components sys) nm = Some c ->
      mapGet (components sys) nm' = Some c' ->
      arrayIndex c = arrayIndex c' -> mask c = mask c' -> nm = nm';
  reg_prop :
    forall p cfg, mapGet (componentsByProp sys) p = Some cfg ->
      pname cfg = p /\ p <> "_" /\ p <> "_id"
      /\ (exists c, mapGet (components sys) (component cfg) = Some c
                    /\ In p (propNames c)
                    /\ arrayIndex c = array cfg
                    /\ mask c = componentMask cfg)
      /\ 1 <= offset cfg < psizeOf cfg
      /\ exists t, tableAt (tables sys) (array cfg) = Some t
                   /\ sizeOf (st t) = psizeOf cfg;
  reg_comp_props :
    forall nm c p, mapGet (components sys) nm = Some c ->
      In p (propNames c) ->
      exists cfg, mapGet (componentsByProp sys) p = Some cfg
                  /\ component cfg = nm;
  reg_offset_inj :
    forall p p' cfg cfg',
      mapGet (componentsByProp sys) p = Some cfg ->
      mapGet (componentsByProp sys) p' = Some cfg' ->
      array cfg = array cfg' -> offset cfg = offset cfg' -> p = p'
}.

(** The allocator of a data table during an import: nothing was freed, and
    the rows handed out so far lie inside the array, which holds a whole
    number of rows, at least one. *)
Definition TableOk (t : Table) : Prop :=
  removeCounter (st t) = 0
  /\ 0 <= rowCounter (st t)
  /\ 1 < sizeOf (st t)
  /\ exists n, 1 <= n /\ alen (arr t) = sizeOf (st t) * n
               /\ rowCounter (st t) <= n.

(** ** Invariants used in the proofs *)



(** The static part of every table slot. *)
Definition tshape (tabs : list (option Table)) : list (option (Z * Z * bool)) :=
  (fun o : option Table => (fun t => tstatic (st t)) <$> o) <$> tabs.

(** The state of the prop loop of [addComponents] during an import.
    [sys0] and [masks0] are the system and the pending masks when the loop
    starts, [sys], [masks] and [rows] what they are now, [done] the props
    written so far.  [rows] is the [arrayRows] map of the loop. *)
Record PropsInv (entity : Z) (sys0 : EntitySystem) (masks0 : list Z)
    (sys : EntitySystem) (masks : list Z) (rows : list (Z * Z))
    (done : list (string * Z)) : Prop := mkPropsInv {
  pi_same :
    exists e' tabs', sys = set_tables (set_e sys0 e') tabs';
  pi_len : alen (e sys) = alen (e sys0);
  pi_frame :
    forall idx,
      (forall a, 0 <= a < maskSize sys0 ->
                 idx <> entity * sizeOf (s sys0) + maskSize sys0 + a) ->
      aget (e sys) idx = aget (e sys0) idx;
  pi_link :
    forall a, 0 <= a < maskSize sys0 ->
      exists o,
        offsetWord sys entity a = Some o
        /\ match rowsGet rows a with
           | Some r =>
               exists t0 t,
                 tableAt (tables sys0) a = Some t0
                 /\ tableAt (tables sys) a = Some t
                 /\ o = r * sizeOf (st t)
                 /\ rowCounter (st t0) <= r < rowCounter (st t)
           | None =>
               o = -1 /\ tableAt (tables sys) a = tableAt (tables sys0) a
           end;
  pi_masks_len : length masks = length masks0;
  pi_masks :
    forall a m0, aget masks0 a = Some m0 ->
                 aget masks a = Some (Z.lor m0 (propBits sys0 done a));
  pi_shape : tshape (tables sys) = tshape (tables sys0);
  pi_tables :
    forall a t, tableAt (tables sys) a = Some t -> TableOk t;
  pi_below :
    forall a t0 t, tableAt (tables sys0) a = Some t0 ->
                   tableAt (tables sys) a = Some t ->
      rowCounter (st t0) <= rowCounter (st t)
      /\ forall idx v, idx < rowCounter (st t0) * sizeOf (st t0) ->
                       aget (arr t0) idx = Some v -> aget (arr t) idx = Some v;
  pi_values :
    forall p z, In (p, z) done ->
      exists cfg t r,
        mapGet (componentsByProp sys0) p = Some cfg
        /\ rowsGet rows (array cfg) = Some r
        /\ tableAt (tables sys) (array cfg) = Some t
        /\ aget (arr t) (r * psizeOf cfg + offset cfg) = Some z
}.


(** * Properties *)

(** ** Arrays *)

Lemma aget_aset_eq (a : list Z) (i v : Z) :
  0 <= i < alen a -> aget (aset a i v) i = Some v.
Proof.
  unfold aget, aset, alen. intros [H0 H1].
  destruct (i <? 0) eqn:Hi; [lia|].
  apply list_lookup_insert_eq. lia.
Qed.

Lemma aget_aset_ne (a : list Z) (i j v : Z) :
  i <> j -> aget (aset a i v) j = aget a j.
Proof.
  unfold aget, aset. intros Hne.
  destruct (j <? 0) eqn:Hj; [reflexivity|].
  destruct (i <? 0) eqn:Hi; [reflexivity|].
  apply list_lookup_insert_ne. lia.
Qed.


Lemma alen_aset (a : list Z) (i v : Z) : alen (aset a i v) = alen a.
Proof.
  unfold alen, aset. destruct (i <? 0); [reflexivity|].
  now rewrite length_insert.
Qed.

Lemma aget_Some_range (a : list Z) (i v : Z) :
  aget a i = Some v -> 0 <= i < alen a.
Proof.
  unfold aget, alen. destruct (i <? 0) eqn:Hi; [discriminate|].
  intros H. apply lookup_lt_Some in H. lia.
Qed.

Lemma aget_in_range (a : list Z) (i : Z) :
  0 <= i < alen a -> exists v, aget a i = Some v.
Proof.
  unfold aget, alen. intros [H0 H1].
  destruct (i <? 0) eqn:Hi; [lia|].
  destruct (lookup_lt_is_Some_2 a (Z.to_nat i)) as [v Hv]; [lia|]. eauto.
Qed.

Lemma aget_beyond (a : list Z) (i : Z) : alen a <= i -> aget a i = None.
Proof.
  unfold aget, alen. intros H.
  destruct (i <? 0); [reflexivity|].
  apply lookup_ge_None. lia.
Qed.

Lemma aset_beyond (a : list Z) (i v : Z) : alen a <= i -> aset a i v = a.
Proof.
  unfold aset, alen. intros H.
  destruct (i <? 0); [reflexivity|].
  apply list_insert_ge. lia.
Qed.


(** ** The table slots *)

Lemma tableAt_Some_range (ts : list (option Table)) (i : Z) (t : Table) :
  tableAt ts i = Some t ->
  0 <= i < 10 /\ ts !! Z.to_nat i = Some (Some t).
Proof.
  unfold tableAt.
  destruct ((0 <=? i) && (i <? 10)) eqn:Hr; [|discriminate].
  intros H. split; [lia|].
  destruct (ts !! Z.to_nat i) as [[t'|]|]; simpl in H; congruence.
Qed.

Lemma tableAt_setTable_eq (ts : list (option Table)) (i : Z) (t t' : Table) :
  tableAt ts i = Some t -> tableAt (setTable ts i t') i = Some t'.
Proof.
  intros H. destruct (tableAt_Some_range _ _ _ H) as [Hr Hl].
  unfold tableAt, setTable.
  destruct ((0 <=? i) && (i <? 10)) eqn:Hb; [|lia].
  rewrite list_lookup_insert_eq; [reflexivity|].
  now apply lookup_lt_Some in Hl.
Qed.

Lemma tableAt_setTable_ne (ts : list (option Table)) (i j : Z) (t' : Table) :
  i <> j -> tableAt (setTable ts i t') j = tableAt ts j.
Proof.
  intros Hne. unfold tableAt, setTable.
  destruct ((0 <=? j) && (j <? 10)) eqn:Hj; [|reflexivity].
  destruct ((0 <=? i) && (i <? 10)) eqn:Hi; [|reflexivity].
  rewrite list_lookup_insert_ne; [reflexivity|lia].
Qed.

(** ** Masks *)


(** ** Handlers *)


Lemma removeHandler_filter (hs : handlers) (fn : callback) :
  removeHandler hs fn = List.filter (fun p => negb (Nat.eqb (snd p) fn)) hs.
Proof.
  induction hs as [|[m g] hs IH]; simpl; [reflexivity|].
  destruct (Nat.eqb g fn); simpl; now rewrite IH.
Qed.

(** ** Record bookkeeping *)


Lemma add_calls_nil (sys : EntitySystem) : add_calls sys [] = sys.
Proof. destruct sys; unfold add_calls; simpl. now rewrite app_nil_r. Qed.

(** ** Adding a component twice *)



(** ** Deregistration *)

Lemma registerAll_handlers (rs : list registration) (sys : EntitySystem) :
  entryHandlers (fst (registerAll sys rs))
  = (entryHandlers sys ++ enterPairs rs)%list
  /\ exitHandlers (fst (registerAll sys rs))
     = (exitHandlers sys ++ exitPairs rs)%list.
Proof.
  revert sys. induction rs as [|r rs IH]; intros sys; simpl.
  - now rewrite !app_nil_r.
  - destruct r as [m fn|m fn]; simpl;
      match goal with
      | |- context [registerAll ?s rs] =>
          destruct (IH s) as [He Hx]; destruct (registerAll s rs) as [s2 cs]
      end; simpl in *; rewrite He, Hx; simpl;
      rewrite <- ?app_assoc; simpl; split; reflexivity.
Qed.

Lemma registerAll_cleanups (rs : list registration) (sys : EntitySystem) :
  snd (registerAll sys rs)
  = map (fun r => match r with
                  | RegEnter _ fn => CleanEntry fn
                  | RegExit _ fn => CleanExit fn
                  end) rs.
Proof.
  revert sys. induction rs as [|r rs IH]; intros sys; simpl; [reflexivity|].
  destruct r as [m fn|m fn]; simpl;
    match goal with
    | |- context [registerAll ?s rs] =>
        specialize (IH s); destruct (registerAll s rs) as [s2 cs]
    end; simpl in *; now rewrite IH.
Qed.

(** C7, as the code has it.  After any run of registrations, the cleanup
    function returned by the [k]-th one removes from its own handler array
    every pair whose callback is the one it was registered with, whatever
    the mask of the pair, keeps every pair with another callback in
    registration order, and leaves the other handler array alone. *)
Theorem cleanup_removes_every_pair_of_its_callback
    (sys : EntitySystem) (rs : list registration) (k : nat)
    (r : registration) :
  rs !! k = Some r ->
  exists c,
    snd (registerAll sys rs) !! k = Some c
    /\ let sys' := fst (registerAll sys rs) in
       match r with
       | RegEnter _ fn =>
           entryHandlers (runCleanup sys' c)
           = List.filter (fun p => negb (Nat.eqb (snd p) fn))
                         (entryHandlers sys ++ enterPairs rs)
           /\ exitHandlers (runCleanup sys' c)
              = (exitHandlers sys ++ exitPairs rs)%list
       | RegExit _ fn =>
           exitHandlers (runCleanup sys' c)
           = List.filter (fun p => negb (Nat.eqb (snd p) fn))
                         (exitHandlers sys ++ exitPairs rs)
           /\ entryHandlers (runCleanup sys' c)
              = (entryHandlers sys ++ enterPairs rs)%list
       end.
Proof.
  intros Hk.
  destruct (registerAll_handlers rs sys) as [He Hx].
  rewrite registerAll_cleanups, list_lookup_fmap, Hk. simpl.
  destruct r as [m fn|m fn]; eexists; (split; [reflexivity|]); simpl;
    rewrite removeHandler_filter, ?He, ?Hx; split; reflexivity.
Qed.

Lemma cleanup_removes_every_pair_of_its_callback_witness :
  exists sys0 c,
    newEntitySystem emptyConfig = Ok sys0
    /\ snd (registerAll sys0 [RegEnter 2 7%nat; RegExit 2 8%nat;
                              RegEnter 4 9%nat]) !! 0%nat = Some c
    /\ entryHandlers
         (runCleanup
            (fst (registerAll sys0 [RegEnter 2 7%nat; RegExit 2 8%nat;
                                    RegEnter 4 9%nat])) c)
       = [(4, 9%nat)].
Proof.
  eexists. 
  destruct (cleanup_removes_every_pair_of_its_callback
              (mkEntitySystem [] [] 0 [] (newTableState 0 0)
                              (replicate 10 None) [] [] [])
              [RegEnter 2 7%nat; RegExit 2 8%nat; RegEnter 4 9%nat]
              0%nat (RegEnter 2 7%nat) eq_refl) as [c [Hc [He _]]].
  exists c. split; [reflexivity|]. split; [exact Hc|exact He].
Defined.

(** C7 fails as stated: a pair that shares the callback of the cleaned
    registration and was registered with another mask is removed too. *)
Lemma cleanup_drops_the_pair_with_another_mask :
  exists sys0,
    newEntitySystem emptyConfig = Ok sys0
    /\ let '(sys1, c1) := onEnter sys0 2 7%nat in
       let '(sys2, _) := onEnter sys1 4 7%nat in
       entryHandlers sys2 = [(2, 7%nat); (4, 7%nat)]
       /\ entryHandlers (runCleanup sys2 c1) = []
       /\ entryHandlers (runCleanup sys2 c1) <> [(4, 7%nat)].
Proof.
  eexists. split; [vm_compute; reflexivity|].
  simpl. repeat split. discriminate.
Qed.

(** ** The capacity check of the constructor *)

(** C4, on the code: a layout table that is given 53 components is accepted.
    The constructor compares [components.size] with 52, and an Array has no
    [size]; the system is built, and the last component is given bit 53. *)
Theorem crowded_table_is_accepted :
  (fun l => map (fun t => length (lcomponents t)) l) <$> Layout crowdedConfig
  = Some [53%nat]
  /\ exists sys,
       newEntitySystem crowdedConfig = Ok sys
       /\ mask <$> mapGet (components sys) "c52" = Some (2 ^ 53).
Proof.
  split; [reflexivity|].
  eexists. split; [vm_compute; reflexivity|reflexivity].
Qed.

(** ** Explicit ids *)

Lemma insertRow_at_rowCounter (t : Table) :
  exists t' g,
    insertRow t (Some (rowCounter (st t))) = Ok (rowCounter (st t), t', g)
    /\ rowCounter (st t') = rowCounter (st t).
Proof.
  unfold insertRow. simpl. rewrite Z.ltb_irrefl.
  destruct (alen (arr t) <=? rowCounter (st t) * sizeOf (st t));
    eexists; eexists; split; reflexivity.
Qed.

(** C5, on the code: an entity created with an explicit id equal to the
    current [rowCounter] leaves [rowCounter] where it was, so it is not above
    the row just used; the next creation without an id is handed the same
    row again. *)
Theorem explicit_id_at_rowCounter_is_not_counted :
  exists sys0 sys1 sys2,
    newEntitySystem demoConfig = Ok sys0
    /\ rowCounter (s sys0) = 0
    /\ newEntity sys0 None (Some 0) = Ok (0, sys1)
    /\ exists_ sys1 0 = true
    /\ rowCounter (s sys1) = 0
    /\ newEntity sys1 None None = Ok (0, sys2).
Proof.
  eexists. eexists. eexists.
  split; [vm_compute; reflexivity|].
  split; [reflexivity|].
  split; [vm_compute; reflexivity|].
  split; [reflexivity|].
  split; [reflexivity|].
  vm_compute; reflexivity.
Qed.

(** ** Growth *)

Lemma grow_length (a : list Z) : alen (grow a) = 2 * alen a.
Proof.
  unfold grow, alen. rewrite length_app, length_replicate. lia.
Qed.

Lemma grow_keeps (a : list Z) (i v : Z) :
  aget a i = Some v -> aget (grow a) i = Some v.
Proof.
  unfold aget, grow. destruct (i <? 0); [discriminate|].
  intros H. now apply lookup_app_l_Some.
Qed.

(** C9, on the code: the table grows once, to twice its length, whatever
    the row asked for.  With room for four rows, the explicit id 10 yields row
    10 of an array of sixteen cells: the row lies outside the array, and the
    import of an entity with that id stops with a TypeError. *)
Theorem far_explicit_id_is_not_addressable :
  exists sys0 t',
    newEntitySystem demoConfig = Ok sys0
    /\ alen (e sys0) = 8
    /\ insertRow (mkTable (e sys0) (s sys0)) (Some 10) = Ok (10, t', true)
    /\ alen (arr t') = 16
    /\ aget (arr t') (10 * sizeOf (st t')) = None
    /\ fromJSON demoConfig [[("_id", TNum 10); ("x", TNum 1)]]
       = Throw TypeError.
Proof.
  eexists. eexists.
  split; [vm_compute; reflexivity|].
  split; [reflexivity|].
  split; [vm_compute; reflexivity|].
  split; [reflexivity|].
  split; [reflexivity|].
  vm_compute; reflexivity.
Qed.

(** ** Row addressing of [addComponent] *)

(** C6, on the code: [addComponent] stores the row index in the offset
    word, not the row index times the row width.  The second entity is given
    row 1 of a table of width 5 and the offset word 1; setting its [x] then
    writes slot 2, which is [y] of the first entity. *)
Theorem addComponent_stores_the_row_index :
  exists sys sys',
    demoTwoAppearances = Ok sys
    /\ (rowCounter ∘ st) <$> tableAt (tables sys) 0 = Some 2
    /\ (fun t => aget (arr t) (1 * 5)) <$> tableAt (tables sys) 0
       = Some (Some 1)
    /\ offsetWord sys 1 0 = Some 1
    /\ getValue sys 0 "y" = Ok (Some 0)
    /\ setValue sys 1 "x" 9 = Ok sys'
    /\ getValue sys' 0 "y" = Ok (Some 9).
Proof.
  eexists. eexists.
  split; [vm_compute; reflexivity|].
  split; [reflexivity|].
  split; [reflexivity|].
  split; [reflexivity|].
  split; [reflexivity|].
  split; [vm_compute; reflexivity|].
  reflexivity.
Qed.

(** ** The free-slot count after an import *)

(** C3, on the code: [fromJSON] counts the rows without the "exists" bit
    over the whole array, not below [rowCounter], and leaves [skipOnRemove]
    at [Infinity].  Importing one entity with id 1 into room for four gives
    [rowCounter = 2] with one dead row below it, [removeCounter = 3], and the
    next [newEntity] throws the illegal-state error. *)
Theorem import_counts_rows_beyond_rowCounter :
  exists sys,
    fromJSON demoConfig [[("_id", TNum 1); ("x", TNum 1)]] = Ok sys
    /\ rowCounter (s sys) = 2
    /\ deadRows sys = 1
    /\ removeCounter (s sys) = 3
    /\ skipOnRemove (s sys) = None
    /\ newEntity sys None None
       = Throw (Error
           "Illegal State: could not find empty slot but removeCounter > 0").
Proof.
  eexists.
  split; [vm_compute; reflexivity|].
  repeat split; vm_compute; reflexivity.
Qed.

(** ** Entry handlers and tables *)

(** C8, on the code: a handler is stored without its table, and the mask
    update of every table is matched against it.  With [onEnter(mask("C"))]
    registered, where [C] is bit 1 of table 1 and [A] is bit 1 of table 0,
    creating an entity with [A] and [C] invokes the callback twice, and
    creating an entity with [A] alone invokes it once. *)
Theorem entry_handler_fires_for_another_table :
  exists sys sys1 sys2,
    watchC = Ok sys
    /\ entryHandlers sys = [(2, 7%nat)]
    /\ newEntity sys (Some [("a", TNum 1); ("c", TNum 2)]) None = Ok (0, sys1)
    /\ calls sys1 = [mkCall 7%nat 0 1 3; mkCall 7%nat 0 0 2]
    /\ newEntity sys (Some [("a", TNum 1)]) None = Ok (0, sys2)
    /\ maskWord sys2 0 1 = Some 0
    /\ calls sys2 = [mkCall 7%nat 0 1 3].
Proof.
  eexists. eexists. eexists.
  split; [vm_compute; reflexivity|].
  split; [reflexivity|].
  split; [vm_compute; reflexivity|].
  split; [reflexivity|].
  split; [vm_compute; reflexivity|].
  split; reflexivity.
Qed.

(** ** Removing a component *)




(** ** The registry built by the constructor *)

Lemma mapGet_cons {V : Type} (k' : string) (v' : V) (m : list (string * V))
    (k : string) :
  mapGet ((k', v') :: m) k = if String.eqb k' k then Some v' else mapGet m k.
Proof. unfold mapGet. simpl. now destruct (String.eqb k' k). Qed.

Lemma mapGet_mapSet_eq {V : Type} (m : list (string * V)) (k : string) (v : V) :
  mapGet (mapSet m k v) k = Some v.
Proof.
  induction m as [|[k' v'] m IH]; simpl.
  - rewrite mapGet_cons. now rewrite String.eqb_refl.
  - destruct (String.eqb k' k) eqn:E; rewrite mapGet_cons.
    + now rewrite String.eqb_refl.
    + now rewrite E.
Qed.

Lemma mapGet_mapSet_ne {V : Type} (m : list (string * V)) (k k' : string)
    (v : V) :
  k <> k' -> mapGet (mapSet m k v) k' = mapGet m k'.
Proof.
  intros Hne. induction m as [|[k0 v0] m IH]; simpl.
  - rewrite mapGet_cons.
    destruct (String.eqb k k') eqn:E; [|reflexivity].
    apply String.eqb_eq in E. contradiction.
  - destruct (String.eqb k0 k) eqn:E; rewrite !mapGet_cons.
    + apply String.eqb_eq in E. subst k0.
      destruct (String.eqb k k') eqn:E'; [|reflexivity].
      apply String.eqb_eq in E'. contradiction.
    + now rewrite IH.
Qed.


Lemma mapGet_In {V : Type} (m : list (string * V)) (k : string) (v : V) :
  mapGet m k = Some v -> In (k, v) m.
Proof.
  induction m as [|[k0 v0] m IH]; [discriminate|].
  rewrite mapGet_cons. destruct (String.eqb k0 k) eqn:E.
  - apply String.eqb_eq in E. intros [= ->]. subst. now left.
  - intros H. right. now apply IH.
Qed.










(** ** What every call leaves alone *)

Lemma bind_Ok {A B : Type} (m : outcome A) (f : A -> outcome B) (b : B) :
  m ≫= f = Ok b -> exists a, m = Ok a /\ f a = Ok b.
Proof. destruct m as [a| |]; simpl; try discriminate. eauto. Qed.

(** Case analysis along a run that returned. *)
Ltac run_inv :=
  repeat match goal with
  | H : Throw _ = Ok _ |- _ => discriminate H
  | H : Beyond = Ok _ |- _ => discriminate H
  | H : Ok _ = Ok _ |- _ => injection H; clear H; intros; subst
  | H : (_, _) = (_, _) |- _ => injection H; clear H; intros; subst
  | H : (?m ≫= _) = Ok _ |- _ =>
      let a := fresh "a" in
      let E := fresh "E" in
      apply bind_Ok in H; destruct H as (a & E & H)
  | H : (match ?x with _ => _ end) = Ok _ |- _ =>
      first [ is_var x; destruct x
            | let E := fresh "E" in destruct x eqn:E ]
  | H : (let '(_, _) := ?x in _) = Ok _ |- _ =>
      first [ is_var x; destruct x
            | let E := fresh "E" in destruct x eqn:E ]
  end.

Lemma insertRow_static (t : Table) (at_ : option Z) (id : Z) (t' : Table)
    (g : bool) :
  insertRow t at_ = Ok (id, t', g) -> tstatic (st t') = tstatic (st t).
Proof.
  unfold insertRow. intros H. run_inv; simpl; try reflexivity.
  all: match goal with
       | |- context [if ?b then _ else _] => now destruct b
       end.
Qed.

Lemma removeRow_static (t : Table) (q : Z) :
  tstatic (st (removeRow t q)) = tstatic (st t).
Proof. reflexivity. Qed.

Lemma tshape_setTable (tabs : list (option Table)) (i : Z) (t t' : Table) :
  tableAt tabs i = Some t -> tstatic (st t') = tstatic (st t) ->
  tshape (setTable tabs i t') = tshape tabs.
Proof.
  intros Ht Hs. destruct (tableAt_Some_range _ _ _ Ht) as [Hr Hl].
  unfold tshape, setTable.
  destruct ((0 <=? i) && (i <? 10)); [|reflexivity].
  rewrite list_fmap_insert. apply list_insert_id.
  rewrite list_lookup_fmap, Hl. simpl. now rewrite Hs.
Qed.

Lemma shapeOf_eq (a b : EntitySystem) :
  components b = components a ->
  componentsByProp b = componentsByProp a ->
  maskSize b = maskSize a ->
  tstatic (s b) = tstatic (s a) ->
  tshape (tables b) = tshape (tables a) ->
  shapeOf b = shapeOf a.
Proof.
  unfold shapeOf, tshape. intros -> -> -> -> ->. reflexivity.
Qed.

Lemma addComponent_shape (sys sys' : EntitySystem) (entity : Z) (nm : string) :
  addComponent sys entity nm = Ok sys' -> shapeOf sys' = shapeOf sys.
Proof.
  unfold addComponent. intros H. run_inv.
  - apply shapeOf_eq; try reflexivity. simpl.
    apply (tshape_setTable _ _ t); [assumption|].
    apply insertRow_static in E5. now destruct b.
  - now apply shapeOf_eq.
Qed.

Lemma addTags_shape (cs : list string) :
  forall sys sys' entity,
    addTags sys entity cs = Ok sys' -> shapeOf sys' = shapeOf sys.
Proof.
  induction cs as [|c rest IH]; intros sys sys' entity H; simpl in H.
  - now injection H as <-.
  - run_inv. apply addComponent_shape in E. apply IH in H. congruence.
Qed.

Lemma addProp_shape sys entity masks rows nm v sys' masks' rows' :
  addProp sys entity masks rows nm v = Ok (sys', masks', rows') ->
  shapeOf sys' = shapeOf sys.
Proof.
  unfold addProp. intros H. run_inv.
  - apply shapeOf_eq; try reflexivity. simpl.
    now apply (tshape_setTable _ _ t).
  - apply shapeOf_eq; try reflexivity. simpl.
    now apply (tshape_setTable _ _ t).
  - apply shapeOf_eq; try reflexivity. simpl in *.
    rewrite (tshape_setTable _ _ t) by (try assumption; reflexivity).
    apply (tshape_setTable _ _ t0); [assumption|]. simpl.
    now apply insertRow_static in E6.
Qed.

Lemma addKeys_shape (tpl : template) :
  forall sys entity masks rows sys' masks',
    addKeys sys entity masks rows tpl = Ok (sys', masks') ->
    shapeOf sys' = shapeOf sys.
Proof.
  induction tpl as [|[nm v] rest IH];
    intros sys entity masks rows sys' masks' H; simpl in H.
  - now injection H as <- <-.
  - destruct (String.eqb nm "_").
    + run_inv. apply addTags_shape in E. apply IH in H. congruence.
    + destruct (String.eqb nm "_id").
      * now apply IH in H.
      * run_inv. apply addProp_shape in E. apply IH in H. congruence.
Qed.

Lemma writeMasks_shape (masks : list Z) :
  forall sys entity j sys',
    writeMasks sys entity j masks = Ok sys' -> shapeOf sys' = shapeOf sys.
Proof.
  induction masks as [|m rest IH]; intros sys entity j sys' H; simpl in H.
  - now injection H as <-.
  - run_inv. apply IH in H. rewrite H. now apply shapeOf_eq.
Qed.

Lemma addComponents_shape sys entity tpl sys' :
  addComponents sys entity tpl = Ok sys' -> shapeOf sys' = shapeOf sys.
Proof.
  unfold addComponents. intros H. run_inv.
  apply addKeys_shape in E0. apply writeMasks_shape in H. congruence.
Qed.

Lemma newEntity_shape sys tpl id i sys' :
  newEntity sys tpl id = Ok (i, sys') -> shapeOf sys' = shapeOf sys.
Proof.
  unfold newEntity. intros H. run_inv.
  all: try (apply addComponents_shape in E1; rewrite E1).
  all: apply insertRow_static in E0; simpl in E0.
  all: destruct b; apply shapeOf_eq; try reflexivity; simpl; assumption.
Qed.

Lemma removeComponent_shape sys entity nm sys' :
  removeComponent sys entity nm = Ok sys' -> shapeOf sys' = shapeOf sys.
Proof.
  unfold removeComponent. intros H. run_inv.
  all: apply shapeOf_eq; try reflexivity. simpl.
  now apply (tshape_setTable _ _ t).
Qed.

Lemma removeEntityTable_shape sys entity i sys' :
  removeEntityTable sys entity i = Ok sys' -> shapeOf sys' = shapeOf sys.
Proof.
  unfold removeEntityTable. intros H. run_inv.
  all: apply shapeOf_eq; try reflexivity. simpl.
  now apply (tshape_setTable _ _ t).
Qed.

Lemma removeEntityTables_shape (idxs : list Z) :
  forall sys entity sys',
    removeEntityTables sys entity idxs = Ok sys' -> shapeOf sys' = shapeOf sys.
Proof.
  induction idxs as [|i rest IH]; intros sys entity sys' H; simpl in H.
  - now injection H as <-.
  - run_inv. apply removeEntityTable_shape in E. apply IH in H. congruence.
Qed.

Lemma removeEntity_shape sys entity sys' :
  removeEntity sys entity = Ok sys' -> shapeOf sys' = shapeOf sys.
Proof.
  unfold removeEntity. intros H. run_inv.
  apply removeEntityTables_shape in E. rewrite <- E.
  now apply shapeOf_eq.
Qed.

Lemma setValue_shape sys entity nm v sys' :
  setValue sys entity nm v = Ok sys' -> shapeOf sys' = shapeOf sys.
Proof.
  unfold setValue. intros H. run_inv; [|reflexivity].
  apply shapeOf_eq; try reflexivity. simpl.
  now apply (tshape_setTable _ _ t).
Qed.

Lemma perform_shape sys o sys' :
  perform sys o = Ok sys' -> shapeOf sys' = shapeOf sys.
Proof.
  destruct o; simpl; intros H.
  - run_inv. eapply newEntity_shape; eauto.
  - eapply addComponent_shape; eauto.
  - eapply addComponents_shape; eauto.
  - eapply removeComponent_shape; eauto.
  - eapply removeEntity_shape; eauto.
  - eapply setValue_shape; eauto.
  - now injection H as <-.
  - now injection H as <-.
  - injection H as <-. now destruct c.
Qed.

Lemma importAll_shape (ents : list (Z * template)) :
  forall sys sys', importAll sys ents = Ok sys' -> shapeOf sys' = shapeOf sys.
Proof.
  induction ents as [|[i t] rest IH]; intros sys sys' H; simpl in H.
  - now injection H as <-.
  - run_inv. apply newEntity_shape in E. apply IH in H. congruence.
Qed.

Lemma reachable_shape cfg sys :
  reachable cfg sys ->
  exists sys0, newEntitySystem cfg = Ok sys0 /\ shapeOf sys = shapeOf sys0.
Proof.
  induction 1 as [sys H|json sys H|sys o sys' _ [sys0 [H0 Hs]] H].
  - eauto.
  - unfold fromJSON in H. run_inv. exists a. split; [assumption|].
    apply importAll_shape in E1. rewrite <- E1. now apply shapeOf_eq.
  - exists sys0. split; [assumption|].
    apply perform_shape in H. congruence.
Qed.

Lemma tshape_tableAt (tabs tabs0 : list (option Table)) (i : Z) (t : Table) :
  tshape tabs = tshape tabs0 -> tableAt tabs i = Some t ->
  exists t0, tableAt tabs0 i = Some t0 /\ tstatic (st t0) = tstatic (st t).
Proof.
  intros Hs Ht. destruct (tableAt_Some_range _ _ _ Ht) as [Hr Hl].
  assert (H : tshape tabs !! Z.to_nat i = Some (Some (tstatic (st t)))).
  { unfold tshape. now rewrite list_lookup_fmap, Hl. }
  rewrite Hs in H. unfold tshape in H. rewrite list_lookup_fmap in H.
  unfold tableAt. destruct ((0 <=? i) && (i <? 10)) eqn:E; [|lia].
  destruct (tabs0 !! Z.to_nat i) as [[t0|]|]; simpl in *; try discriminate.
  exists t0. split; [reflexivity|]. congruence.
Qed.

Lemma shapeOf_inv (a b : EntitySystem) :
  shapeOf a = shapeOf b ->
  components a = components b
  /\ componentsByProp a = componentsByProp b
  /\ maskSize a = maskSize b
  /\ tstatic (s a) = tstatic (s b)
  /\ tshape (tables a) = tshape (tables b).
Proof.
  unfold shapeOf, tshape, tstatic. intros H.
  injection H as H1 H2 H3 H4 H5 H6 H7.
  repeat split; congruence.
Qed.

Lemma tableAt_setTable_inv (tabs : list (option Table)) (i j : Z)
    (T t : Table) :
  tableAt (setTable tabs i T) j = Some t ->
  (j = i /\ t = T) \/ tableAt tabs j = Some t.
Proof.
  destruct (Z.eq_dec i j) as [->|Hne].
  - intros H. destruct (tableAt_Some_range _ _ _ H) as [Hr Hl].
    unfold setTable in Hl.
    destruct ((0 <=? j) && (j <? 10)) eqn:E; [|lia].
    apply list_lookup_insert_Some in Hl.
    destruct Hl as [(_ & Ht & _)|(Hc & _)]; [|lia].
    left. split; [reflexivity|congruence].
  - intros H. rewrite tableAt_setTable_ne in H by assumption. now right.
Qed.









(** ** Export and import *)

Lemma alen_storeSeq (vs : list Z) : forall a off, alen (storeSeq a off vs) = alen a.
Proof.
  induction vs as [|v vs IH]; intros a off; simpl; [reflexivity|].
  now rewrite IH, alen_aset.
Qed.

Lemma storeSeq_outside (vs : list Z) :
  forall a off k,
    k < off \/ off + Z.of_nat (length vs) <= k ->
    aget (storeSeq a off vs) k = aget a k.
Proof.
  induction vs as [|v vs IH]; intros a off k Hk; simpl; [reflexivity|].
  simpl in Hk. rewrite IH by lia. apply aget_aset_ne. lia.
Qed.

Lemma storeSeq_inside (vs : list Z) :
  forall a off j,
    0 <= off -> off + Z.of_nat (length vs) <= alen a ->
    (j < length vs)%nat ->
    aget (storeSeq a off vs) (off + Z.of_nat j) = vs !! j.
Proof.
  induction vs as [|v vs IH]; intros a off j Hoff Hlen Hj; simpl in *; [lia|].
  destruct j as [|j].
  - rewrite Z.add_0_r. rewrite storeSeq_outside by lia.
    simpl. apply aget_aset_eq. lia.
  - replace (off + Z.of_nat (S j)) with ((off + 1) + Z.of_nat j) by lia.
    rewrite IH; [reflexivity|lia| |lia]. rewrite alen_aset. lia.
Qed.

Lemma alen_initRow (a : list Z) (off n : Z) : alen (initRow a off n) = alen a.
Proof. unfold initRow. now rewrite !alen_storeSeq. Qed.

Lemma length_seqZ' (m n : Z) : length (seqZ m n) = Z.to_nat n.
Proof. apply length_seqZ. Qed.

(** The row written by [newEntity]: the "exists" bit in word 0, zero in the
    other mask words, -1 in the offset words; cells outside the row are as
    before. *)
Lemma initRow_outside (a : list Z) (off n k : Z) :
  0 <= n -> k < off \/ off + 2 * n <= k ->
  aget (initRow a off n) k = aget a k.
Proof.
  intros Hn Hk. unfold initRow.
  rewrite storeSeq_outside by (rewrite length_replicate; lia).
  apply storeSeq_outside. rewrite length_map, length_seqZ. lia.
Qed.

Lemma initRow_mask (a : list Z) (off n j : Z) :
  0 <= off -> off + 2 * n <= alen a -> 0 <= j < n ->
  aget (initRow a off n) (off + j) = Some (if j =? 0 then 1 else 0).
Proof.
  intros Hoff Hlen Hj. unfold initRow.
  rewrite storeSeq_outside by (rewrite length_replicate; lia).
  replace (off + j) with (off + Z.of_nat (Z.to_nat j)) by lia.
  rewrite storeSeq_inside; try lia.
  - rewrite list_lookup_fmap, lookup_seqZ_lt by lia. simpl.
    now replace (0 + Z.of_nat (Z.to_nat j)) with j by lia.
  - rewrite length_map, length_seqZ. lia.
  - rewrite length_map, length_seqZ. lia.
Qed.

Lemma initRow_offset (a : list Z) (off n j : Z) :
  0 <= off -> off + 2 * n <= alen a -> 0 <= j < n ->
  aget (initRow a off n) (off + n + j) = Some (-1).
Proof.
  intros Hoff Hlen Hj. unfold initRow.
  replace (off + n + j) with ((off + Z.max 0 n) + Z.of_nat (Z.to_nat j)) by lia.
  rewrite storeSeq_inside; try lia.
  - apply lookup_replicate_2. lia.
  - rewrite alen_storeSeq, length_replicate. lia.
  - rewrite length_replicate. lia.
Qed.
Lemma lor_bound (a b n : Z) :
  0 <= n -> 0 <= a < 2 ^ n -> 0 <= b < 2 ^ n -> 0 <= Z.lor a b < 2 ^ n.
Proof.
  intros Hn Ha Hb. split; [apply (proj2 (Z.lor_nonneg a b)); lia|].
  destruct (Z.eq_dec n 0) as [->|Hn0].
  - rewrite Z.pow_0_r in *. assert (a = 0) by lia. assert (b = 0) by lia.
    subst. rewrite Z.lor_0_l. lia.
  - assert (Hlog : forall x, 0 <= x < 2 ^ n -> Z.log2 x < n).
    { intros x Hx. destruct (Z.eq_dec x 0) as [->|Hx0];
        [change (Z.log2 0) with 0; lia|].
      apply Z.log2_lt_pow2; lia. }
    destruct (Z.eq_dec (Z.lor a b) 0) as [->|Hne]; [lia|].
    assert (0 <= Z.lor a b) by (apply (proj2 (Z.lor_nonneg a b)); lia).
    assert (0 < Z.lor a b) by lia.
    apply Z.log2_lt_pow2; [assumption|].
    rewrite Z.log2_lor by lia.
    apply Z.max_lub_lt; apply Hlog; assumption.
Qed.

Lemma toNumber_small (z : Z) : 0 <= z < 2 ^ 53 -> toNumber z = Ok z.
Proof.
  intros H. unfold toNumber.
  destruct (Z.abs z <? 2 ^ 53) eqn:E; [reflexivity|lia].
Qed.

Lemma mask_bound (sys : EntitySystem) (nm : string) (c : ComponentEntry) :
  RegistryOk sys -> mapGet (components sys) nm = Some c ->
  0 <= mask c < 2 ^ 53.
Proof.
  intros R Hc. destruct (reg_comp sys R nm c Hc) as (_ & _ & k & Hk & -> & _).
  split; [apply Z.pow_nonneg; lia|].
  apply Z.pow_lt_mono_r; lia.
Qed.

Lemma tagBits_bound (sys : EntitySystem) (tags : list string) (a : Z) :
  RegistryOk sys -> 0 <= tagBits sys tags a < 2 ^ 53.
Proof.
  intros R. induction tags as [|nm rest IH]; simpl; [lia|].
  unfold tagBits in *. simpl.
  destruct (mapGet (components sys) nm) as [c|] eqn:Hc; [|exact IH].
  destruct (arrayIndex c =? a); [|exact IH].
  apply lor_bound; [lia| |exact IH]. eapply mask_bound; eauto.
Qed.

Lemma propBits_bound (sys : EntitySystem) (props : list (string * Z)) (a : Z) :
  RegistryOk sys -> 0 <= propBits sys props a < 2 ^ 53.
Proof.
  intros R. induction props as [|[p v] rest IH]; simpl; [lia|].
  unfold propBits in *. simpl.
  destruct (mapGet (componentsByProp sys) p) as [cfg|] eqn:Hc; [|exact IH].
  destruct (array cfg =? a); [|exact IH].
  apply lor_bound; [lia| |exact IH].
  destruct (reg_prop sys R p cfg Hc) as (_ & _ & _ & (c & Hcc & _ & _ & <-) & _).
  eapply mask_bound; eauto.
Qed.

(** [addComponent] of a tag component when no entry handler is
    registered: the bit goes into the mask word, and that is all. *)
Lemma addComponent_tag (sys : EntitySystem) (entity : Z) (nm : string)
    (c : ComponentEntry) (w : Z) :
  RegistryOk sys -> entryHandlers sys = [] ->
  mapGet (components sys) nm = Some c -> propNames c = [] ->
  maskWord sys entity (arrayIndex c) = Some w -> 0 <= w < 2 ^ 53 ->
  addComponent sys entity nm
  = Ok (set_e sys (aset (e sys) (entity * sizeOf (s sys) + arrayIndex c)
                        (Z.lor w (mask c)))).
Proof.
  unfold maskWord. intros R Hh Hc Hp Hw Hb.
  unfold addComponent. rewrite Hc, Hw. simpl.
  rewrite toNumber_small
    by (apply lor_bound; [lia|assumption|eapply mask_bound; eauto]).
  simpl. rewrite Hp, Hh. simpl. now rewrite add_calls_nil.
Qed.
Lemma RegistryOk_shape (a b : EntitySystem) :
  shapeOf a = shapeOf b -> RegistryOk b -> RegistryOk a.
Proof.
  intros Hs R. apply shapeOf_inv in Hs.
  destruct Hs as (Hc & Hp & Hm & Hst & Hts).
  unfold tstatic in Hst. injection Hst as Hsz _ _.
  destruct R as [R1 R2 R3 R4 R5 R6 R7 R8].
  constructor; rewrite ?Hc, ?Hp, ?Hm, ?Hsz; try assumption.
  intros p cfg Hg. destruct (R6 p cfg Hg) as (H1 & H2 & H3 & H4 & H5 & t & Ht & Hsize).
  repeat (split; [assumption|]).
  symmetry in Hts.
  destruct (tshape_tableAt _ _ _ _ Hts Ht) as (t0 & Ht0 & Hst0).
  exists t0. split; [assumption|].
  unfold tstatic in Hst0. injection Hst0 as Hs0 _ _. congruence.
Qed.

Lemma RegistryOk_set_e (sys : EntitySystem) (a : list Z) :
  RegistryOk sys -> RegistryOk (set_e sys a).
Proof. apply RegistryOk_shape. reflexivity. Qed.

Lemma addTags_import (sys : EntitySystem) (entity : Z) (tags : list string) :
  RegistryOk sys -> entryHandlers sys = [] ->
  (forall nm, In nm tags ->
     exists c, mapGet (components sys) nm = Some c /\ propNames c = []) ->
  forall e0,
    (forall a, 0 <= a < maskSize sys ->
       exists w, aget e0 (entity * sizeOf (s sys) + a) = Some w
                 /\ 0 <= w < 2 ^ 53) ->
    exists e',
      addTags (set_e sys e0) entity tags = Ok (set_e sys e')
      /\ alen e' = alen e0
      /\ (forall idx,
            idx < entity * sizeOf (s sys)
            \/ entity * sizeOf (s sys) + maskSize sys <= idx ->
            aget e' idx = aget e0 idx)
      /\ (forall a w,
            0 <= a < maskSize sys ->
            aget e0 (entity * sizeOf (s sys) + a) = Some w ->
            aget e' (entity * sizeOf (s sys) + a)
            = Some (Z.lor w (tagBits sys tags a))).
Proof.
  intros R Hh. induction tags as [|nm rest IH]; intros Htags e0 Hrow.
  - exists e0. simpl. repeat split; try reflexivity.
    intros a w _ Hw. unfold tagBits. simpl. now rewrite Z.lor_0_r.
  - destruct (Htags nm (or_introl eq_refl)) as (c & Hc & Hp).
    destruct (reg_comp sys R nm c Hc) as (_ & Ha & _).
    destruct (Hrow _ Ha) as (w & Hw & Hwb).
    simpl.
    rewrite (addComponent_tag (set_e sys e0) entity nm c w);
      try assumption; [|now apply RegistryOk_set_e].
    simpl.
    set (e1 := aset e0 (entity * sizeOf (s sys) + arrayIndex c)
                    (Z.lor w (mask c))).
    destruct (IH (fun n Hn => Htags n (or_intror Hn)) e1)
      as (e' & Hrun & Hlen & Hout & Hin).
    { intros a Ha'. unfold e1.
      destruct (Z.eq_dec a (arrayIndex c)) as [->|Hne].
      - exists (Z.lor w (mask c)). split.
        + apply aget_aset_eq. eapply aget_Some_range; eauto.
        + apply lor_bound; [lia|assumption|eapply mask_bound; eauto].
      - rewrite aget_aset_ne by lia. now apply Hrow. }
    exists e'. split; [exact Hrun|].
    split; [rewrite Hlen; apply alen_aset|].
    split.
    + intros idx Hidx. rewrite (Hout idx Hidx). unfold e1.
      apply aget_aset_ne. lia.
    + intros a w' Ha' Hw'. unfold tagBits. simpl. rewrite Hc.
      fold (tagBits sys rest a).
      destruct (Z.eq_dec a (arrayIndex c)) as [->|Hne].
      * rewrite Z.eqb_refl.
        assert (w' = w) by congruence. subst w'.
        rewrite (Hin (arrayIndex c) (Z.lor w (mask c)) Ha').
        -- now rewrite Z.lor_assoc.
        -- unfold e1. apply aget_aset_eq. eapply aget_Some_range; eauto.
      * destruct (arrayIndex c =? a) eqn:E; [lia|].
        apply Hin; [assumption|]. unfold e1.
        rewrite aget_aset_ne by lia. exact Hw'.
Qed.
(** A table of an import hands out its rows in sequence and grows in
    time. *)
Lemma insertRow_fresh (t : Table) :
  TableOk t ->
  exists t' g,
    insertRow t None = Ok (rowCounter (st t), t', g)
    /\ TableOk t'
    /\ tstatic (st t') = tstatic (st t)
    /\ rowCounter (st t') = rowCounter (st t) + 1
    /\ alen (arr t) <= alen (arr t')
    /\ (forall idx v, aget (arr t) idx = Some v -> aget (arr t') idx = Some v).
Proof.
  intros (Hrc & Hrow & Hsz & n & Hn & Hlen & Hle).
  unfold insertRow. rewrite Hrc. simpl.
  destruct (alen (arr t) <=? rowCounter (st t) * sizeOf (st t)) eqn:Hg.
  - eexists. eexists. split; [reflexivity|]. simpl.
    assert (rowCounter (st t) = n) by nia.
    split.
    { repeat split; simpl; try assumption; try lia.
      exists (2 * n). rewrite grow_length. repeat split; nia. }
    split; [reflexivity|]. split; [reflexivity|].
    split; [rewrite grow_length; lia|]. intros idx v. apply grow_keeps.
  - eexists. eexists. split; [reflexivity|]. simpl.
    split.
    { repeat split; simpl; try assumption; try lia.
      exists n. repeat split; try assumption. nia. }
    split; [reflexivity|]. split; [reflexivity|].
    split; [lia|]. auto.
Qed.

Lemma rowsGet_cons (k r : Z) (rows : list (Z * Z)) (k' : Z) :
  rowsGet ((k, r) :: rows) k' = if k =? k' then Some r else rowsGet rows k'.
Proof. unfold rowsGet. simpl. now destruct (k =? k'). Qed.

Lemma orMask_Some (masks : list Z) (a m cm : Z) :
  aget masks a = Some m -> orMask masks a cm = Ok (aset masks a (Z.lor m cm)).
Proof. intros H. unfold orMask. now rewrite H. Qed.
Lemma setTable_setTable (ts : list (option Table)) (i : Z) (t1 t2 : Table) :
  setTable (setTable ts i t1) i t2 = setTable ts i t2.
Proof.
  unfold setTable. destruct ((0 <=? i) && (i <? 10)); [|reflexivity].
  apply list_insert_insert_eq.
Qed.

Lemma addProp_import (sys : EntitySystem) (entity : Z) (masks : list Z)
    (rows : list (Z * Z)) (p : string) (z : Z) (cfg : PropConfig)
    (t : Table) (o m : Z) :
  RegistryOk sys ->
  mapGet (componentsByProp sys) p = Some cfg ->
  tableAt (tables sys) (array cfg) = Some t ->
  TableOk t ->
  offsetWord sys entity (array cfg) = Some o ->
  match rowsGet rows (array cfg) with
  | Some r => o = r * psizeOf cfg /\ 0 <= r < rowCounter (st t)
  | None => o = -1
  end ->
  aget masks (array cfg) = Some m ->
  exists r t',
    addProp sys entity masks rows p (TNum z)
    = Ok (set_tables
            (set_e sys
               (aset (e sys)
                     (entity * sizeOf (s sys) + maskSize sys + array cfg)
                     (r * psizeOf cfg)))
            (setTable (tables sys) (array cfg) t'),
          aset masks (array cfg) (Z.lor m (componentMask cfg)),
          match rowsGet rows (array cfg) with
          | Some _ => rows
          | None => (array cfg, r) :: rows
          end)
    /\ match rowsGet rows (array cfg) with
       | Some r0 => r = r0 /\ rowCounter (st t') = rowCounter (st t)
       | None => r = rowCounter (st t)
                 /\ rowCounter (st t') = rowCounter (st t) + 1
       end
    /\ TableOk t'
    /\ tstatic (st t') = tstatic (st t)
    /\ 0 <= r < rowCounter (st t')
    /\ aget (arr t') (r * psizeOf cfg + offset cfg) = Some z
    /\ (forall idx v,
          idx <> r * psizeOf cfg + offset cfg ->
          idx <> r * psizeOf cfg \/ rowsGet rows (array cfg) <> None ->
          aget (arr t) idx = Some v -> aget (arr t') idx = Some v).
Proof.
  unfold offsetWord. intros R Hp Ht Hok Ho Hlink Hm.
  destruct (reg_prop sys R p cfg Hp)
    as (_ & _ & _ & _ & Hoff & t0 & Ht0 & Hsz).
  assert (t0 = t) by congruence. subst t0.
  unfold addProp, getPropConfig. rewrite Hp. simpl.
  destruct (rowsGet rows (array cfg)) as [r|] eqn:Hrows.
  - destruct Hlink as [-> Hr]. simpl. rewrite Ht.
    rewrite (orMask_Some _ _ m _ Hm). simpl.
    exists r. eexists. split; [reflexivity|]. simpl.
    destruct Hok as (Hrc & Hrow & Hs1 & n & Hn & Hlen & Hle).
    split; [split; reflexivity|].
    split.
    { repeat split; simpl; try assumption.
      exists n. rewrite alen_aset. repeat split; assumption. }
    split; [reflexivity|]. split; [lia|].
    split.
    + apply aget_aset_eq. rewrite Hlen, <- Hsz. nia.
    + intros idx v Hne _ Hv. now rewrite aget_aset_ne by congruence.
  - subst o. rewrite Ho. simpl. rewrite Ht.
    destruct (insertRow_fresh t Hok)
      as (t1 & g & Hins & Hok1 & Hst1 & Hrc1 & Hlen1 & Hkeep1).
    rewrite Hins. simpl.
    rewrite (tableAt_setTable_eq _ _ t) by assumption.
    rewrite (orMask_Some _ _ m _ Hm). simpl.
    exists (rowCounter (st t)). eexists. split.
    { unfold set_tables, set_e. simpl. now rewrite setTable_setTable. }
    simpl.
    destruct Hok1 as (Hrc' & Hrow' & Hs1' & n & Hn & Hlen & Hle).
    assert (Hsz1 : sizeOf (st t1) = psizeOf cfg).
    { unfold tstatic in Hst1. injection Hst1 as -> _ _. exact Hsz. }
    destruct Hok as (_ & Hrow & _).
    split; [split; [reflexivity|exact Hrc1]|].
    split.
    { repeat split; simpl; try assumption.
      exists n. rewrite !alen_aset. repeat split; assumption. }
    split; [exact Hst1|]. split; [lia|].
    split.
    + apply aget_aset_eq. rewrite alen_aset, Hlen, <- Hsz1. nia.
    + intros idx v Hne [Hne2|Hne2] Hv; [|congruence].
      rewrite aget_aset_ne by congruence.
      rewrite aget_aset_ne by congruence. now apply Hkeep1.
Qed.
Lemma propBits_app (sys : EntitySystem) (l1 l2 : list (string * Z)) (a : Z) :
  propBits sys (l1 ++ l2) a = Z.lor (propBits sys l1 a) (propBits sys l2 a).
Proof.
  unfold propBits. induction l1 as [|[p v] l1 IH]; simpl.
  - now rewrite Z.lor_0_l.
  - destruct (mapGet (componentsByProp sys) p) as [cfg|]; [|exact IH].
    destruct (array cfg =? a); [|exact IH].
    now rewrite IH, Z.lor_assoc.
Qed.

Lemma prop_table_index (sys : EntitySystem) (p : string) (cfg : PropConfig) :
  RegistryOk sys -> mapGet (componentsByProp sys) p = Some cfg ->
  0 <= array cfg < maskSize sys.
Proof.
  intros R Hp.
  destruct (reg_prop sys R p cfg Hp) as (_ & _ & _ & (c & Hc & _ & <- & _) & _).
  now destruct (reg_comp sys R _ c Hc) as (_ & Ha & _).
Qed.

Lemma PropsInv_step (entity : Z) (sys0 : EntitySystem) (masks0 : list Z)
    (sys : EntitySystem) (masks : list Z) (rows : list (Z * Z))
    (done : list (string * Z)) (p : string) (z : Z) (cfg : PropConfig) :
  RegistryOk sys0 ->
  (forall a t0, tableAt (tables sys0) a = Some t0 -> TableOk t0) ->
  (forall a t0, tableAt (tables sys0) a = Some t0 ->
                exists m, aget masks0 a = Some m) ->
  PropsInv entity sys0 masks0 sys masks rows done ->
  mapGet (componentsByProp sys0) p = Some cfg ->
  ~ In p (map fst done) ->
  exists sys' masks' rows',
    addProp sys entity masks rows p (TNum z) = Ok (sys', masks', rows')
    /\ PropsInv entity sys0 masks0 sys' masks' rows' (done ++ [(p, z)]).
Proof.
  intros R Hok0 Hm0 Inv Hp Hfresh.
  destruct Inv as [Hsame Hlen Hframe Hlink Hml Hmasks Hshape Htabs Hbelow Hvals].
  destruct Hsame as (e1 & tabs1 & ->).
  simpl in *.
  set (sys := set_tables (set_e sys0 e1) tabs1) in *.
  assert (Rsys : RegistryOk sys).
  { apply (RegistryOk_shape _ sys0); [|assumption].
    apply shapeOf_eq; try reflexivity. exact Hshape. }
  pose proof (prop_table_index sys0 p cfg R Hp) as Ha.
  destruct (reg_prop sys Rsys p cfg Hp)
    as (_ & _ & _ & _ & Hoff & t & Ht & Hsz).
  simpl in Ht.
  destruct (reg_prop sys0 R p cfg Hp)
    as (_ & _ & _ & _ & _ & t0 & Ht0 & Hsz0).
  destruct (Hlink _ Ha) as (o & Ho & Hcase).
  destruct (Hm0 _ _ Ht0) as (m0 & Hm0a).
  pose proof (Hmasks _ _ Hm0a) as Hma.
  assert (Hpre : match rowsGet rows (array cfg) with
                 | Some r => o = r * psizeOf cfg /\ 0 <= r < rowCounter (st t)
                 | None => o = -1
                 end).
  { destruct (rowsGet rows (array cfg)) as [r|].
    - destruct Hcase as (t0' & t' & Ht0' & Ht' & -> & Hr).
      assert (t' = t) by congruence. subst t'.
      assert (t0' = t0) by congruence. subst t0'.
      destruct (Hok0 _ _ Ht0) as (_ & Hrc0 & _).
      split; [congruence|lia].
    - now destruct Hcase. }
  destruct (addProp_import sys entity masks rows p z cfg t o _
              Rsys Hp Ht (Htabs _ _ Ht) Ho Hpre Hma)
    as (r & t' & Hrun & Hrc & Hok' & Hst' & Hr & Hval & Hkeep).
  eexists. eexists. eexists. split; [exact Hrun|].
  assert (Hsz' : sizeOf (st t') = psizeOf cfg).
  { unfold tstatic in Hst'. injection Hst' as -> _ _. exact Hsz. }
  set (io := entity * sizeOf (s sys0) + maskSize sys0 + array cfg) in *.
  assert (Hio : 0 <= io < alen e1).
  { unfold offsetWord in Ho. simpl in Ho. eapply aget_Some_range; eauto. }
  constructor; simpl.
  - eexists. eexists. reflexivity.
  - now rewrite alen_aset.
  - intros idx Hidx. rewrite aget_aset_ne by (apply not_eq_sym, Hidx, Ha).
    now apply Hframe.
  - intros a Ha'. unfold offsetWord. simpl.
    destruct (Z.eq_dec a (array cfg)) as [->|Hne].
    + exists (r * psizeOf cfg). split; [now apply aget_aset_eq|].
      assert (Hrows : rowsGet
                (match rowsGet rows (array cfg) with
                 | Some _ => rows
                 | None => (array cfg, r) :: rows
                 end) (array cfg) = Some r).
      { destruct (rowsGet rows (array cfg)) as [r0|] eqn:E.
        - destruct Hrc as [-> _]. exact E.
        - rewrite rowsGet_cons, Z.eqb_refl. reflexivity. }
      rewrite Hrows. exists t0, t'.
      split; [assumption|].
      split; [now apply (tableAt_setTable_eq _ _ t)|].
      split; [congruence|].
      destruct (rowsGet rows (array cfg)) as [r0|] eqn:E.
      * destruct Hrc as [-> Hrc]. destruct Hcase as (t0' & t1 & Ht0' & Ht1 & _ & Hr0).
        assert (t0' = t0) by congruence. subst t0'. lia.
      * destruct Hrc as [-> Hrc]. destruct Hcase as [_ Hsame].
        assert (t = t0) by congruence.
        subst t. lia.
    + destruct (Hlink a Ha') as (o' & Ho' & Hcase').
      exists o'. split.
      { rewrite aget_aset_ne by (unfold io; lia). exact Ho'. }
      assert (Hrows : rowsGet
                (match rowsGet rows (array cfg) with
                 | Some _ => rows
                 | None => (array cfg, r) :: rows
                 end) a = rowsGet rows a).
      { destruct (rowsGet rows (array cfg)); [reflexivity|].
        rewrite rowsGet_cons. destruct (array cfg =? a) eqn:E; [lia|reflexivity]. }
      rewrite Hrows, tableAt_setTable_ne by congruence. exact Hcase'.
  - unfold aset. destruct (array cfg <? 0); [assumption|].
    now rewrite length_insert.
  - intros a m0' Hm0'. rewrite propBits_app.
    destruct (Z.eq_dec a (array cfg)) as [->|Hne].
    + assert (m0' = m0) by congruence. subst m0'.
      rewrite aget_aset_eq by (eapply aget_Some_range; eauto).
      unfold propBits at 2. simpl. rewrite Hp, Z.eqb_refl, Z.lor_0_r.
      now rewrite Z.lor_assoc.
    + rewrite aget_aset_ne by congruence.
      unfold propBits at 2. simpl. rewrite Hp.
      destruct (array cfg =? a) eqn:E; [lia|].
      rewrite Z.lor_0_r. now apply Hmasks.
  - rewrite (tshape_setTable _ _ t) by assumption. exact Hshape.
  - intros a t2 Ht2. apply tableAt_setTable_inv in Ht2.
    destruct Ht2 as [[-> ->]|Ht2]; [assumption|]. now apply (Htabs a).
  - intros a t0' t2 Ht0' Ht2. apply tableAt_setTable_inv in Ht2.
    destruct Ht2 as [[-> ->]|Ht2]; [|now apply (Hbelow a)].
    assert (t0' = t0) by congruence. subst t0'.
    destruct (Hbelow _ _ _ Ht0 Ht) as [Hle Hk].
    assert (Hbase : rowCounter (st t0) <= r).
    { destruct (rowsGet rows (array cfg)) as [r0|] eqn:E.
      - destruct Hrc as [-> _]. destruct Hcase as (t0'' & t1 & Ht0'' & _ & _ & Hr0).
        assert (t0'' = t0) by congruence. subst t0''. lia.
      - destruct Hrc as [-> _]. lia. }
    assert (Hs0 : sizeOf (st t0) = psizeOf cfg) by assumption.
    split.
    { destruct (rowsGet rows (array cfg)); destruct Hrc as [_ ->]; lia. }
    intros idx v Hidx Hv. apply Hkeep.
    + rewrite Hs0 in Hidx. nia.
    + left. rewrite Hs0 in Hidx. nia.
    + now apply Hk.
  - intros p' z' Hin. apply in_app_or in Hin.
    destruct Hin as [Hin|[[= <- <-]|[]]].
    + destruct (Hvals _ _ Hin) as (cfg' & t2 & r' & Hp' & Hr' & Ht2 & Hv').
      exists cfg'.
      destruct (Z.eq_dec (array cfg') (array cfg)) as [Heq|Hne].
      * rewrite Heq in *. rewrite Hr' in *.
        destruct Hrc as [-> Hrc].
        assert (t2 = t) by congruence. subst t2.
        exists t', r'. split; [assumption|]. split; [assumption|].
        split; [now apply (tableAt_setTable_eq _ _ t)|].
        destruct (reg_prop sys0 R p' cfg' Hp')
          as (_ & _ & _ & _ & _ & t3 & Ht3 & Hsz3).
        rewrite Heq in Ht3. assert (t3 = t0) by congruence. subst t3.
        assert (Hps : psizeOf cfg' = psizeOf cfg) by congruence.
        apply Hkeep; [|right; discriminate|exact Hv'].
        rewrite Hps. intros E.
        assert (Ho' : offset cfg' = offset cfg) by lia.
        apply Hfresh. apply in_map_iff. exists (p', z').
        split; [|assumption]. simpl.
        symmetry. now apply (reg_offset_inj sys0 R p p' cfg cfg').
      * exists t2, r'. split; [assumption|].
        split.
        { destruct (rowsGet rows (array cfg)); [assumption|].
          rewrite rowsGet_cons. destruct (array cfg =? array cfg') eqn:E; [lia|assumption]. }
        split; [now rewrite tableAt_setTable_ne by congruence|assumption].
    + exists cfg, t', r. split; [assumption|].
      split.
      { destruct (rowsGet rows (array cfg)) as [r0|] eqn:E.
        - destruct Hrc as [-> _]. exact E.
        - rewrite rowsGet_cons, Z.eqb_refl. reflexivity. }
      split; [now apply (tableAt_setTable_eq _ _ t)|assumption].
Qed.
Lemma addKeys_props (entity : Z) (sys0 : EntitySystem) (masks0 : list Z) :
  RegistryOk sys0 ->
  (forall a t0, tableAt (tables sys0) a = Some t0 -> TableOk t0) ->
  (forall a t0, tableAt (tables sys0) a = Some t0 ->
                exists m, aget masks0 a = Some m) ->
  forall rest done sys masks rows,
    PropsInv entity sys0 masks0 sys masks rows done ->
    NoDup (map fst (done ++ rest)) ->
    (forall p z, In (p, z) rest ->
                 exists cfg, mapGet (componentsByProp sys0) p = Some cfg) ->
    exists sys' masks' rows',
      addKeys sys entity masks rows
              (map (fun pv => (fst pv, TNum (snd pv))) rest)
      = Ok (sys', masks')
      /\ PropsInv entity sys0 masks0 sys' masks' rows' (done ++ rest).
Proof.
  intros R Hok0 Hm0.
  induction rest as [|[p z] rest IH]; intros done sys masks rows Inv Hnd Hreg.
  - exists sys, masks, rows. simpl. rewrite app_nil_r. now split.
  - destruct (Hreg p z (or_introl eq_refl)) as (cfg & Hp).
    destruct (reg_prop sys0 R p cfg Hp) as (_ & Hn1 & Hn2 & _).
    simpl.
    destruct (String.eqb p "_") eqn:E1;
      [apply String.eqb_eq in E1; contradiction|].
    destruct (String.eqb p "_id") eqn:E2;
      [apply String.eqb_eq in E2; contradiction|].
    assert (Hfresh : ~ In p (map fst done)).
    { rewrite map_app in Hnd. simpl in Hnd.
      apply NoDup_app in Hnd. destruct Hnd as (_ & Hdis & _).
      intros Hin. apply (Hdis p); [now apply list_elem_of_In|].
      apply list_elem_of_In. now left. }
    destruct (PropsInv_step entity sys0 masks0 sys masks rows done p z cfg
                R Hok0 Hm0 Inv Hp Hfresh)
      as (sys1 & masks1 & rows1 & Hrun & Inv1).
    rewrite Hrun. simpl.
    destruct (IH (done ++ [(p, z)])%list sys1 masks1 rows1 Inv1)
      as (sys' & masks' & rows' & Hrun' & Inv').
    + now rewrite <- app_assoc.
    + intros p' z' Hin. apply (Hreg p' z'). now right.
    + exists sys', masks', rows'. split; [exact Hrun'|].
      now rewrite <- app_assoc in Inv'.
Qed.
Lemma readMasks_map (a : list Z) (entityRow : Z) (f : Z -> Z) (idxs : list Z) :
  (forall j, In j idxs -> aget a (entityRow + j) = Some (f j)) ->
  readMasks a entityRow idxs = Ok (map f idxs).
Proof.
  induction idxs as [|j rest IH]; intros H; simpl; [reflexivity|].
  rewrite (H j (or_introl eq_refl)). simpl.
  rewrite IH by (intros k Hk; apply H; now right). reflexivity.
Qed.

Lemma writeMasks_import (sys : EntitySystem) (entity : Z) (masks : list Z) :
  entryHandlers sys = [] ->
  forall j e0,
    (forall k m, masks !! k = Some m ->
       exists w, aget e0 (entity * sizeOf (s sys) + j + Z.of_nat k) = Some w
                 /\ 0 <= Z.lor w m < 2 ^ 53) ->
    exists e',
      writeMasks (set_e sys e0) entity j masks = Ok (set_e sys e')
      /\ alen e' = alen e0
      /\ (forall idx,
            idx < entity * sizeOf (s sys) + j
            \/ entity * sizeOf (s sys) + j + Z.of_nat (length masks) <= idx ->
            aget e' idx = aget e0 idx)
      /\ (forall k m w,
            masks !! k = Some m ->
            aget e0 (entity * sizeOf (s sys) + j + Z.of_nat k) = Some w ->
            aget e' (entity * sizeOf (s sys) + j + Z.of_nat k)
            = Some (Z.lor w m)).
Proof.
  intros Hh. induction masks as [|m rest IH]; intros j e0 Hrow.
  - exists e0. simpl. repeat split; try reflexivity.
    intros k m w Hk. discriminate.
  - destruct (Hrow 0%nat m eq_refl) as (w & Hw & Hb).
    rewrite Z.add_0_r in Hw.
    simpl. rewrite Hw. simpl. rewrite (toNumber_small _ Hb). simpl.
    rewrite Hh. simpl.
    set (e1 := aset e0 (entity * sizeOf (s sys) + j) (Z.lor w m)).
    change (add_calls (set_e (set_e sys e0) e1) []) with
      (add_calls (set_e sys e1) []).
    rewrite add_calls_nil.
    destruct (IH (j + 1) e1) as (e' & Hrun & Hlen & Hout & Hin).
    { intros k m' Hk. destruct (Hrow (S k) m' Hk) as (w' & Hw' & Hb').
      exists w'. split; [|assumption]. unfold e1.
      rewrite aget_aset_ne by lia.
      now replace (entity * sizeOf (s sys) + (j + 1) + Z.of_nat k)
        with (entity * sizeOf (s sys) + j + Z.of_nat (S k)) by lia. }
    exists e'. split; [exact Hrun|].
    split; [rewrite Hlen; apply alen_aset|].
    split.
    + intros idx Hidx. simpl in Hidx. rewrite Hout by lia.
      unfold e1. apply aget_aset_ne. lia.
    + intros k m' w' Hk Hw'. destruct k as [|k].
      * simpl in Hk. injection Hk as <-. rewrite Z.add_0_r in *.
        assert (w' = w) by congruence. subst w'.
        rewrite Hout by lia. unfold e1. apply aget_aset_eq.
        eapply aget_Some_range; eauto.
      * simpl in Hk.
        replace (entity * sizeOf (s sys) + j + Z.of_nat (S k))
          with (entity * sizeOf (s sys) + (j + 1) + Z.of_nat k) in * by lia.
        apply Hin; [assumption|]. unfold e1.
        rewrite aget_aset_ne by lia. exact Hw'.
Qed.

Lemma toInt32_odd (z : Z) : Z.odd (toInt32 z) = Z.odd z.
Proof.
  unfold toInt32.
  rewrite Z.odd_sub.
  change (Z.odd (2 ^ 31)) with false. rewrite xorb_false_r.
  rewrite <- !Z.bit0_odd.
  rewrite Z.mod_pow2_bits_low by lia.
  rewrite !Z.bit0_odd, Z.odd_add.
  change (Z.odd (2 ^ 31)) with false. now rewrite xorb_false_r.
Qed.

Lemma and1_odd (z : Z) : and1 (Some z) = if Z.odd z then 1 else 0.
Proof.
  unfold and1.
  change 1 with (Z.ones 1) at 1. rewrite Z.land_ones by lia.
  rewrite <- (toInt32_odd z).
  change (2 ^ 1) with 2. rewrite Zmod_odd. reflexivity.
Qed.

Lemma exists_odd (sys : EntitySystem) (entity w : Z) :
  maskWord sys entity 0 = Some w -> exists_ sys entity = Z.odd w.
Proof.
  unfold maskWord, exists_. rewrite Z.add_0_r. intros ->.
  rewrite and1_odd. now destruct (Z.odd w).
Qed.


(** ** Prop names of an accepted configuration *)

Lemma mapGet_None_keys {V : Type} (m : list (string * V)) (k : string) :
  mapGet m k = None <-> ~ In k (map fst m).
Proof.
  induction m as [|[k0 v0] m IH]; simpl.
  - split; [intros _ []|reflexivity].
  - rewrite mapGet_cons. destruct (String.eqb k0 k) eqn:E.
    + apply String.eqb_eq in E. subst. split; [discriminate|].
      intros H. exfalso. apply H. now left.
    + apply String.eqb_neq in E. rewrite IH. split.
      * intros H [H1|H1]; [contradiction|now apply H].
      * intros H H1. apply H. now right.
Qed.

Lemma mapSet_absent {V : Type} (m : list (string * V)) (k : string) (v : V) :
  mapGet m k = None -> mapSet m k v = (m ++ [(k, v)])%list.
Proof.
  induction m as [|[k0 v0] m IH]; simpl; [reflexivity|].
  rewrite mapGet_cons. destruct (String.eqb k0 k); [discriminate|].
  intros H. now rewrite IH.
Qed.

Lemma loadProps_keys (comp : string) (names : list string) :
  forall byProp byProp',
    loadProps comp names byProp = Ok byProp' ->
    map fst byProp' = (map fst byProp ++ names)%list
    /\ (forall n, In n names -> n <> EmptyString /\ n <> "_" /\ n <> "_id")
    /\ (NoDup (map fst byProp) -> NoDup (map fst byProp')).
Proof.
  induction names as [|n rest IH]; intros byProp byProp' H; simpl in H.
  - injection H as <-. rewrite app_nil_r. repeat split; auto; intros n [].
  - destruct (String.length n =? 0)%nat eqn:El; [discriminate|].
    destruct (String.eqb n "_") eqn:E1; [discriminate|].
    destruct (String.eqb n "_id") eqn:E2; [discriminate|]. simpl in H.
    destruct (mapGet byProp n) eqn:Eg; [discriminate|].
    apply IH in H. destruct H as (Hk & Hv & Hnd).
    rewrite (mapSet_absent _ _ _ Eg) in *.
    rewrite map_app in *. simpl in *.
    split; [now rewrite Hk, <- app_assoc|].
    split.
    + intros n' [<-|Hin]; [|now apply Hv].
      apply String.eqb_neq in E1. apply String.eqb_neq in E2.
      repeat split; try assumption.
      intros ->. discriminate.
    + intros Hnd0. apply Hnd. apply NoDup_app. split; [assumption|].
      split.
      * intros x Hx Hx'. apply list_elem_of_In in Hx, Hx'.
        destruct Hx' as [<-|[]].
        now apply (proj1 (mapGet_None_keys _ _) Eg).
      * apply NoDup_singleton.
Qed.

Lemma loadComponents_keys (cs : list (string * list string)) :
  forall comps byProp comps' byProp',
    loadComponents cs comps byProp = Ok (comps', byProp') ->
    map fst byProp' = (map fst byProp ++ concat (map snd cs))%list
    /\ (forall n, In n (concat (map snd cs)) ->
                  n <> EmptyString /\ n <> "_" /\ n <> "_id")
    /\ (NoDup (map fst byProp) -> NoDup (map fst byProp')).
Proof.
  induction cs as [|[c names] rest IH]; intros comps byProp comps' byProp' H;
    simpl in H.
  - injection H as <- <-. rewrite app_nil_r. repeat split; auto; intros n [].
  - run_inv. apply loadProps_keys in E. destruct E as (Hk1 & Hv1 & Hn1).
    apply IH in H. destruct H as (Hk2 & Hv2 & Hn2). simpl.
    split; [now rewrite Hk2, Hk1, <- app_assoc|].
    split.
    + intros n Hin. apply in_app_or in Hin. destruct Hin; auto.
    + auto.
Qed.

(** X1.  A configuration that the constructor accepts has only prop
    names that are not empty and not the reserved [_] and [_id], and no prop
    name occurs twice, be it in one component or in two. *)
Theorem accepted_config_has_valid_props (cfg : EntitySystemConfig)
    (sys : EntitySystem) :
  newEntitySystem cfg = Ok sys ->
  NoDup (concat (map snd (Components cfg)))
  /\ forall p, In p (concat (map snd (Components cfg))) ->
               p <> EmptyString /\ p <> "_" /\ p <> "_id".
Proof.
  unfold newEntitySystem, loadConfig. intros H.
  destruct (loadComponents (Components cfg) [] []) as [[comps byProp]| |] eqn:E0;
    try discriminate H. clear H.
  apply loadComponents_keys in E0. destruct E0 as (Hk & Hv & Hnd).
  split; [|exact Hv].
  simpl in Hk. rewrite <- Hk. apply Hnd. constructor.
Qed.

Lemma accepted_config_has_valid_props_witness :
  exists sys,
    newEntitySystem demoConfig = Ok sys
    /\ NoDup (concat (map snd (Components demoConfig))).
Proof.
  eexists. split; [vm_compute; reflexivity|].
  refine (proj1 (accepted_config_has_valid_props demoConfig _ _)).
  vm_compute. reflexivity.
Defined.

(** ** The row allocator *)

Lemma scanFree_spec (isE : bool) (sz : Z) (a : list Z) (n : nat) :
  forall i r,
    scanFree isE sz a i n = Some r ->
    i <= r < i + Z.of_nat n
    /\ emptySlot isE a (r * sz) = true
    /\ forall j, i <= j < r -> emptySlot isE a (j * sz) = false.
Proof.
  induction n as [|n IH]; intros i r H; simpl in H; [discriminate|].
  destruct (emptySlot isE a (i * sz)) eqn:E.
  - injection H as <-. repeat split; try lia. exact E.
  - apply IH in H. destruct H as (Hr & He & Hj).
    repeat split; try lia; [exact He|].
    intros j Hj'. destruct (Z.eq_dec j i) as [->|Hne]; [exact E|].
    apply Hj. lia.
Qed.

Lemma scanFree_none (isE : bool) (sz : Z) (a : list Z) (n : nat) :
  forall i,
    scanFree isE sz a i n = None ->
    forall j, i <= j < i + Z.of_nat n -> emptySlot isE a (j * sz) = false.
Proof.
  induction n as [|n IH]; intros i H j Hj; simpl in H; [lia|].
  destruct (emptySlot isE a (i * sz)) eqn:E; [discriminate|].
  destruct (Z.eq_dec j i) as [->|Hne]; [exact E|].
  apply (IH (i + 1) H). lia.
Qed.

(** X2.  [insertRow] never changes a cell and never shrinks the array: the
    table grows exactly when the row handed out starts at or past the end
    of the array, the array is then twice as long, the old cells keep their
    values and the new ones are zero. *)
Theorem insertRow_keeps_every_cell (t : Table) (at_ : option Z) (id : Z)
    (t' : Table) (grew : bool) :
  insertRow t at_ = Ok (id, t', grew) ->
  (grew = true <-> alen (arr t) <= id * sizeOf (st t))
  /\ alen (arr t') = (if grew then 2 * alen (arr t) else alen (arr t))
  /\ (forall i v, aget (arr t) i = Some v -> aget (arr t') i = Some v)
  /\ (forall i, alen (arr t) <= i < alen (arr t') -> aget (arr t') i = Some 0).
Proof.
  unfold insertRow. intros H.
  apply bind_Ok in H. destruct H as ([id0 ts'] & _ & H).
  destruct (alen (arr t) <=? id0 * sizeOf (st t)) eqn:El;
    injection H as <- <- <-; simpl.
  - apply Z.leb_le in El. split; [tauto|].
    split; [apply grow_length|]. split; [apply grow_keeps|].
    intros i Hi. rewrite grow_length in Hi. unfold grow, aget, alen in *.
    destruct (i <? 0) eqn:Ei; [lia|].
    rewrite lookup_app_r by lia.
    apply lookup_replicate_2. lia.
  - apply Z.leb_gt in El. split; [split; [discriminate|lia]|].
    split; [reflexivity|]. split; [auto|]. intros i Hi. lia.
Qed.

Lemma insertRow_keeps_every_cell_witness :
  exists t',
    insertRow (mkTable (replicate 8 0) (newTableState 2 0)) (Some 10)
    = Ok (10, t', true)
    /\ alen (arr t') = 2 * 8.
Proof.
  eexists. split; [vm_compute; reflexivity|].
  refine (proj1 (proj2 (insertRow_keeps_every_cell
                          (mkTable (replicate 8 0) (newTableState 2 0))
                          (Some 10) 10 _ true _))).
  vm_compute. reflexivity.
Defined.

(** X3.  Without an explicit id, [insertRow] either takes the row at the
    high-water mark (when no row is recorded as removed) or recycles the
    lowest empty row at or after [skipOnRemove]; a row it recycles lies
    below the high-water mark, and the rows it passed over are in use. *)
Theorem insertRow_hands_out_an_empty_row (t : Table) (id : Z) (t' : Table)
    (grew : bool) :
  insertRow t None = Ok (id, t', grew) ->
  (removeCounter (st t) <= 0
   /\ id = rowCounter (st t)
   /\ rowCounter (st t') = rowCounter (st t) + 1
   /\ removeCounter (st t') = removeCounter (st t))
  \/ (0 < removeCounter (st t)
      /\ exists k,
           skipOnRemove (st t) = Some k
           /\ k <= id < rowCounter (st t)
           /\ emptySlot (isEntityTable (st t)) (arr t) (id * sizeOf (st t))
              = true
           /\ (forall j, k <= j < id ->
                 emptySlot (isEntityTable (st t)) (arr t) (j * sizeOf (st t))
                 = false)
           /\ rowCounter (st t') = rowCounter (st t)
           /\ removeCounter (st t') = removeCounter (st t) - 1).
Proof.
  unfold insertRow. intros H.
  apply bind_Ok in H. destruct H as ([id0 ts'] & E & H).
  assert (id0 = id /\ st t' = ts') as [-> <-].
  { destruct (alen (arr t) <=? id0 * sizeOf (st t));
      injection H as <- <- <-; auto. }
  clear H. destruct (0 <? removeCounter (st t)) eqn:Er.
  - apply Z.ltb_lt in Er. right. split; [assumption|].
    destruct (skipOnRemove (st t)) as [k|] eqn:Ek; [|discriminate].
    destruct (scanFree _ _ _ _ _) as [i|] eqn:Es; [|discriminate].
    injection E as -> E. apply scanFree_spec in Es.
    destruct Es as (Hr & He & Hj). exists k. split; [reflexivity|].
    split; [lia|]. split; [exact He|]. split; [exact Hj|].
    rewrite <- E.
    destruct (removeCounter (st t) - 1 =? 0); simpl; auto.
  - apply Z.ltb_ge in Er. left. injection E as <- <-. simpl. auto.
Qed.

Lemma insertRow_hands_out_an_empty_row_witness :
  exists t',
    insertRow (mkTable (replicate 8 0) (newTableState 2 0)) None
    = Ok (0, t', false)
    /\ rowCounter (st t') = 1.
Proof.
  eexists. split; [vm_compute; reflexivity|].
  match goal with
  | |- rowCounter (st ?t') = _ =>
      destruct (insertRow_hands_out_an_empty_row
                  (mkTable (replicate 8 0) (newTableState 2 0)) 0 t' false)
        as [(_ & _ & H & _)|(H & _)]
  end.
  - vm_compute. reflexivity.
  - exact H.
  - vm_compute in H. discriminate H.
Defined.

Lemma and1_cleared (x : Z) : and1 (Some (Z.land x (Z.lnot 1))) = 0.
Proof.
  rewrite and1_odd, <- Z.bit0_odd, Z.land_spec.
  change (Z.testbit (Z.lnot 1) 0) with false. now rewrite andb_false_r.
Qed.

(** X4.  A row that is removed while no other row is recorded as removed
    is the row the next [insertRow] hands out, and the allocator is then
    back in the state it had before the removal. *)
Theorem removed_row_is_recycled (t : Table) (row : Z) :
  removeCounter (st t) = 0 ->
  skipOnRemove (st t) = None ->
  0 <= row < rowCounter (st t) ->
  0 <= row * sizeOf (st t) < alen (arr t) ->
  exists t',
    insertRow (removeRow t row) None = Ok (row, t', false)
    /\ st t' = st t
    /\ arr t' = arr (removeRow t row).
Proof.
  intros Hrc Hsk Hrow Hin. destruct t as [a [sz rc rm cm isE sk]].
  simpl in *. subst rm sk.
  unfold insertRow, removeRow. simpl.
  rewrite Z.min_id || idtac.
  destruct (Z.to_nat (rc - row)) as [|n] eqn:En; [lia|]. simpl.
  assert (He : emptySlot isE
                 (if isE
                  then aset a (row * sz)
                         (Z.land (toInt32 (default 0 (aget a (row * sz))))
                                 (Z.lnot 1))
                  else aset a (row * sz) (-1)) (row * sz) = true).
  { unfold emptySlot. destruct isE.
    - rewrite aget_aset_eq by assumption. rewrite and1_cleared. reflexivity.
    - rewrite aget_aset_eq by assumption. reflexivity. }
  rewrite He. simpl.
  destruct isE; rewrite alen_aset;
    (destruct (alen a <=? row * sz) eqn:El; [apply Z.leb_le in El; lia|]);
    eexists; (split; [reflexivity|]); split; reflexivity.
Qed.

Lemma removed_row_is_recycled_witness :
  exists t',
    insertRow
      (removeRow (mkTable (replicate 8 0)
                          (set_rowCounter (newTableState 2 0) 3)) 1) None
    = Ok (1, t', false)
    /\ st t' = set_rowCounter (newTableState 2 0) 3.
Proof.
  destruct (removed_row_is_recycled
              (mkTable (replicate 8 0) (set_rowCounter (newTableState 2 0) 3))
              1) as (t' & H & Hst & _).
  - reflexivity.
  - reflexivity.
  - simpl. lia.
  - vm_compute. split; [discriminate|reflexivity].
  - exists t'. split; [exact H|exact Hst].
Defined.

(** ** Creating entities *)

Lemma insertRow_arr (t : Table) (at_ : option Z) (id : Z) (t' : Table)
    (grew : bool) :
  insertRow t at_ = Ok (id, t', grew) ->
  grew = (alen (arr t) <=? id * sizeOf (st t))
  /\ arr t' = (if grew then grow (arr t) else arr t)
  /\ sizeOf (st t') = sizeOf (st t)
  /\ (forall a, at_ = Some a -> id = a).
Proof.
  intros H. pose proof (insertRow_static _ _ _ _ _ H) as Hs.
  unfold insertRow in H.
  apply bind_Ok in H. destruct H as ([id0 ts'] & E & H).
  assert (Hid : forall a, at_ = Some a -> id0 = a).
  { intros a ->. now injection E as <- _. }
  unfold tstatic in Hs.
  destruct (alen (arr t) <=? id0 * sizeOf (st t)) eqn:El;
    injection H as <- <- <-; simpl in *; repeat split; auto; congruence.
Qed.

(** X6.  When the row of the new entity lies inside the entity table,
    [newEntity] without a template leaves an entity that exists, with the
    "exists" bit as its only mask bit and -1 in every offset word; no other
    cell of the entity table, no data table and no handler is touched, and
    no callback runs. *)
Theorem newEntity_initialises_the_row (sys : EntitySystem) (id : option Z)
    (i : Z) (sys' : EntitySystem) :
  newEntity sys None id = Ok (i, sys') ->
  0 < maskSize sys ->
  0 <= i * sizeOf (s sys) ->
  i * sizeOf (s sys) + 2 * maskSize sys <= alen (e sys) ->
  exists_ sys' i = true
  /\ (forall j, 0 <= j < maskSize sys ->
        maskWord sys' i j = Some (if j =? 0 then 1 else 0))
  /\ (forall j, 0 <= j < maskSize sys -> offsetWord sys' i j = Some (-1))
  /\ (forall idx,
        idx < i * sizeOf (s sys) \/ i * sizeOf (s sys) + 2 * maskSize sys <= idx ->
        aget (e sys') idx = aget (e sys) idx)
  /\ tables sys' = tables sys
  /\ calls sys' = calls sys.
Proof.
  intros H Hm H0 Hin. unfold newEntity in H.
  apply bind_Ok in H. destruct H as ([] & _ & H).
  apply bind_Ok in H. destruct H as ([[i0 t] grew] & Ei & H).
  injection H as -> <-.
  apply insertRow_arr in Ei. destruct Ei as (Hg & Ha & Hsz & _).
  simpl in Hg, Ha, Hsz.
  assert (grew = false) as ->.
  { rewrite Hg. apply Z.leb_gt. lia. }
  rewrite Ha, Hsz. 
  assert (Hw : forall j, 0 <= j < maskSize sys ->
             aget (initRow (e sys) (i * sizeOf (s sys)) (maskSize sys))
                  (i * sizeOf (s sys) + j)
             = Some (if j =? 0 then 1 else 0)).
  { intros j Hj. apply initRow_mask; lia. }
  split.
  { unfold exists_. simpl. rewrite Hsz.
    specialize (Hw 0 ltac:(lia)). rewrite Z.add_0_r in Hw. rewrite Hw.
    reflexivity. }
  split.
  { intros j Hj. unfold maskWord. simpl. rewrite Hsz. now apply Hw. }
  split.
  { intros j Hj. unfold offsetWord. simpl. rewrite Hsz.
    apply initRow_offset; lia. }
  split.
  { intros idx Hidx. simpl. apply initRow_outside; lia. }
  split; reflexivity.
Qed.



(** X7.  When the row of the new entity starts at or past the end of the
    entity table, the table is replaced by its doubled copy and the two
    initialising loops of [newEntity] go to the array that was replaced:
    the call returns an id, and the entity of that id does not exist. *)
Theorem newEntity_on_a_full_table_returns_a_dead_id (sys : EntitySystem)
    (id : option Z) (i : Z) (sys' : EntitySystem) :
  newEntity sys None id = Ok (i, sys') ->
  alen (e sys) <= i * sizeOf (s sys) ->
  e sys' = grow (e sys) /\ exists_ sys' i = false.
Proof.
  intros H Hfull. unfold newEntity in H.
  apply bind_Ok in H. destruct H as ([] & _ & H).
  apply bind_Ok in H. destruct H as ([[i0 t] grew] & Ei & H).
  injection H as -> <-.
  apply insertRow_arr in Ei. destruct Ei as (Hg & Ha & Hsz & _).
  simpl in Hg, Ha, Hsz.
  assert (grew = true) as ->.
  { rewrite Hg. apply Z.leb_le. lia. }
  simpl. split; [exact Ha|].
  unfold exists_. simpl. rewrite Ha, Hsz.
  destruct (aget (grow (e sys)) (i * sizeOf (s sys))) as [v|] eqn:Ev;
    [|reflexivity].
  assert (v = 0) as ->; [|reflexivity].
  unfold grow, aget, alen in *.
  destruct (i * sizeOf (s sys) <? 0); [discriminate|].
  rewrite lookup_app_r in Ev by lia.
  apply lookup_replicate_1 in Ev. now destruct Ev.
Qed.


Lemma newEntity_initialises_the_row_witness :
  exists sys0 sys',
    newEntitySystem demoConfig = Ok sys0
    /\ newEntity sys0 None None = Ok (0, sys')
    /\ exists_ sys' 0 = true.
Proof.
  eexists. eexists. split; [vm_compute; reflexivity|].
  match goal with
  | |- newEntity ?s0 None None = Ok (0, ?s') /\ _ =>
      assert (H : newEntity s0 None None = Ok (0, s'))
        by (vm_compute; reflexivity);
      split; [exact H|];
      apply (newEntity_initialises_the_row s0 None 0 _ H)
  end.
  - vm_compute. reflexivity.
  - vm_compute. discriminate.
  - vm_compute. discriminate.
Defined.

Lemma newEntity_on_a_full_table_returns_a_dead_id_witness :
  exists sys0 sys',
    newEntitySystem demoConfig = Ok sys0
    /\ newEntity sys0 None (Some 5) = Ok (5, sys')
    /\ exists_ sys' 5 = false.
Proof.
  eexists. eexists. split; [vm_compute; reflexivity|].
  match goal with
  | |- newEntity ?s0 None (Some 5) = Ok (5, ?s') /\ _ =>
      assert (H : newEntity s0 None (Some 5) = Ok (5, s'))
        by (vm_compute; reflexivity);
      split; [exact H|];
      apply (newEntity_on_a_full_table_returns_a_dead_id s0 (Some 5) 5 _ H)
  end.
  vm_compute. discriminate.
Defined.

(** ** Reading and writing values *)

(** X8.  A value that can be read can be overwritten, and is then read
    back; [setValue] touches neither the entity table nor the handlers and
    runs no callback. *)
Theorem setValue_then_getValue (sys : EntitySystem) (entity : Z)
    (nm : string) (old v : Z) :
  getValue sys entity nm = Ok (Some old) ->
  exists sys',
    setValue sys entity nm v = Ok sys'
    /\ getValue sys' entity nm = Ok (Some v)
    /\ e sys' = e sys
    /\ calls sys' = calls sys.
Proof.
  unfold getValue, setValue. intros H.
  destruct (getPropConfig sys nm) as [cfg| |] eqn:Ec; try discriminate H.
  simpl in *.
  destruct (tableAt (tables sys) (array cfg)) as [t|] eqn:Et;
    [|discriminate H].
  destruct (aget (e sys) _) as [co|] eqn:Eo; [|discriminate H].
  injection H as H. eexists. split; [reflexivity|].
  split; [|split; reflexivity].
  unfold getPropConfig in *. simpl.
  destruct (mapGet (componentsByProp sys) nm); [|discriminate Ec].
  injection Ec as ->. simpl.
  rewrite (tableAt_setTable_eq _ _ _ _ Et). rewrite Eo. simpl.
  rewrite aget_aset_eq; [reflexivity|].
  eapply aget_Some_range. exact H.
Qed.

Lemma setValue_then_getValue_witness :
  exists sys sys',
    demoOneHealth = Ok sys
    /\ setValue sys 0 "health" 9 = Ok sys'
    /\ getValue sys' 0 "health" = Ok (Some 9).
Proof.
  eexists. eexists. split; [vm_compute; reflexivity|].
  match goal with
  | |- setValue ?s0 _ _ _ = _ /\ _ =>
      destruct (setValue_then_getValue s0 0 "health" 4 9) as (sys' & H1 & H2 & _)
  end.
  - vm_compute. reflexivity.
  - vm_compute in H1. injection H1 as <-.
    split; [vm_compute; reflexivity|exact H2].
Defined.

(** X9.  [setValue] does not ask whether the entity has the component.
    For an entity whose offset word for the table of the prop is -1, the
    value goes to the cell before the prop's slot in the first row of the
    table: the back-reference of that row, or the slot of another prop. *)
Theorem setValue_without_the_component_writes_row_zero (sys : EntitySystem)
    (entity : Z) (nm : string) (v : Z) (cfg : PropConfig) (t : Table) :
  mapGet (componentsByProp sys) nm = Some cfg ->
  tableAt (tables sys) (array cfg) = Some t ->
  offsetWord sys entity (array cfg) = Some (-1) ->
  1 <= offset cfg < sizeOf (st t) ->
  sizeOf (st t) <= alen (arr t) ->
  exists sys' t',
    setValue sys entity nm v = Ok sys'
    /\ tableAt (tables sys') (array cfg) = Some t'
    /\ aget (arr t') (0 * sizeOf (st t) + (offset cfg - 1)) = Some v.
Proof.
  intros Hc Ht Ho Hoff Hlen. unfold setValue, getPropConfig.
  rewrite Hc. simpl. rewrite Ht. unfold offsetWord in Ho. rewrite Ho.
  eexists. eexists. split; [reflexivity|]. simpl.
  split; [apply (tableAt_setTable_eq _ _ _ _ Ht)|]. simpl.
  replace (-1 + offset cfg) with (offset cfg - 1) by lia.
  apply aget_aset_eq. lia.
Qed.

Lemma setValue_without_the_component_writes_row_zero_witness :
  exists sys0 sys sys' t',
    newEntitySystem demoConfig = Ok sys0
    /\ newEntity sys0 None None = Ok (0, sys)
    /\ setValue sys 0 "x" 7 = Ok sys'
    /\ tableAt (tables sys') 0 = Some t'
    /\ aget (arr t') 0 = Some 7.
Proof.
  eexists. eexists.
  match goal with
  | |- exists sys' t', ?A /\ ?B /\ _ =>
      assert (H0 : A) by (vm_compute; reflexivity);
      assert (H0' : B) by (vm_compute; reflexivity)
  end.
  match type of H0' with
  | _ = Ok (_, ?s1) =>
      destruct (setValue_without_the_component_writes_row_zero
                  s1 0 "x" 7 (mkPropConfig "Appearance" "x" 0 1 5 2)
                  (mkTable (replicate 20 0) (newTableState 5 6)))
        as (sys' & t' & H1 & H2 & H3)
  end.
  - vm_compute. reflexivity.
  - vm_compute. reflexivity.
  - vm_compute. reflexivity.
  - vm_compute. split; [discriminate|reflexivity].
  - vm_compute. discriminate.
  - exists sys', t'. split; [exact H0|]. split; [exact H0'|].
    split; [exact H1|]. split; [exact H2|exact H3].
Defined.

(** ** Removing entities *)

Lemma aget_aset_None (a : list Z) (i v : Z) :
  aget a i = None -> aget (aset a i v) i = None.
Proof.
  intros H. unfold aget, aset in *. destruct (i <? 0); [reflexivity|].
  apply lookup_ge_None. rewrite length_insert. now apply lookup_ge_None.
Qed.

Lemma removeEntityTable_e (sys : EntitySystem) (entity i : Z)
    (sys' : EntitySystem) :
  removeEntityTable sys entity i = Ok sys' ->
  e sys' = aset (e sys) (entity * sizeOf (s sys) + maskSize sys + i) (-1)
  /\ s sys' = s sys /\ maskSize sys' = maskSize sys.
Proof.
  unfold removeEntityTable. intros H.
  apply bind_Ok in H. destruct H as (m & _ & H).
  destruct (aget (e sys) (entity * sizeOf (s sys) + maskSize sys + i))
    as [ro|]; [|injection H as <-; auto].
  destruct (0 <=? ro); [|injection H as <-; auto].
  destruct (tableAt (tables sys) i); [|discriminate H].
  apply bind_Ok in H. destruct H as (q & _ & H). injection H as <-. auto.
Qed.

Lemma removeEntityTables_e (idxs : list Z) :
  forall sys entity sys',
    removeEntityTables sys entity idxs = Ok sys' ->
    s sys' = s sys /\ maskSize sys' = maskSize sys
    /\ alen (e sys') = alen (e sys)
    /\ (forall idx,
          (forall i, In i idxs ->
                     idx <> entity * sizeOf (s sys) + maskSize sys + i) ->
          aget (e sys') idx = aget (e sys) idx)
    /\ (forall i, In i idxs ->
          0 <= entity * sizeOf (s sys) + maskSize sys + i < alen (e sys) ->
          aget (e sys') (entity * sizeOf (s sys) + maskSize sys + i)
          = Some (-1)).
Proof.
  induction idxs as [|i rest IH]; intros sys entity sys' H; simpl in H.
  - injection H as <-. repeat split; auto. intros i [].
  - apply bind_Ok in H. destruct H as (sys1 & E1 & H).
    apply removeEntityTable_e in E1. destruct E1 as (He1 & Hs1 & Hm1).
    apply IH in H. destruct H as (Hs & Hm & Hl & Hout & Hin).
    rewrite Hs1, Hm1 in *. rewrite He1 in *. rewrite alen_aset in *.
    repeat split; auto; try congruence.
    + intros idx Hidx. rewrite Hout.
      * apply aget_aset_ne. intros Heq. apply (Hidx i); [now left|auto].
      * intros j Hj. apply Hidx. now right.
    + intros j [<-|Hj] Hr.
      * destruct (in_dec Z.eq_dec i rest) as [Hi|Hi]; [now apply Hin|].
        rewrite Hout.
        -- now apply aget_aset_eq.
        -- intros j Hj Heq. apply Hi.
           assert (i = j) as -> by lia. exact Hj.
      * now apply Hin.
Qed.

Lemma removeEntity_words (sys : EntitySystem) (entity : Z)
    (sys' : EntitySystem) :
  isEntityTable (s sys) = true ->
  removeEntity sys entity = Ok sys' ->
  exists_ sys' entity = false
  /\ (forall j, 0 <= j < maskSize sys ->
        offsetWord sys entity j <> None ->
        offsetWord sys' entity j = Some (-1))
  /\ (forall j, 0 < j < maskSize sys ->
        maskWord sys' entity j = maskWord sys entity j)
  /\ maskWord sys' entity 0
     = (fun w => Z.land (toInt32 w) (Z.lnot 1)) <$> maskWord sys entity 0
  /\ removeCounter (s sys') = removeCounter (s sys) + 1
  /\ rowCounter (s sys') = rowCounter (s sys)
  /\ sizeOf (s sys') = sizeOf (s sys)
  /\ maskSize sys' = maskSize sys
  /\ alen (e sys') = alen (e sys)
  /\ (forall idx,
        idx < entity * sizeOf (s sys)
        \/ (entity * sizeOf (s sys) < idx
            /\ entity * sizeOf (s sys) + 2 * maskSize sys <= idx) ->
        aget (e sys') idx = aget (e sys) idx).
Proof.
  unfold removeEntity. intros HisE H.
  apply bind_Ok in H. destruct H as (sys1 & E1 & H). injection H as <-.
  apply removeEntityTables_e in E1.
  destruct E1 as (Hs & Hm & Hl & Hout & Hin).
  set (off := entity * sizeOf (s sys)) in *.
  assert (Hseq : forall i, In i (seqZ 0 (maskSize sys)) -> 0 <= i < maskSize sys).
  { intros i Hi. apply list_elem_of_In, elem_of_seqZ in Hi. lia. }
  assert (Hseq' : forall i, 0 <= i < maskSize sys -> In i (seqZ 0 (maskSize sys))).
  { intros i Hi. apply list_elem_of_In, elem_of_seqZ. lia. }
  assert (Hoff : aget (e sys1) off = aget (e sys) off).
  { apply Hout. intros i Hi. apply Hseq in Hi. lia. }
  unfold exists_, offsetWord, maskWord, removeRow. simpl.
  rewrite Hs, Hm, HisE. fold off. rewrite !Z.add_0_r. rewrite Hoff.
  set (w' := Z.land (toInt32 (default 0 (aget (e sys) off))) (Z.lnot 1)).
  split.
  { destruct (aget (e sys) off) as [w|] eqn:Ew.
    - rewrite aget_aset_eq.
      + unfold w'. rewrite and1_cleared. reflexivity.
      + rewrite Hl. eapply aget_Some_range. exact Ew.
    - rewrite aget_aset_None; [reflexivity|]. now rewrite Hoff. }
  split.
  { intros j Hj Hne. rewrite aget_aset_ne by lia.
    apply Hin; [now apply Hseq'|].
    destruct (aget (e sys) (off + maskSize sys + j)) as [v|] eqn:Ev;
      [|contradiction].
    eapply aget_Some_range. exact Ev. }
  split.
  { intros j Hj. rewrite aget_aset_ne by lia.
    apply Hout. intros i Hi. apply Hseq in Hi. lia. }
  split.
  { destruct (aget (e sys) off) as [w|] eqn:Ew.
    - rewrite aget_aset_eq; [reflexivity|].
      rewrite Hl. eapply aget_Some_range. exact Ew.
    - rewrite aget_aset_None; [reflexivity|]. now rewrite Hoff. }
  split; [reflexivity|]. split; [reflexivity|].
  split; [reflexivity|]. split; [reflexivity|].
  split.
  { rewrite alen_aset. exact Hl. }
  intros idx Hidx. rewrite aget_aset_ne by lia.
  apply Hout. intros i Hi. apply Hseq in Hi. lia.
Qed.


(** X10.  After [removeEntity] the entity does not exist and its offset
    words are -1, and the allocator of the entity table has one more
    removed row.  The mask words are not cleared: those of the tables
    past the first are as before, and the first keeps every bit but the
    "exists" bit, as far as a 32-bit integer holds it. *)
Theorem removeEntity_clears_the_exists_bit_only (sys : EntitySystem)
    (entity : Z) (sys' : EntitySystem) :
  isEntityTable (s sys) = true ->
  removeEntity sys entity = Ok sys' ->
  exists_ sys' entity = false
  /\ (forall j, 0 <= j < maskSize sys ->
        offsetWord sys entity j <> None ->
        offsetWord sys' entity j = Some (-1))
  /\ (forall j, 0 < j < maskSize sys ->
        maskWord sys' entity j = maskWord sys entity j)
  /\ maskWord sys' entity 0
     = (fun w => Z.land (toInt32 w) (Z.lnot 1)) <$> maskWord sys entity 0
  /\ removeCounter (s sys') = removeCounter (s sys) + 1
  /\ rowCounter (s sys') = rowCounter (s sys).
Proof.
  intros HisE H.
  destruct (removeEntity_words sys entity sys' HisE H)
    as (H1 & H2 & H3 & H4 & H5 & H6 & _).
  repeat split; assumption.
Qed.

Lemma removeEntity_clears_the_exists_bit_only_witness :
  exists sys sys',
    demoOneHealth = Ok sys
    /\ removeEntity sys 0 = Ok sys'
    /\ exists_ sys' 0 = false.
Proof.
  eexists. eexists. split; [vm_compute; reflexivity|].
  match goal with
  | |- removeEntity ?s0 0 = Ok ?s' /\ _ =>
      assert (H : removeEntity s0 0 = Ok s') by (vm_compute; reflexivity);
      split; [exact H|];
      apply (removeEntity_clears_the_exists_bit_only s0 0 _ eq_refl H)
  end.
Defined.

(** ** Iteration *)

Lemma aget_None_range (a : list Z) (i : Z) :
  aget a i = None -> i < 0 \/ alen a <= i.
Proof.
  unfold aget, alen. destruct (i <? 0) eqn:E; [apply Z.ltb_lt in E; auto|].
  intros H. apply lookup_ge_None in H. right. lia.
Qed.

Lemma aget_beyond_or_neg (a : list Z) (i : Z) :
  i < 0 \/ alen a <= i -> aget a i = None.
Proof.
  intros [H|H]; [|now apply aget_beyond].
  unfold aget. apply Z.ltb_lt in H. now rewrite H.
Qed.

Lemma forEachRows_spec (a : list Z) (sz ai m : Z) (rows : list Z) :
  forall ids,
    forEachRows a sz ai m rows = Ok ids ->
    (forall i, In i rows -> aget a (i * sz + ai) <> None)
    /\ ids = List.filter
               (fun i => match aget a (i * sz + ai) with
                         | Some w => Z.land w m =? m
                         | None => false
                         end) rows.
Proof.
  induction rows as [|i rest IH]; intros ids H; simpl in H.
  - injection H as <-. split; [intros i []|reflexivity].
  - apply bind_Ok in H. destruct H as (w & Ew & H).
    apply bind_Ok in H. destruct H as (ids0 & E0 & H). injection H as <-.
    apply IH in E0. destruct E0 as (Hr & ->).
    destruct (aget a (i * sz + ai)) as [w0|] eqn:Ea; [|discriminate Ew].
    injection Ew as ->. split.
    + intros j [<-|Hj]; [congruence|now apply Hr].
    + simpl. rewrite Ea. reflexivity.
Qed.

Lemma forEachRows_Ok (a : list Z) (sz ai m : Z) (rows : list Z) :
  (forall i, In i rows -> aget a (i * sz + ai) <> None) ->
  exists ids, forEachRows a sz ai m rows = Ok ids.
Proof.
  induction rows as [|i rest IH]; intros H; simpl.
  - eexists. reflexivity.
  - destruct (aget a (i * sz + ai)) as [w|] eqn:Ea.
    + destruct IH as (ids & ->); [intros j Hj; apply H; now right|].
      simpl. eexists. reflexivity.
    + exfalso. apply (H i); [now left|exact Ea].
Qed.

Lemma filter_seqZ_sorted (f : Z -> bool) (n : Z) :
  forall i, StronglySorted Z.lt (List.filter f (seqZ i n)).
Proof.
  intros i. unfold seqZ.
  generalize (Z.to_nat n). intros k. revert i.
  assert (G : forall (k : nat) (j0 : nat) i,
             StronglySorted Z.lt
               (List.filter f ((fun j : nat => Z.of_nat j + i) <$> seq j0 k))
             /\ forall x, In x (List.filter f
                                 ((fun j : nat => Z.of_nat j + i) <$> seq j0 k))
                          -> i + Z.of_nat j0 <= x).
  { clear k. induction k as [|k IH]; intros j0 i; simpl.
    - split; [constructor|intros x []].
    - destruct (IH (S j0) i) as (Hs & Hb).
      fold (@fmap list _ nat Z) in *.
      destruct (f (Z.of_nat j0 + i)).
      + split.
        * constructor; [exact Hs|]. apply Forall_forall. intros x Hx.
          apply list_elem_of_In in Hx.
          apply Hb in Hx. lia.
        * intros x [<-|Hx]; [lia|]. apply Hb in Hx. lia.
      + split; [exact Hs|]. intros x Hx. apply Hb in Hx. lia. }
  intros i. apply (proj1 (G k 0%nat i)).
Qed.

(** X11.  [forEach] hands to the callback, in ascending order and once
    each, the rows below the high-water mark of the entity table whose
    mask word for the table contains the mask.  It does not ask whether
    the row is an entity that exists. *)
Theorem forEach_visits_the_rows_that_match (sys : EntitySystem)
    (arrayIndex bMask : Z) (ids : list Z) :
  forEach sys arrayIndex bMask = Ok ids ->
  StronglySorted Z.lt ids
  /\ forall i,
       In i ids
       <-> 0 <= i < rowCounter (s sys)
           /\ exists w, maskWord sys i arrayIndex = Some w
                        /\ Z.land w bMask = bMask.
Proof.
  unfold forEach. intros H. apply forEachRows_spec in H.
  destruct H as (_ & ->). split; [apply filter_seqZ_sorted|].
  intros i. rewrite filter_In. unfold maskWord.
  rewrite <- list_elem_of_In, elem_of_seqZ.
  destruct (aget (e sys) (i * sizeOf (s sys) + arrayIndex)) as [w|].
  - rewrite Z.eqb_eq. split.
    + intros [Hi Hw]. split; [lia|]. exists w. auto.
    + intros [Hi (w' & Hw' & Hl)]. injection Hw' as <-. split; [lia|auto].
  - split; [intros [_ ?]; discriminate|].
    intros [_ (w' & Hw' & _)]. discriminate.
Qed.

Lemma forEach_visits_the_rows_that_match_witness :
  exists sys,
    demoTwoAppearances = Ok sys
    /\ forEach sys 0 2 = Ok [0; 1]
    /\ StronglySorted Z.lt [0; 1].
Proof.
  eexists. split; [vm_compute; reflexivity|].
  match goal with
  | |- forEach ?s0 0 2 = _ /\ _ =>
      assert (H : forEach s0 0 2 = Ok [0; 1]) by (vm_compute; reflexivity);
      split; [exact H|];
      apply (forEach_visits_the_rows_that_match s0 0 2 _ H)
  end.
Defined.

Lemma land_even_keeps (w m : Z) :
  Z.land w m = m -> Z.even m = true -> Z.land (Z.land w (Z.lnot 1)) m = m.
Proof.
  intros Hl He. rewrite <- Z.land_assoc, (Z.land_comm (Z.lnot 1) m).
  rewrite Z.land_assoc, Hl.
  apply Z.bits_inj'. intros n Hn. rewrite Z.land_spec.
  destruct (Z.eq_dec n 0) as [->|Hne].
  - rewrite Z.bit0_odd, <- Z.negb_even, He. reflexivity.
  - change (Z.lnot 1) with (-2).
    assert (Z.testbit (-2) n = true) as ->; [|apply andb_true_r].
    replace (-2) with (Z.lnot 1) by reflexivity.
    rewrite Z.lnot_spec by lia.
    change 1 with (2 ^ 0). rewrite Z.pow2_bits_eqb by lia.
    destruct (Z.eqb_spec 0 n); [lia|reflexivity].
Qed.

(** X12.  An entity that was removed is still handed out by [forEach]:
    [removeEntity] leaves the component bits in the mask words, and
    [forEach] looks at nothing else.  (For the first table the mask must not
    ask for the "exists" bit, and the mask word must fit a 32-bit
    integer.) *)
Theorem forEach_visits_a_removed_entity (sys : EntitySystem) (entity : Z)
    (sys' : EntitySystem) (arrayIndex bMask w : Z) (ids : list Z) :
  isEntityTable (s sys) = true ->
  removeEntity sys entity = Ok sys' ->
  0 <= arrayIndex < maskSize sys ->
  (arrayIndex = 0 -> Z.even bMask = true /\ 0 <= w < 2 ^ 31) ->
  forEach sys arrayIndex bMask = Ok ids ->
  In entity ids ->
  maskWord sys entity arrayIndex = Some w ->
  exists ids',
    forEach sys' arrayIndex bMask = Ok ids'
    /\ In entity ids'
    /\ exists_ sys' entity = false.
Proof.
  intros HisE Hrem Hai H0 Hfor Hin Hw.
  destruct (removeEntity_words sys entity sys' HisE Hrem)
    as (Hex & _ & Hmask & Hmask0 & _ & Hrc & Hsz & _ & Hlen & Hout).
  unfold forEach in *. rewrite Hsz, Hrc.
  apply forEachRows_spec in Hfor. destruct Hfor as (Hread & ->).
  destruct (forEachRows_Ok (e sys') (sizeOf (s sys)) arrayIndex bMask
              (seqZ 0 (rowCounter (s sys)))) as (ids' & Hids').
  { intros i Hi Hnone. apply (Hread i Hi).
    apply aget_beyond_or_neg. apply aget_None_range in Hnone. lia. }
  exists ids'. split; [exact Hids'|]. split; [|exact Hex].
  apply forEachRows_spec in Hids'. destruct Hids' as (_ & ->).
  apply filter_In in Hin. destruct Hin as (Hrow & Hmatch).
  apply filter_In. split; [exact Hrow|].
  unfold maskWord in *. rewrite Hw in Hmatch. apply Z.eqb_eq in Hmatch.
  destruct (Z.eq_dec arrayIndex 0) as [->|Hne].
  - rewrite Hsz in Hmask0. rewrite Hmask0, Hw. simpl.
    destruct (H0 eq_refl) as (Hev & Hw32).
    apply Z.eqb_eq. 
    assert (toInt32 w = w) as ->.
    { unfold toInt32. rewrite Z.mod_small; lia. }
    now apply land_even_keeps.
  - specialize (Hmask arrayIndex ltac:(lia)). rewrite Hsz in Hmask.
    rewrite Hmask, Hw. now apply Z.eqb_eq.
Qed.

Lemma forEach_visits_a_removed_entity_witness :
  exists sys sys' ids',
    demoOneHealth = Ok sys
    /\ removeEntity sys 0 = Ok sys'
    /\ forEach sys' 0 4 = Ok ids'
    /\ In 0 ids'
    /\ exists_ sys' 0 = false.
Proof.
  eexists. eexists.
  match goal with
  | |- exists ids', ?A /\ ?B /\ _ =>
      assert (HA : A) by (vm_compute; reflexivity);
      assert (HB : B) by (vm_compute; reflexivity)
  end.
  match type of HB with
  | removeEntity ?s0 0 = Ok ?s1 =>
      destruct (forEach_visits_a_removed_entity s0 0 s1 0 4 5 [0] eq_refl HB)
        as (ids' & H1 & H2 & H3)
  end.
  - vm_compute. split; [discriminate|reflexivity].
  - intros _. vm_compute. split; [reflexivity|].
    split; [discriminate|reflexivity].
  - vm_compute. reflexivity.
  - left. reflexivity.
  - vm_compute. reflexivity.
  - exists ids'. split; [exact HA|]. split; [exact HB|].
    split; [exact H1|]. split; [exact H2|exact H3].
Defined.

(** ** Masks and membership *)

Lemma land_lor_iff (w a b : Z) :
  Z.land w (Z.lor a b) = Z.lor a b <-> Z.land w a = a /\ Z.land w b = b.
Proof.
  split.
  - intros H. split; apply Z.bits_inj'; intros n Hn;
      apply (f_equal (fun z => Z.testbit z n)) in H;
      rewrite Z.land_spec, Z.lor_spec in H; rewrite Z.land_spec;
      destruct (Z.testbit w n), (Z.testbit a n), (Z.testbit b n);
      simpl in *; congruence.
  - intros [Ha Hb]. apply Z.bits_inj'. intros n Hn.
    apply (f_equal (fun z => Z.testbit z n)) in Ha, Hb.
    rewrite Z.land_spec in Ha, Hb. rewrite Z.land_spec, Z.lor_spec.
    destruct (Z.testbit w n), (Z.testbit a n), (Z.testbit b n);
      simpl in *; congruence.
Qed.

Lemma tagBits_cons (sys : EntitySystem) (c : string) (cs : list string)
    (a : Z) :
  tagBits sys (c :: cs) a
  = match mapGet (components sys) c with
    | Some en => if arrayIndex en =? a then Z.lor (mask en) (tagBits sys cs a)
                 else tagBits sys cs a
    | None => tagBits sys cs a
    end.
Proof. reflexivity. Qed.

Lemma tagBits_contained (sys : EntitySystem) (cs : list string) (a w : Z) :
  Z.land w (tagBits sys cs a) = tagBits sys cs a
  <-> forall c en, In c cs -> mapGet (components sys) c = Some en ->
                   arrayIndex en = a -> Z.land w (mask en) = mask en.
Proof.
  induction cs as [|c cs IH].
  - simpl. split; [intros _ c en []|intros _; apply Z.land_0_r].
  - rewrite tagBits_cons.
    destruct (mapGet (components sys) c) as [en|] eqn:Ec.
    + destruct (Z.eqb_spec (arrayIndex en) a) as [Ea|Ea].
      * rewrite land_lor_iff, IH. split.
        -- intros [Hm Hr] c' en' [<-|Hin] Hc' Ha'.
           ++ rewrite Ec in Hc'. now injection Hc' as <-.
           ++ now apply (Hr c').
        -- intros H. split.
           ++ apply (H c en); [now left|assumption|assumption].
           ++ intros c' en' Hin. apply H. now right.
      * rewrite IH. split.
        -- intros Hr c' en' [<-|Hin] Hc' Ha'.
           ++ rewrite Ec in Hc'. injection Hc' as <-. contradiction.
           ++ now apply (Hr c').
        -- intros H c' en' Hin. apply H. now right.
    + rewrite IH. split.
      * intros Hr c' en' [<-|Hin] Hc' Ha'; [congruence|now apply (Hr c')].
      * intros H c' en' Hin. apply H. now right.
Qed.

Lemma orNames_spec (sys : EntitySystem) (cs : list string) :
  forall ms ms',
    orNames sys ms cs = Ok ms' ->
    alen ms' = alen ms
    /\ (forall a m0, aget ms a = Some m0 ->
          aget ms' a = Some (Z.lor m0 (tagBits sys cs a)))
    /\ (forall c, In c cs ->
          exists en, mapGet (components sys) c = Some en
                     /\ 0 <= arrayIndex en < alen ms).
Proof.
  induction cs as [|c cs IH]; intros ms ms' H; simpl in H.
  - injection H as <-. split; [reflexivity|]. split.
    + intros a m0 Ha. simpl. now rewrite Z.lor_0_r.
    + intros c [].
  - destruct (mapGet (components sys) c) as [en|] eqn:Ec; [|discriminate H].
    apply bind_Ok in H. destruct H as (ms1 & E1 & H).
    unfold orMask in E1.
    destruct (aget ms (arrayIndex en)) as [old|] eqn:Eo; [|discriminate E1].
    injection E1 as <-. apply IH in H. destruct H as (Hl & Hv & Hn).
    rewrite alen_aset in *. pose proof (aget_Some_range _ _ _ Eo) as Hr.
    split; [exact Hl|]. split.
    + intros a m0 Ha. rewrite tagBits_cons, Ec.
      destruct (Z.eqb_spec (arrayIndex en) a) as [<-|Hne].
      * rewrite Eo in Ha. injection Ha as <-.
        rewrite Z.lor_assoc. apply Hv. now apply aget_aset_eq.
      * apply Hv. now rewrite aget_aset_ne.
    + intros c' [<-|Hin]; [exists en; auto|now apply Hn].
Qed.

Lemma orNames_Ok (sys : EntitySystem) (cs : list string) :
  forall ms,
    (forall c, In c cs ->
       exists en, mapGet (components sys) c = Some en
                  /\ 0 <= arrayIndex en < alen ms) ->
    exists ms', orNames sys ms cs = Ok ms'.
Proof.
  induction cs as [|c cs IH]; intros ms H; simpl.
  - eexists. reflexivity.
  - destruct (H c) as (en & -> & Hr); [now left|].
    destruct (aget_in_range ms (arrayIndex en) Hr) as (old & Eo).
    unfold orMask. rewrite Eo. simpl.
    apply IH. intros c' Hin. rewrite alen_aset. apply H. now right.
Qed.

Lemma orNames_unknown (sys : EntitySystem) (pre : list string) (c : string)
    (rest : list string) :
  forall ms,
    (forall c', In c' pre ->
       exists en, mapGet (components sys) c' = Some en
                  /\ 0 <= arrayIndex en < alen ms) ->
    mapGet (components sys) c = None ->
    orNames sys ms (pre ++ c :: rest)
    = Throw (Error ("Could not find component " ++ quote ++ c ++ quote)).
Proof.
  induction pre as [|p pre IH]; intros ms H Hc; simpl.
  - now rewrite Hc.
  - destruct (H p) as (en & -> & Hr); [now left|].
    destruct (aget_in_range ms (arrayIndex en) Hr) as (old & Eo).
    unfold orMask. rewrite Eo. simpl.
    apply IH; [|exact Hc]. intros c' Hin. rewrite alen_aset. apply H.
    now right.
Qed.

Lemma hasMasks_spec (a : list Z) (entityRow : Z) (ms : list Z) :
  forall j b,
    hasMasks a entityRow j ms = Ok b ->
    if b
    then forall k m, ms !! k = Some m ->
           exists w, aget a (entityRow + j + Z.of_nat k) = Some w
                     /\ Z.land w m = m
    else exists k m w,
           ms !! k = Some m
           /\ aget a (entityRow + j + Z.of_nat k) = Some w
           /\ Z.land w m <> m.
Proof.
  induction ms as [|m rest IH]; intros j b H; simpl in H.
  - injection H as <-. intros k m Hk. discriminate Hk.
  - apply bind_Ok in H. destruct H as (w & Ew & H).
    destruct (aget a (entityRow + j)) as [w0|] eqn:Ea; [|discriminate Ew].
    injection Ew as ->.
    destruct (Z.eqb_spec (Z.land w m) m) as [Hl|Hl].
    + apply IH in H. destruct b.
      * intros [|k] m' Hk; simpl in Hk.
        -- injection Hk as <-. exists w. rewrite Z.add_0_r. auto.
        -- destruct (H k m' Hk) as (w' & Hw' & Hl').
           exists w'. split; [|exact Hl'].
           rewrite <- Hw'. f_equal. lia.
      * destruct H as (k & m' & w' & Hk & Hw' & Hl').
        exists (S k), m', w'. split; [exact Hk|]. split; [|exact Hl'].
        rewrite <- Hw'. f_equal. lia.
    + injection H as <-. exists 0%nat, m, w.
      split; [reflexivity|]. rewrite Z.add_0_r. auto.
Qed.

Lemma tmpArray_fresh (tmp : option (list Z)) (size : Z) :
  match tmp with Some l => alen l <= size | None => True end ->
  tmpArray tmp size = replicate (Z.to_nat size) 0.
Proof.
  unfold tmpArray. destruct tmp as [l|]; [|reflexivity].
  intros H. destruct (alen l <? size) eqn:E; [reflexivity|].
  apply Z.ltb_ge in E. unfold alen in *.
  rewrite drop_ge by lia. apply app_nil_r.
Qed.

Lemma aget_replicate (n : nat) (v a : Z) :
  0 <= a < Z.of_nat n -> aget (replicate n v) a = Some v.
Proof.
  intros H. unfold aget. destruct (a <? 0) eqn:E; [lia|].
  apply lookup_replicate_2. lia.
Qed.

Lemma aget_lookup (l : list Z) (k : nat) : aget l (Z.of_nat k) = l !! k.
Proof.
  unfold aget. destruct (Z.ltb_spec (Z.of_nat k) 0) as [E|E]; [lia|].
  now rewrite Nat2Z.id.
Qed.

(** X13.  [masks(names)] returns one word per table of the layout: the OR
    of the masks of the named components of that table.  Every name it
    accepts is a registered component of one of the tables. *)
Theorem masks_is_the_or_per_table (sys : EntitySystem) (cs : list string)
    (ms : list Z) :
  masks sys cs = Ok ms ->
  alen ms = Z.max 0 (maskSize sys)
  /\ (forall a, 0 <= a < maskSize sys ->
        aget ms a = Some (tagBits sys cs a))
  /\ (forall c, In c cs ->
        exists en, mapGet (components sys) c = Some en
                   /\ 0 <= arrayIndex en < maskSize sys).
Proof.
  unfold masks. intros H. apply orNames_spec in H.
  destruct H as (Hl & Hv & Hn).
  assert (Hlen : alen (replicate (Z.to_nat (maskSize sys)) 0)
                 = Z.max 0 (maskSize sys)).
  { unfold alen. rewrite length_replicate. lia. }
  rewrite Hlen in *. split; [exact Hl|]. split.
  - intros a Ha. rewrite (Hv a 0); [now rewrite Z.lor_0_l|].
    apply aget_replicate. lia.
  - intros c Hin. destruct (Hn c Hin) as (en & He & Hr).
    exists en. split; [exact He|lia].
Qed.

Lemma masks_is_the_or_per_table_witness :
  exists sys0 ms,
    newEntitySystem twoTableConfig = Ok sys0
    /\ masks sys0 ["A"; "C"] = Ok ms
    /\ alen ms = Z.max 0 (maskSize sys0).
Proof.
  eexists. eexists. split; [vm_compute; reflexivity|].
  match goal with
  | |- masks ?s0 ?cs = Ok ?m /\ _ =>
      assert (H : masks s0 cs = Ok m) by (vm_compute; reflexivity);
      split; [exact H|];
      apply (masks_is_the_or_per_table s0 cs _ H)
  end.
Defined.

(** X14.  [masks] fails with the error that names the component at the
    first name that is not registered, when the names before it are
    components of the layout. *)
Theorem masks_rejects_an_unknown_name (sys : EntitySystem)
    (pre : list string) (c : string) (rest : list string) :
  (forall c', In c' pre ->
     exists en, mapGet (components sys) c' = Some en
                /\ 0 <= arrayIndex en < maskSize sys) ->
  mapGet (components sys) c = None ->
  masks sys (pre ++ c :: rest)
  = Throw (Error ("Could not find component " ++ quote ++ c ++ quote)).
Proof.
  intros H Hc. unfold masks. apply orNames_unknown; [|exact Hc].
  intros c' Hin. destruct (H c' Hin) as (en & He & Hr).
  exists en. split; [exact He|].
  unfold alen. rewrite length_replicate. lia.
Qed.

Lemma masks_rejects_an_unknown_name_witness :
  exists sys0,
    newEntitySystem twoTableConfig = Ok sys0
    /\ masks sys0 ["A"; "Nope"; "C"]
       = Throw (Error ("Could not find component " ++ quote ++ "Nope"
                       ++ quote)).
Proof.
  eexists. split; [vm_compute; reflexivity|].
  match goal with
  | |- masks ?s0 _ = _ =>
      apply (masks_rejects_an_unknown_name s0 ["A"] "Nope" ["C"])
  end.
  - intros c' [<-|[]]. eexists. split; [vm_compute; reflexivity|].
    vm_compute. split; [discriminate|reflexivity].
  - vm_compute. reflexivity.
Defined.

(** X15.  [has(entity, names)], called while the shared scratch array is
    not longer than the layout has tables, answers true exactly when every
    name is a registered component whose mask is contained in the entity's
    mask word for its table. *)
Theorem has_by_names_is_exact (sys : EntitySystem) (tmp : option (list Z))
    (entity : Z) (cs : list string) (b : bool) (tmp' : option (list Z)) :
  match tmp with Some l => alen l <= maskSize sys | None => True end ->
  has sys tmp entity (ByNames cs) = Ok (b, tmp') ->
  b = true
  <-> forall c, In c cs ->
        exists en, mapGet (components sys) c = Some en
                   /\ carries sys entity en = true.
Proof.
  intros Htmp H. unfold has in H. rewrite (tmpArray_fresh _ _ Htmp) in H.
  apply bind_Ok in H. destruct H as (ms & Eo & H).
  apply bind_Ok in H. destruct H as (b0 & Eh & H). injection H as -> <-.
  apply orNames_spec in Eo. destruct Eo as (Hl & Hv & Hn).
  assert (Hlen : alen (replicate (Z.to_nat (maskSize sys)) 0)
                 = Z.max 0 (maskSize sys)).
  { unfold alen. rewrite length_replicate. lia. }
  rewrite Hlen in *.
  assert (Hms : forall a, 0 <= a < maskSize sys ->
                  aget ms a = Some (tagBits sys cs a)).
  { intros a Ha. rewrite (Hv a 0); [now rewrite Z.lor_0_l|].
    apply aget_replicate. lia. }
  apply hasMasks_spec in Eh. unfold carries, maskWord.
  destruct b.
  - split; [intros _|reflexivity]. intros c Hin.
    destruct (Hn c Hin) as (en & He & Hr). exists en. split; [exact He|].
    assert (Hk : ms !! Z.to_nat (arrayIndex en)
                 = Some (tagBits sys cs (arrayIndex en))).
    { rewrite <- aget_lookup, Z2Nat.id by lia. apply Hms. lia. }
    destruct (Eh _ _ Hk) as (w & Hw & Hc).
    rewrite Z.add_0_r, Z2Nat.id in Hw by lia. rewrite Hw.
    apply Z.eqb_eq.
    apply (proj1 (tagBits_contained sys cs (arrayIndex en) w) Hc c en);
      auto.
  - split; [discriminate|]. intros Hall. exfalso.
    destruct Eh as (k & m & w & Hk & Hw & Hne). apply Hne.
    assert (Hkr : 0 <= Z.of_nat k < maskSize sys).
    { apply lookup_lt_Some in Hk. unfold alen in Hl. lia. }
    rewrite <- aget_lookup, (Hms _ Hkr) in Hk. injection Hk as <-.
    apply tagBits_contained. intros c en Hin Hc Ha.
    destruct (Hall c Hin) as (en' & Hc' & Hcar).
    rewrite Hc in Hc'. injection Hc' as <-.
    rewrite Ha, Z.add_0_r in *. rewrite Hw in Hcar.
    now apply Z.eqb_eq.
Qed.

Lemma has_by_names_is_exact_witness :
  exists sys,
    demoOneHealth = Ok sys
    /\ has sys None 0 (ByNames ["Health"]) = Ok (true, Some [4])
    /\ (true = true
        <-> forall c, In c ["Health"] ->
              exists en, mapGet (components sys) c = Some en
                         /\ carries sys 0 en = true).
Proof.
  eexists. split; [vm_compute; reflexivity|].
  match goal with
  | |- has ?s0 None 0 ?arg = ?r /\ _ =>
      assert (H : has s0 None 0 arg = r) by (vm_compute; reflexivity);
      split; [exact H|];
      apply (has_by_names_is_exact s0 None 0 ["Health"] true _ I H)
  end.
Defined.

(** X16.  Asking by the masks that [masks(names)] returns gives the same
    answer as asking by the names. *)
Theorem has_by_masks_agrees_with_names (sys : EntitySystem)
    (tmp : option (list Z)) (entity : Z) (cs : list string) (ms : list Z)
    (b : bool) :
  masks sys cs = Ok ms ->
  0 < maskSize sys ->
  has sys tmp entity (ByMasks ms) = Ok (b, tmp)
  <-> has sys None entity (ByNames cs) = Ok (b, Some ms).
Proof.
  intros Hm Hpos.
  assert (Hne : ms <> []).
  { apply orNames_spec in Hm. destruct Hm as (Hl & _).
    unfold alen in Hl. rewrite length_replicate in Hl.
    destruct ms; [simpl in Hl; lia|discriminate]. }
  destruct ms as [|m ms']; [contradiction|].
  assert (H1 : has sys tmp entity (ByMasks (m :: ms'))
               = hasMasks (e sys) (entity * sizeOf (s sys)) 0 (m :: ms')
                 ≫= fun b0 => Ok (b0, tmp)) by reflexivity.
  assert (H2 : has sys None entity (ByNames cs)
               = hasMasks (e sys) (entity * sizeOf (s sys)) 0 (m :: ms')
                 ≫= fun b0 => Ok (b0, Some (m :: ms'))).
  { unfold has, masks in *. simpl tmpArray. rewrite Hm. reflexivity. }
  rewrite H1, H2.
  destruct (hasMasks (e sys) (entity * sizeOf (s sys)) 0 (m :: ms'));
    unfold mbind, outcome_bind; split; intros H; congruence.
Qed.

Lemma has_by_masks_agrees_with_names_witness :
  exists sys,
    demoOneHealth = Ok sys
    /\ masks sys ["Health"] = Ok [4]
    /\ (has sys None 0 (ByMasks [4]) = Ok (true, None)
        <-> has sys None 0 (ByNames ["Health"]) = Ok (true, Some [4])).
Proof.
  eexists. split; [vm_compute; reflexivity|].
  match goal with
  | |- masks ?s0 ?cs = ?r /\ _ =>
      assert (H : masks s0 cs = r) by (vm_compute; reflexivity);
      split; [exact H|];
      apply (has_by_masks_agrees_with_names s0 None 0 cs [4] true H)
  end.
  vm_compute. reflexivity.
Defined.

Lemma hasMasks_zeros (a : list Z) (entityRow : Z) (rest : list Z) (n : nat) :
  forall j,
    (forall k, 0 <= k < Z.of_nat n -> aget a (entityRow + j + k) <> None) ->
    hasMasks a entityRow j (replicate n 0 ++ rest)
    = hasMasks a entityRow (j + Z.of_nat n) rest.
Proof.
  induction n as [|n IH]; intros j H.
  - simpl. now rewrite Z.add_0_r.
  - simpl replicate. simpl app. simpl hasMasks.
    destruct (aget a (entityRow + j)) as [w|] eqn:Ea.
    + simpl. rewrite Z.land_0_r. simpl. rewrite IH.
      * f_equal. lia.
      * intros k Hk. replace (entityRow + (j + 1) + k)
          with (entityRow + j + (k + 1)) by lia. apply H. lia.
    + exfalso. apply (H 0); [lia|]. now rewrite Z.add_0_r.
Qed.

(** X17.  The scratch array of [has] is shared by all systems and only its
    first [maskSize] cells are reset.  When it is longer than the layout has
    tables, the loop of [has] goes on past the mask words: the next mask
    left in the array is tested against the first offset word of the
    entity.  With no names at all, the answer is true for a fresh scratch
    array and false for such a longer one. *)
Theorem has_reads_past_the_mask_words (sys : EntitySystem) (entity : Z)
    (l : list Z) (m o : Z) :
  0 <= maskSize sys ->
  (forall j, 0 <= j < maskSize sys -> maskWord sys entity j <> None) ->
  l !! Z.to_nat (maskSize sys) = Some m ->
  offsetWord sys entity 0 = Some o ->
  Z.land o m <> m ->
  has sys None entity (ByNames [])
  = Ok (true, Some (replicate (Z.to_nat (maskSize sys)) 0))
  /\ has sys (Some l) entity (ByNames [])
     = Ok (false,
           Some (replicate (Z.to_nat (maskSize sys)) 0
                 ++ drop (Z.to_nat (maskSize sys)) l)%list).
Proof.
  intros Hn Hread Hl Ho Hne. unfold has, orNames.
  assert (Hz : forall k, 0 <= k < Z.of_nat (Z.to_nat (maskSize sys)) ->
             aget (e sys) (entity * sizeOf (s sys) + 0 + k) <> None).
  { intros k Hk. rewrite Z.add_0_r. apply Hread. lia. }
  split.
  - simpl tmpArray. simpl mbind.
    rewrite <- (app_nil_r (replicate _ 0)) at 1.
    rewrite (hasMasks_zeros _ _ [] _ 0 Hz). reflexivity.
  - assert (Ht : tmpArray (Some l) (maskSize sys)
                 = (replicate (Z.to_nat (maskSize sys)) 0
                    ++ drop (Z.to_nat (maskSize sys)) l)%list).
    { unfold tmpArray. destruct (alen l <? maskSize sys) eqn:E; [|reflexivity].
      apply Z.ltb_lt in E. apply lookup_lt_Some in Hl. unfold alen in E. lia. }
    rewrite Ht. simpl mbind.
    rewrite (hasMasks_zeros _ _ _ _ 0 Hz).
    rewrite (drop_S l m (Z.to_nat (maskSize sys)) Hl). simpl hasMasks.
    unfold offsetWord in Ho. rewrite Z.add_0_r in Ho.
    rewrite Z2Nat.id by lia. rewrite Z.add_0_l.
    rewrite Ho. simpl.
    destruct (Z.eqb_spec (Z.land o m) m); [contradiction|reflexivity].
Qed.

Lemma has_reads_past_the_mask_words_witness :
  exists sys,
    demoOneHealth = Ok sys
    /\ has sys None 0 (ByNames []) = Ok (true, Some [0])
    /\ has sys (Some [2; 1]) 0 (ByNames []) = Ok (false, Some [0; 1]).
Proof.
  eexists. split; [vm_compute; reflexivity|].
  match goal with
  | |- has ?s0 _ _ _ = _ /\ _ =>
      apply (has_reads_past_the_mask_words s0 0 [2; 1] 1 0)
  end.
  - vm_compute. discriminate.
  - intros j Hj. assert (j = 0) as -> by (change (0 <= j < 1) in Hj; lia).
    vm_compute. discriminate.
  - vm_compute. reflexivity.
  - vm_compute. reflexivity.
  - vm_compute. discriminate.
Defined.

Lemma maskRest_spec (sys : EntitySystem) (idx0 : Z) (cs : list string) :
  forall acc m,
    maskRest sys idx0 acc cs = Ok m ->
    (forall c, In c cs ->
       exists en, mapGet (components sys) c = Some en
                  /\ arrayIndex en = idx0)
    /\ m = Z.lor acc (tagBits sys cs idx0).
Proof.
  induction cs as [|c cs IH]; intros acc m H; simpl in H.
  - injection H as <-. split; [intros c []|]. simpl. now rewrite Z.lor_0_r.
  - destruct (mapGet (components sys) c) as [en|] eqn:Ec; [|discriminate H].
    destruct (Z.eqb_spec (arrayIndex en) idx0) as [Ei|Ei]; [|discriminate H].
    apply IH in H. destruct H as (Hall & ->). split.
    + intros c' [<-|Hin]; [exists en; auto|now apply Hall].
    + rewrite tagBits_cons, Ec.
      destruct (Z.eqb_spec (arrayIndex en) idx0); [|contradiction].
      now rewrite Z.lor_assoc.
Qed.

Lemma maskRest_total (sys : EntitySystem) (idx0 : Z) (cs : list string) :
  forall acc,
    (forall c, In c cs -> mapGet (components sys) c <> None) ->
    (exists m, maskRest sys idx0 acc cs = Ok m)
    \/ maskRest sys idx0 acc cs
       = Throw (Error
           "mask: All given components must belong to the same table").
Proof.
  induction cs as [|c cs IH]; intros acc H; simpl.
  - left. eexists. reflexivity.
  - destruct (mapGet (components sys) c) as [en|] eqn:Ec.
    + destruct (arrayIndex en =? idx0); [|now right].
      apply IH. intros c' Hin. apply H. now right.
    + exfalso. apply (H c); [now left|exact Ec].
Qed.

(** X18.  [mask(names)] for an array of names that it accepts: the names
    are registered components of one and the same table, and the result is
    the OR of their masks. *)
Theorem maskOf_is_the_or_of_one_table (sys : EntitySystem)
    (cs : list string) (m : Z) :
  maskOf sys cs = Ok m ->
  exists a,
    (forall c, In c cs ->
       exists en, mapGet (components sys) c = Some en /\ arrayIndex en = a)
    /\ m = tagBits sys cs a
    /\ cs <> [].
Proof.
  unfold maskOf. intros H. destruct cs as [|c cs]; [discriminate H|].
  destruct (mapGet (components sys) c) as [en|] eqn:Ec; [|discriminate H].
  apply maskRest_spec in H. destruct H as (Hall & ->).
  exists (arrayIndex en). split.
  - intros c' [<-|Hin]; [exists en; auto|now apply Hall].
  - split; [|discriminate]. rewrite tagBits_cons, Ec, Z.eqb_refl.
    reflexivity.
Qed.

Lemma maskOf_is_the_or_of_one_table_witness :
  exists sys0 a,
    newEntitySystem twoTableConfig = Ok sys0
    /\ maskOf sys0 ["B"; "C"] = Ok 3
    /\ (forall c, In c ["B"; "C"] ->
          exists en, mapGet (components sys0) c = Some en
                     /\ arrayIndex en = a)
    /\ 3 = tagBits sys0 ["B"; "C"] a.
Proof.
  eexists.
  match goal with
  | |- exists a, ?A /\ _ =>
      assert (HA : A) by (vm_compute; reflexivity)
  end.
  match type of HA with
  | _ = Ok ?s0 =>
      assert (H : maskOf s0 ["B"; "C"] = Ok 3) by (vm_compute; reflexivity);
      destruct (maskOf_is_the_or_of_one_table s0 ["B"; "C"] 3 H)
        as (a & H1 & H2 & _)
  end.
  exists a. split; [exact HA|]. split; [exact H|]. split; [exact H1|exact H2].
Defined.

(** X19.  [mask(names)] fails with its error when the names are all
    registered and two of them belong to different tables. *)
Theorem maskOf_rejects_names_of_two_tables (sys : EntitySystem)
    (cs : list string) (c1 c2 : string) (en1 en2 : ComponentEntry) :
  (forall c, In c cs -> mapGet (components sys) c <> None) ->
  In c1 cs -> In c2 cs ->
  mapGet (components sys) c1 = Some en1 ->
  mapGet (components sys) c2 = Some en2 ->
  arrayIndex en1 <> arrayIndex en2 ->
  maskOf sys cs
  = Throw (Error "mask: All given components must belong to the same table").
Proof.
  intros Hreg H1 H2 E1 E2 Hne. unfold maskOf.
  destruct cs as [|c cs]; [destruct H1|].
  destruct (mapGet (components sys) c) as [en|] eqn:Ec;
    [|exfalso; apply (Hreg c); [now left|exact Ec]].
  destruct (maskRest_total sys (arrayIndex en) cs (mask en)) as [(m & Hm)|Hm];
    [intros c' Hin; apply Hreg; now right| |exact Hm].
  exfalso. apply maskRest_spec in Hm. destruct Hm as (Hall & _).
  assert (Hi : forall c' en', In c' (c :: cs) ->
                 mapGet (components sys) c' = Some en' ->
                 arrayIndex en' = arrayIndex en).
  { intros c' en' [<-|Hin] Hc'.
    - rewrite Ec in Hc'. now injection Hc' as <-.
    - destruct (Hall c' Hin) as (en'' & Hc'' & Hi'').
      rewrite Hc' in Hc''. now injection Hc'' as <-. }
  apply Hne. rewrite (Hi c1 en1 H1 E1), (Hi c2 en2 H2 E2). reflexivity.
Qed.

Lemma maskOf_rejects_names_of_two_tables_witness :
  exists sys0,
    newEntitySystem twoTableConfig = Ok sys0
    /\ maskOf sys0 ["B"; "A"]
       = Throw (Error
           "mask: All given components must belong to the same table").
Proof.
  eexists. split; [vm_compute; reflexivity|].
  match goal with
  | |- maskOf ?s0 _ = _ =>
      apply (maskOf_rejects_names_of_two_tables s0 ["B"; "A"] "B" "A"
               (mkComponentEntry "B" ["b"] 1 1)
               (mkComponentEntry "A" ["a"] 0 2))
  end.
  - intros c [<-|[<-|[]]]; vm_compute; discriminate.
  - left. reflexivity.
  - right. left. reflexivity.
  - vm_compute. reflexivity.
  - vm_compute. reflexivity.
  - simpl. discriminate.
Defined.

(** ** Adding and removing one component *)

Lemma toNumber_Ok (b n : Z) : toNumber b = Ok n -> n = b.
Proof.
  unfold toNumber. destruct (Z.abs b <? 2 ^ 53); [|discriminate].
  now intros [= <-].
Qed.


Lemma land_lnot_same (w m : Z) : Z.land (Z.land w (Z.lnot m)) m = 0.
Proof.
  rewrite <- Z.land_assoc, (Z.land_comm (Z.lnot m)), Z.land_lnot_diag.
  apply Z.land_0_r.
Qed.




Lemma removeComponent_e (sys : EntitySystem) (entity : Z) (nm : string)
    (c : ComponentEntry) (sys' : EntitySystem) :
  mapGet (components sys) nm = Some c ->
  removeComponent sys entity nm = Ok sys' ->
  exists w,
    maskWord sys entity (arrayIndex c) = Some w
    /\ s sys' = s sys /\ maskSize sys' = maskSize sys
    /\ alen (e sys') = alen (e sys)
    /\ calls sys'
       = (calls sys
          ++ runExitHandlers (exitHandlers sys) entity w
               (Z.land w (Z.lnot (mask c))))%list
    /\ entryHandlers sys' = entryHandlers sys
    /\ exitHandlers sys' = exitHandlers sys
    /\ forall idx,
         idx <> entity * sizeOf (s sys) + maskSize sys + arrayIndex c ->
         aget (e sys') idx
         = aget (aset (e sys) (entity * sizeOf (s sys) + arrayIndex c)
                      (Z.land w (Z.lnot (mask c)))) idx.
Proof.
  intros Hc H. unfold removeComponent in H. rewrite Hc in H.
  apply bind_Ok in H. destruct H as (w & Ew & H).
  apply bind_Ok in H. destruct H as (nv & En & H).
  apply toNumber_Ok in En. subst nv.
  unfold maskWord.
  destruct (aget (e sys) (entity * sizeOf (s sys) + arrayIndex c)) as [w0|];
    [|discriminate Ew].
  injection Ew as ->. exists w. split; [reflexivity|].
  assert (G : forall sys1,
            sys1 = add_calls
                     (set_e sys
                        (aset (e sys) (entity * sizeOf (s sys) + arrayIndex c)
                              (Z.land w (Z.lnot (mask c)))))
                     (runExitHandlers (exitHandlers sys) entity w
                        (Z.land w (Z.lnot (mask c)))) ->
            s sys1 = s sys /\ maskSize sys1 = maskSize sys
            /\ alen (e sys1) = alen (e sys)
            /\ calls sys1
               = (calls sys
                  ++ runExitHandlers (exitHandlers sys) entity w
                       (Z.land w (Z.lnot (mask c))))%list
            /\ entryHandlers sys1 = entryHandlers sys
            /\ exitHandlers sys1 = exitHandlers sys
            /\ forall idx,
                 idx <> entity * sizeOf (s sys) + maskSize sys + arrayIndex c ->
                 aget (e sys1) idx
                 = aget (aset (e sys)
                              (entity * sizeOf (s sys) + arrayIndex c)
                              (Z.land w (Z.lnot (mask c)))) idx).
  { intros sys1 ->. simpl. rewrite alen_aset. repeat split; auto. }
  destruct (tableAt (tables sys) (arrayIndex c)) as [t|];
    [|injection H as <-; now apply G].
  destruct (Z.land (Z.land w (Z.lnot (mask c))) (combinedMask (st t)) =? 0);
    [|injection H as <-; now apply G].
  destruct (aget _ (entity * sizeOf (s sys) + maskSize sys + arrayIndex c))
    as [row|]; [|injection H as <-; now apply G].
  destruct (0 <=? row); [|injection H as <-; now apply G].
  apply bind_Ok in H. destruct H as (q & _ & H). injection H as <-.
  simpl. rewrite !alen_aset. repeat split; auto.
  intros idx Hidx. now rewrite aget_aset_ne.
Qed.

(** X21.  [removeComponent] clears the bits of the component in the
    entity's mask word for its table, so that the entity no longer carries
    the component (a component has a non-zero mask); the other mask words
    of the entity and the rows of all other entities are as before, and the
    callbacks that run are those of the exit handlers for the change of
    that one word. *)
Theorem removeComponent_clears_the_mask_bits (sys : EntitySystem)
    (entity : Z) (nm : string) (c : ComponentEntry) (sys' : EntitySystem) :
  mapGet (components sys) nm = Some c ->
  0 <= arrayIndex c < maskSize sys ->
  mask c <> 0 ->
  removeComponent sys entity nm = Ok sys' ->
  exists w,
    maskWord sys entity (arrayIndex c) = Some w
    /\ maskWord sys' entity (arrayIndex c)
       = Some (Z.land w (Z.lnot (mask c)))
    /\ carries sys' entity c = false
    /\ (forall j, 0 <= j < maskSize sys -> j <> arrayIndex c ->
          maskWord sys' entity j = maskWord sys entity j)
    /\ (forall idx,
          idx < entity * sizeOf (s sys)
          \/ entity * sizeOf (s sys) + 2 * maskSize sys <= idx ->
          aget (e sys') idx = aget (e sys) idx)
    /\ calls sys'
       = (calls sys
          ++ runExitHandlers (exitHandlers sys) entity w
               (Z.land w (Z.lnot (mask c))))%list.
Proof.
  intros Hc Hai Hm H.
  destruct (removeComponent_e sys entity nm c sys' Hc H)
    as (w & Hw & Hs & Hms & Hl & Hcalls & _ & _ & He).
  exists w. split; [exact Hw|].
  assert (Hnew : maskWord sys' entity (arrayIndex c)
                 = Some (Z.land w (Z.lnot (mask c)))).
  { unfold maskWord in *. rewrite Hs, He by lia.
    apply aget_aset_eq. eapply aget_Some_range. exact Hw. }
  split; [exact Hnew|]. split.
  { unfold carries. rewrite Hnew, land_lnot_same.
    apply Z.eqb_neq. congruence. }
  split.
  { intros j Hj Hne. unfold maskWord. rewrite Hs, He by lia.
    apply aget_aset_ne. lia. }
  split; [|exact Hcalls].
  intros idx Hidx. rewrite He by lia. apply aget_aset_ne. lia.
Qed.

Lemma removeComponent_clears_the_mask_bits_witness :
  exists sys sys' w,
    demoMarked = Ok sys
    /\ removeComponent sys 0 "Marked" = Ok sys'
    /\ maskWord sys 0 0 = Some w
    /\ carries sys' 0 (mkComponentEntry "Marked" [] 0 8) = false.
Proof.
  eexists. eexists.
  match goal with
  | |- exists w, ?A /\ ?B /\ _ =>
      assert (HA : A) by (vm_compute; reflexivity);
      assert (HB : B) by (vm_compute; reflexivity)
  end.
  match type of HB with
  | removeComponent ?s1 _ _ = Ok ?s2 =>
      destruct (removeComponent_clears_the_mask_bits s1 0 "Marked"
                  (mkComponentEntry "Marked" [] 0 8) s2)
        as (w & H1 & _ & H3 & _)
  end.
  - vm_compute. reflexivity.
  - vm_compute. split; [discriminate|reflexivity].
  - discriminate.
  - exact HB.
  - exists w. split; [exact HA|]. split; [exact HB|].
    split; [exact H1|exact H3].
Defined.

(** ** Handlers and the direction of a change *)

Lemma land_sub_trans (a b m : Z) :
  Z.land a b = a -> Z.land a m = m -> Z.land b m = m.
Proof.
  intros Hab Ham. apply Z.bits_inj'. intros n Hn.
  apply (f_equal (fun z => Z.testbit z n)) in Hab, Ham.
  rewrite Z.land_spec in *.
  destruct (Z.testbit a n), (Z.testbit b n), (Z.testbit m n);
    simpl in *; congruence.
Qed.

(** X22.  When the bits of [a] are among the bits of [b], the update of a
    mask word from [b] to [a] (bits are only removed) runs no entry
    handler, and the update from [a] to [b] (bits are only added) runs no
    exit handler, whatever handlers are registered. *)
Theorem handlers_need_a_change_in_their_direction (hs : handlers)
    (entity a b : Z) :
  Z.land a b = a ->
  runEntryHandlers hs entity b a = []
  /\ runExitHandlers hs entity a b = [].
Proof.
  intros H. split; induction hs as [|[m fn] hs IH]; simpl; try reflexivity.
  - destruct (Z.eqb_spec (Z.land a m) m) as [Hn|Hn]; simpl; [|exact IH].
    rewrite (land_sub_trans _ _ _ H Hn), Z.eqb_refl. simpl. exact IH.
  - destruct (Z.eqb_spec (Z.land a m) m) as [Hb|Hb];
      [|rewrite andb_false_r; exact IH].
    rewrite (land_sub_trans _ _ _ H Hb), Z.eqb_refl. simpl. exact IH.
Qed.

Lemma handlers_need_a_change_in_their_direction_witness :
  runEntryHandlers [(2, 7%nat); (4, 8%nat)] 0 6 2 = []
  /\ runExitHandlers [(2, 7%nat); (4, 8%nat)] 0 2 6 = [].
Proof.
  apply (handlers_need_a_change_in_their_direction
           [(2, 7%nat); (4, 8%nat)] 0 2 6).
  reflexivity.
Defined.

(** ** The export *)

Lemma exportProps_id (sys : EntitySystem) (masks : option (list Z))
    (rowOffset : Z) (ps : list (string * PropConfig)) :
  (forall kv, In kv ps -> pname (snd kv) <> "_id") ->
  forall entity cd entity' cd',
    exportProps sys masks rowOffset ps entity cd = Ok (entity', cd') ->
    mapGet entity' "_id" = mapGet entity "_id".
Proof.
  induction ps as [|[k cfg] ps IH]; intros Hp entity cd entity' cd' H;
    simpl in H.
  - now injection H as <- _.
  - assert (Hps : forall kv, In kv ps -> pname (snd kv) <> "_id").
    { intros kv Hin. apply Hp. now right. }
    apply bind_Ok in H. destruct H as (cm & _ & H).
    apply bind_Ok in H. destruct H as (b & _ & H).
    destruct b; [|now apply (IH Hps) in H].
    destruct (aget (e sys) (maskSize sys + rowOffset + array cfg))
      as [columnRow|]; [|now apply (IH Hps) in H].
    destruct (0 <=? columnRow); [|now apply (IH Hps) in H].
    destruct (tableAt (tables sys) (array cfg)) as [t|]; [|discriminate H].
    apply (IH Hps) in H. rewrite H. apply mapGet_mapSet_ne.
    apply (Hp (k, cfg)). now left.
Qed.

Lemma exportEntity_id (sys : EntitySystem) (masks : option (list Z)) (i : Z)
    (en : template) :
  (forall kv, In kv (componentsByProp sys) -> pname (snd kv) <> "_id") ->
  exportEntity sys masks i = Ok (Some en) ->
  exists_ sys i = true /\ templateId en = Some i.
Proof.
  intros Hp H. unfold exportEntity in H.
  destruct (exists_ sys i); [|discriminate H]. split; [reflexivity|].
  apply bind_Ok in H. destruct H as (tags & _ & H).
  destruct (Nat.eqb (length tags) 0);
    apply bind_Ok in H; destruct H as ([entity2 cd] & E & H);
    destruct cd; try discriminate H; injection H as <-;
    apply (exportProps_id _ _ _ _ Hp) in E; unfold templateId; rewrite E;
    reflexivity.
Qed.

Lemma exportRows_ids (sys : EntitySystem) (masks : option (list Z))
    (rows : list Z) :
  (forall kv, In kv (componentsByProp sys) -> pname (snd kv) <> "_id") ->
  forall json,
    exportRows sys masks rows = Ok json ->
    exists l,
      withIds json = Ok l
      /\ map snd l = json
      /\ (forall i, In i (map fst l) -> In i rows /\ exists_ sys i = true)
      /\ (StronglySorted Z.lt rows -> StronglySorted Z.lt (map fst l)).
Proof.
  intros Hp. induction rows as [|i rows IH]; intros json H; simpl in H.
  - injection H as <-. exists []. repeat split; auto; try (intros i []).
  - apply bind_Ok in H. destruct H as (o & Eo & H).
    apply bind_Ok in H. destruct H as (es & Ee & H). injection H as <-.
    destruct (IH es Ee) as (l & Hw & Hs & Hin & Hsort).
    destruct o as [en|].
    + apply (exportEntity_id _ _ _ _ Hp) in Eo. destruct Eo as (Hex & Hid).
      exists ((i, en) :: l). simpl. rewrite Hid, Hw. simpl.
      split; [reflexivity|]. split; [now rewrite Hs|]. split.
      * intros j [<-|Hj]; [split; [now left|exact Hex]|].
        destruct (Hin j Hj). split; [now right|assumption].
      * intros Hrows. apply StronglySorted_inv in Hrows.
        destruct Hrows as (Hr & Hall). constructor; [now apply Hsort|].
        apply Forall_forall. intros j Hj. apply list_elem_of_In in Hj.
        destruct (Hin j Hj) as (Hjr & _).
        rewrite Forall_forall in Hall. apply Hall.
        now apply list_elem_of_In.
    + exists l. split; [exact Hw|]. split; [exact Hs|]. split.
      * intros j Hj. destruct (Hin j Hj). split; [now right|assumption].
      * intros Hrows. apply StronglySorted_inv in Hrows. now apply Hsort.
Qed.

Lemma seqZ_sorted (n : Z) : StronglySorted Z.lt (seqZ 0 n).
Proof.
  pose proof (filter_seqZ_sorted (fun _ => true) n 0) as H.
  assert (E : forall l : list Z, List.filter (fun _ => true) l = l).
  { induction l as [|x l IH]; simpl; [reflexivity|now rewrite IH]. }
  now rewrite E in H.
Qed.

(** X23.  Every object that [toJSON] exports carries a numeric [_id]; the
    ids are those of entities that exist, each below the high-water mark of
    the entity table, and they come in ascending order without
    repetition.  (No prop is named [_id]: the constructor refuses such a
    configuration.) *)
Theorem toJSON_exports_live_entities_in_order (sys : EntitySystem)
    (masks : option (list Z)) (json : list template) :
  (forall kv, In kv (componentsByProp sys) -> pname (snd kv) <> "_id") ->
  toJSON sys masks = Ok json ->
  exists l,
    withIds json = Ok l
    /\ map snd l = json
    /\ StronglySorted Z.lt (map fst l)
    /\ forall i, In i (map fst l) ->
         0 <= i < rowCounter (s sys) /\ exists_ sys i = true.
Proof.
  intros Hp H. unfold toJSON in H.
  destruct (sizeOf (s sys) =? maskSize sys * 2); [|discriminate H].
  destruct (exportRows_ids sys masks _ Hp json H) as (l & Hw & Hs & Hin & Hso).
  exists l. split; [exact Hw|]. split; [exact Hs|].
  split; [apply Hso, seqZ_sorted|].
  intros i Hi. destruct (Hin i Hi) as (Hr & Hex). split; [|exact Hex].
  apply list_elem_of_In, elem_of_seqZ in Hr. lia.
Qed.

Lemma toJSON_exports_live_entities_in_order_witness :
  exists sys (l : list (Z * template)),
    demoTwoAppearances = Ok sys
    /\ toJSON sys None
       = Ok [[("_id", TNum 0); ("x", TNum 0); ("y", TNum 0); ("z", TNum 0)];
             [("_id", TNum 1); ("x", TNum 0); ("y", TNum 0); ("z", TNum 0)]]
    /\ map fst l = [0; 1]
    /\ StronglySorted Z.lt (map fst l).
Proof.
  eexists.
  match goal with
  | |- exists l, ?A /\ ?B /\ _ =>
      assert (HA : A) by (vm_compute; reflexivity)
  end.
  match type of HA with
  | _ = Ok ?s0 =>
      assert (HB : toJSON s0 None
                   = Ok [[("_id", TNum 0); ("x", TNum 0); ("y", TNum 0);
                          ("z", TNum 0)];
                         [("_id", TNum 1); ("x", TNum 0); ("y", TNum 0);
                          ("z", TNum 0)]])
        by (vm_compute; reflexivity);
      assert (Hp : forall kv, In kv (componentsByProp s0) ->
                     pname (snd kv) <> "_id")
        by (intros kv Hin; simpl in Hin;
            destruct Hin as [<-|[<-|[<-|[<-|[]]]]]; discriminate);
      destruct (toJSON_exports_live_entities_in_order s0 None _ Hp HB)
        as (l & Hw & _ & Hso & _)
  end.
  exists l. split; [exact HA|]. split; [exact HB|].
  vm_compute in Hw. injection Hw as <-. split; [reflexivity|exact Hso].
Defined.

(** ** What holds in every state *)

Lemma constructed_entity_table (cfg : EntitySystemConfig)
    (sys : EntitySystem) :
  newEntitySystem cfg = Ok sys ->
  maskSize sys = Z.of_nat (length (effectiveLayout cfg))
  /\ s sys = newTableState (2 * maskSize sys) 0
  /\ alen (e sys) = 2 * maskSize sys * default 1024 (entityCount cfg)
  /\ (forall i, 0 <= i < alen (e sys) -> aget (e sys) i = Some 0)
  /\ entryHandlers sys = [] /\ exitHandlers sys = [] /\ calls sys = [].
Proof.
  unfold newEntitySystem, loadConfig. intros H.
  destruct (loadComponents (Components cfg) [] []) as [[comps byProp]| |];
    try discriminate H.
  simpl in H.
  apply bind_Ok in H. destruct H as (e0 & Ee & H).
  apply bind_Ok in H. destruct H as ([[comps' byProp'] tabs] & _ & H).
  apply bind_Ok in H. destruct H as (byProp'' & _ & H).
  injection H as <-. simpl.
  unfold newArray in Ee.
  destruct (Z.of_nat (length (effectiveLayout cfg)) * 2
            * default 1024 (entityCount cfg) <? 0) eqn:El; [discriminate Ee|].
  injection Ee as <-. apply Z.ltb_ge in El.
  split; [reflexivity|]. split; [f_equal; lia|].
  split; [unfold alen; rewrite length_replicate; lia|].
  split; [|auto].
  intros i Hi. unfold alen in Hi. rewrite length_replicate in Hi.
  apply aget_replicate. lia.
Qed.

(** X24.  In every state of a system, a row of the entity table is two
    words for each table of the layout, the entity table is the one table
    whose rows are freed by clearing a bit, and the guard of [toJSON] on the
    row width does not fire: the export is the loop over the rows below the
    high-water mark. *)
Theorem entity_rows_hold_two_words_per_table (cfg : EntitySystemConfig)
    (sys : EntitySystem) :
  reachable cfg sys ->
  maskSize sys = Z.of_nat (length (effectiveLayout cfg))
  /\ sizeOf (s sys) = 2 * maskSize sys
  /\ isEntityTable (s sys) = true
  /\ forall masks,
       toJSON sys masks
       = exportRows sys masks (seqZ 0 (rowCounter (s sys))).
Proof.
  intros Hr. destruct (reachable_shape cfg sys Hr) as (sys0 & H0 & Hsh).
  apply shapeOf_inv in Hsh. destruct Hsh as (_ & _ & Hm & Hst & _).
  destruct (constructed_entity_table cfg sys0 H0) as (Hm0 & Hs0 & _).
  unfold tstatic in Hst. rewrite Hs0 in Hst. simpl in Hst.
  injection Hst as Hsz _ HisE. rewrite <- Hm in *.
  split; [exact Hm0|]. split; [exact Hsz|]. split; [exact HisE|].
  intros masks. unfold toJSON. rewrite Hsz.
  rewrite (Z.mul_comm 2), Z.eqb_refl. reflexivity.
Qed.

Lemma entity_rows_hold_two_words_per_table_witness :
  exists sys,
    demoOneHealth = Ok sys
    /\ sizeOf (s sys) = 2 * maskSize sys.
Proof.
  eexists. split; [vm_compute; reflexivity|].
  match goal with
  | |- sizeOf (s ?s1) = _ =>
      apply (entity_rows_hold_two_words_per_table demoConfig s1)
  end.
  eapply (reach_step _ _ (OpNewEntity (Some [("health", TNum 4)]) None)).
  - apply reach_new. vm_compute. reflexivity.
  - vm_compute. reflexivity.
Defined.

(** X25.  No call changes the registry or the layout: in every state
    the components, the props, the number of tables, and of every table the
    row width, the combined mask and its kind are those the constructor
    set. *)
Theorem no_call_changes_the_layout (cfg : EntitySystemConfig)
    (sys0 sys : EntitySystem) :
  newEntitySystem cfg = Ok sys0 ->
  reachable cfg sys ->
  components sys = components sys0
  /\ componentsByProp sys = componentsByProp sys0
  /\ maskSize sys = maskSize sys0
  /\ forall i,
       match tableAt (tables sys) i, tableAt (tables sys0) i with
       | Some t, Some t0 =>
           sizeOf (st t) = sizeOf (st t0)
           /\ combinedMask (st t) = combinedMask (st t0)
           /\ isEntityTable (st t) = isEntityTable (st t0)
       | None, None => True
       | _, _ => False
       end.
Proof.
  intros H0 Hr. destruct (reachable_shape cfg sys Hr) as (sys0' & H0' & Hsh).
  rewrite H0 in H0'. injection H0' as <-.
  apply shapeOf_inv in Hsh. destruct Hsh as (Hc & Hp & Hm & _ & Ht).
  split; [exact Hc|]. split; [exact Hp|]. split; [exact Hm|].
  intros i.
  destruct (tableAt (tables sys) i) as [t|] eqn:E.
  - destruct (tshape_tableAt _ _ i t Ht E) as (t0 & -> & Hst).
    unfold tstatic in Hst. injection Hst as H1 H2 H3. auto.
  - destruct (tableAt (tables sys0) i) as [t0|] eqn:E0; [|exact I].
    destruct (tshape_tableAt _ _ i t0 (eq_sym Ht) E0) as (t & Et & _).
    congruence.
Qed.

Lemma no_call_changes_the_layout_witness :
  exists sys0 sys,
    newEntitySystem demoConfig = Ok sys0
    /\ demoOneHealth = Ok sys
    /\ components sys = components sys0.
Proof.
  eexists. eexists.
  match goal with
  | |- ?A /\ ?B /\ _ =>
      assert (HA : A) by (vm_compute; reflexivity);
      assert (HB : B) by (vm_compute; reflexivity)
  end.
  split; [exact HA|]. split; [exact HB|].
  match type of HB with
  | _ = Ok ?s1 =>
      apply (no_call_changes_the_layout demoConfig _ s1 HA)
  end.
  eapply (reach_step _ _ (OpNewEntity (Some [("health", TNum 4)]) None)).
  - apply reach_new. exact HA.
  - vm_compute. reflexivity.
Defined.



(** ** The registry of props *)

(** The key, the component and the name of every registered prop. *)
Lemma mapSet_owner (m : list (string * PropConfig)) (k : string)
    (old v : PropConfig) :
  mapGet m k = Some old ->
  component v = component old -> pname v = pname old ->
  map (fun kv => (fst kv, (component (snd kv), pname (snd kv)))) (mapSet m k v)
  = map (fun kv => (fst kv, (component (snd kv), pname (snd kv)))) m.
Proof.
  intros Hg Hc Hp. induction m as [|[k0 v0] m IH]; [discriminate Hg|].
  rewrite mapGet_cons in Hg. simpl.
  destruct (String.eqb k0 k) eqn:E.
  - injection Hg as ->. apply String.eqb_eq in E. subst k0. simpl.
    now rewrite Hc, Hp.
  - simpl. now rewrite IH.
Qed.

Lemma loadProps_owner (comp : string) (names : list string) :
  forall byProp byProp',
    loadProps comp names byProp = Ok byProp' ->
    map (fun kv => (fst kv, (component (snd kv), pname (snd kv)))) byProp'
    = (map (fun kv => (fst kv, (component (snd kv), pname (snd kv)))) byProp
       ++ map (fun n => (n, (comp, n))) names)%list.
Proof.
  induction names as [|n rest IH]; intros byProp byProp' H; simpl in H.
  - injection H as <-. now rewrite app_nil_r.
  - destruct (String.length n =? 0)%nat; [discriminate|].
    destruct (String.eqb n "_" || String.eqb n "_id"); [discriminate|].
    destruct (mapGet byProp n) eqn:Eg; [discriminate|].
    apply IH in H. rewrite H, (mapSet_absent _ _ _ Eg), map_app. simpl.
    now rewrite <- app_assoc.
Qed.

Lemma loadComponents_owner (cs : list (string * list string)) :
  forall comps byProp comps' byProp',
    loadComponents cs comps byProp = Ok (comps', byProp') ->
    map (fun kv => (fst kv, (component (snd kv), pname (snd kv)))) byProp'
    = (map (fun kv => (fst kv, (component (snd kv), pname (snd kv)))) byProp
       ++ flat_map (fun cn => map (fun n => (n, (fst cn, n))) (snd cn)) cs)%list.
Proof.
  induction cs as [|[c names] rest IH]; intros comps byProp comps' byProp' H;
    simpl in H.
  - injection H as <- <-. now rewrite app_nil_r.
  - apply bind_Ok in H. destruct H as (byProp1 & E & H).
    apply loadProps_owner in E. apply IH in H. rewrite H, E. simpl.
    now rewrite <- app_assoc.
Qed.

Lemma layoutProps_owner (i m : Z) (names : list string) :
  forall byProp off comb byProp' off' comb',
    layoutProps i m names byProp off comb = Ok (byProp', off', comb') ->
    map (fun kv => (fst kv, (component (snd kv), pname (snd kv)))) byProp'
    = map (fun kv => (fst kv, (component (snd kv), pname (snd kv)))) byProp.
Proof.
  induction names as [|n rest IH]; intros byProp off comb byProp' off' comb' H;
    simpl in H.
  - now injection H as <- _ _.
  - destruct (mapGet byProp n) as [cfg|] eqn:Eg; [|discriminate H].
    apply IH in H. rewrite H. now apply (mapSet_owner _ _ cfg).
Qed.

Lemma layoutComponents_owner (i : Z) (names : list string) :
  forall acc acc',
    layoutComponents i names acc = Ok acc' ->
    map (fun kv => (fst kv, (component (snd kv), pname (snd kv))))
        (accByProp acc')
    = map (fun kv => (fst kv, (component (snd kv), pname (snd kv))))
          (accByProp acc).
Proof.
  induction names as [|c rest IH]; intros acc acc' H; simpl in H.
  - now injection H as <-.
  - destruct (mapGet (accComponents acc) c) as [entry|]; [|discriminate H].
    apply bind_Ok in H. destruct H as ([[byProp off] comb] & E & H).
    apply layoutProps_owner in E. apply IH in H. simpl in H. congruence.
Qed.

Lemma layoutTables_owner (layout : list LayoutJSON) :
  forall i comps byProp tabs comps' byProp' tabs',
    layoutTables i layout comps byProp tabs = Ok (comps', byProp', tabs') ->
    map (fun kv => (fst kv, (component (snd kv), pname (snd kv)))) byProp'
    = map (fun kv => (fst kv, (component (snd kv), pname (snd kv)))) byProp.
Proof.
  induction layout as [|l rest IH];
    intros i comps byProp tabs comps' byProp' tabs' H; simpl in H.
  - now injection H as _ <- _.
  - apply bind_Ok in H. destruct H as (acc & E & H).
    apply layoutComponents_owner in E. simpl in E.
    destruct (1 <? accOffset acc).
    + apply bind_Ok in H. destruct H as (a & _ & H).
      destruct (10 <=? i); [discriminate H|].
      apply IH in H. congruence.
    + apply IH in H. congruence.
Qed.

Lemma propSizes_owner (tabs : list (option Table))
    (byProp : list (string * PropConfig)) :
  forall byProp',
    propSizes tabs byProp = Ok byProp' ->
    map (fun kv => (fst kv, (component (snd kv), pname (snd kv)))) byProp'
    = map (fun kv => (fst kv, (component (snd kv), pname (snd kv)))) byProp.
Proof.
  induction byProp as [|[k cfg] rest IH]; intros byProp' H; simpl in H.
  - now injection H as <-.
  - destruct (tableAt tabs (array cfg)); [|discriminate H].
    apply bind_Ok in H. destruct H as (rest' & E & H). injection H as <-.
    simpl. now rewrite (IH _ E).
Qed.

Lemma mapGet_owner (m : list (string * PropConfig)) (k : string)
    (v : PropConfig) :
  mapGet m k = Some v ->
  In (k, (component v, pname v))
     (map (fun kv => (fst kv, (component (snd kv), pname (snd kv)))) m).
Proof.
  intros H. apply mapGet_In in H.
  apply (in_map (fun kv => (fst kv, (component (snd kv), pname (snd kv))))) in H.
  exact H.
Qed.

Lemma owner_mapGet (m : list (string * PropConfig)) (k : string)
    (x : string * string) :
  NoDup (map fst m) ->
  In (k, x) (map (fun kv => (fst kv, (component (snd kv), pname (snd kv)))) m) ->
  exists v, mapGet m k = Some v /\ (component v, pname v) = x.
Proof.
  induction m as [|[k0 v0] m IH]; intros Hnd Hin; [destruct Hin|].
  simpl in Hnd. apply NoDup_cons in Hnd. destruct Hnd as (Hk0 & Hnd).
  rewrite mapGet_cons. simpl in Hin. destruct Hin as [Heq|Hin].
  - injection Heq as -> <-. rewrite String.eqb_refl. eauto.
  - destruct (String.eqb k0 k) eqn:E; [|now apply IH].
    apply String.eqb_eq in E. subst k0. exfalso. apply Hk0.
    apply list_elem_of_In.
    apply (in_map fst) in Hin. rewrite map_map in Hin. simpl in Hin.
    exact Hin.
Qed.

(** X27.  After the constructor, the registry of props is that of the
    configuration: a name is registered exactly when it is a prop of a
    component of the configuration, [findComponentByProp] answers with
    that component, and [getPropConfig] with an entry of that component
    and that name. *)
Theorem findComponentByProp_is_the_owner (cfg : EntitySystemConfig)
    (sys : EntitySystem) :
  newEntitySystem cfg = Ok sys ->
  (forall c props p,
     In (c, props) (Components cfg) -> In p props ->
     findComponentByProp sys p = Ok c
     /\ exists pc, getPropConfig sys p = Ok pc
                   /\ component pc = c /\ pname pc = p)
  /\ (forall p c,
        findComponentByProp sys p = Ok c ->
        exists props, In (c, props) (Components cfg) /\ In p props).
Proof.
  unfold newEntitySystem, loadConfig. intros H.
  destruct (loadComponents (Components cfg) [] []) as [[comps byProp]| |]
    eqn:El; try discriminate H.
  simpl in H.
  apply bind_Ok in H. destruct H as (e0 & _ & H).
  apply bind_Ok in H. destruct H as ([[comps' byProp'] tabs] & Et & H).
  apply bind_Ok in H. destruct H as (byProp'' & Ep & H).
  injection H as <-.
  pose proof (loadComponents_owner _ _ _ _ _ El) as Ho. simpl in Ho.
  apply loadComponents_keys in El. destruct El as (Hk & _ & Hnd).
  simpl in Hk. specialize (Hnd (NoDup_nil_2)).
  apply layoutTables_owner in Et. apply propSizes_owner in Ep.
  rewrite Et, Ho in Ep.
  assert (Hkeys : NoDup (map fst byProp'')).
  { replace (map fst byProp'')
      with (map fst (map (fun kv => (fst kv, (component (snd kv),
                                              pname (snd kv)))) byProp''))
      by (rewrite map_map; reflexivity).
    rewrite Ep.
    replace (map fst (flat_map (fun cn => map (fun n => (n, (fst cn, n)))
                                             (snd cn)) (Components cfg)))
      with (map fst byProp); [exact Hnd|].
    rewrite Hk. clear. induction (Components cfg) as [|[c names] cs IH];
      [reflexivity|].
    simpl. rewrite map_app, map_map. simpl. rewrite map_id. now rewrite IH. }
  unfold findComponentByProp, getPropConfig. simpl. split.
  - intros c props p Hc Hp.
    destruct (owner_mapGet byProp'' p (c, p) Hkeys) as (v & Hv & Hx).
    { rewrite Ep. apply in_flat_map. exists (c, props). split; [exact Hc|].
      simpl. apply in_map_iff. exists p. auto. }
    rewrite Hv. injection Hx as Hx1 Hx2. split; [now rewrite Hx1|].
    exists v. auto.
  - intros p c Hf.
    destruct (mapGet byProp'' p) as [v|] eqn:Ev; [|discriminate Hf].
    injection Hf as <-. apply mapGet_owner in Ev. rewrite Ep in Ev.
    apply in_flat_map in Ev. destruct Ev as ([c' names] & Hc' & Hin).
    simpl in Hin. apply in_map_iff in Hin. destruct Hin as (n & Hn & Hin).
    injection Hn as -> <- _. exists names. auto.
Qed.

Lemma findComponentByProp_is_the_owner_witness :
  exists sys0,
    newEntitySystem demoConfig = Ok sys0
    /\ findComponentByProp sys0 "health" = Ok "Health".
Proof.
  eexists.
  match goal with
  | |- ?A /\ _ =>
      assert (HA : A) by (vm_compute; reflexivity)
  end.
  split; [exact HA|].
  apply (proj1 (findComponentByProp_is_the_owner demoConfig _ HA)
           "Health" ["health"] "health").
  - right. left. reflexivity.
  - left. reflexivity.
Defined.

(** X28.  A system fresh from the constructor has no entity: no id
    exists, [forEach] visits nothing, the export is empty, and no handler is
    registered. *)
Theorem a_new_system_has_no_entity (cfg : EntitySystemConfig)
    (sys : EntitySystem) :
  newEntitySystem cfg = Ok sys ->
  (forall i, exists_ sys i = false)
  /\ (forall arrayIndex bMask, forEach sys arrayIndex bMask = Ok [])
  /\ (forall masks, toJSON sys masks = Ok [])
  /\ entryHandlers sys = [] /\ exitHandlers sys = [] /\ calls sys = [].
Proof.
  intros H.
  destruct (constructed_entity_table cfg sys H)
    as (Hm & Hs & Hl & Hz & He & Hx & Hc).
  split.
  { intros i. unfold exists_.
    destruct (aget (e sys) (i * sizeOf (s sys))) as [v|] eqn:Ev;
      [|reflexivity].
    rewrite Hz in Ev by (eapply aget_Some_range; exact Ev).
    now injection Ev as <-. }
  split.
  { intros ai m. unfold forEach. rewrite Hs. reflexivity. }
  split; [|auto].
  intros masks. unfold toJSON. rewrite Hs. simpl.
  rewrite (Z.mul_comm 2), Z.eqb_refl. reflexivity.
Qed.

Lemma a_new_system_has_no_entity_witness :
  exists sys0,
    newEntitySystem demoConfig = Ok sys0
    /\ toJSON sys0 None = Ok [].
Proof.
  eexists.
  match goal with
  | |- ?A /\ _ =>
      assert (HA : A) by (vm_compute; reflexivity)
  end.
  split; [exact HA|].
  apply (a_new_system_has_no_entity demoConfig _ HA).
Defined.

(** ** Growth of a data table, and an empty import *)

(** X29.  When [addComponent] has to claim a row and the data table is
    full, the table is replaced by its doubled copy, and the
    back-reference to the entity is written to the array that was replaced:
    in the table the system then holds, the cell for the back-reference of
    the row the entity points to is zero, or lies past the end of the
    table. *)
Theorem addComponent_on_a_full_table_loses_the_back_reference
    (sys : EntitySystem) (entity : Z) (nm : string) (c : ComponentEntry)
    (t : Table) (w r : Z) (t' : Table) :
  mapGet (components sys) nm = Some c ->
  propNames c <> [] ->
  0 < maskSize sys ->
  maskWord sys entity (arrayIndex c) = Some w ->
  Z.abs (Z.lor w (mask c)) < 2 ^ 53 ->
  lt0 (offsetWord sys entity (arrayIndex c)) = true ->
  tableAt (tables sys) (arrayIndex c) = Some t ->
  insertRow t None = Ok (r, t', true) ->
  exists sys',
    addComponent sys entity nm = Ok sys'
    /\ offsetWord sys' entity (arrayIndex c) = Some r
    /\ tableAt (tables sys') (arrayIndex c) = Some t'
    /\ arr t' = grow (arr t)
    /\ (aget (arr t') (r * sizeOf (st t')) = Some 0
        \/ aget (arr t') (r * sizeOf (st t')) = None).
Proof.
  intros Hc Hp Hm Hw Hb Ho Ht Hi. unfold addComponent. rewrite Hc.
  unfold maskWord, offsetWord in *. rewrite Hw. simpl.
  unfold toNumber. apply Z.ltb_lt in Hb. rewrite Hb. simpl.
  rewrite aget_aset_ne by lia. rewrite Ho.
  destruct (propNames c) as [|p ps] eqn:Ep; [contradiction|]. simpl.
  rewrite Ht, Hi. simpl. eexists. split; [reflexivity|]. simpl.
  destruct (aget (e sys) (entity * sizeOf (s sys) + maskSize sys
                          + arrayIndex c)) as [o|] eqn:Eo; [|discriminate Ho].
  split.
  { apply aget_aset_eq. rewrite alen_aset. eapply aget_Some_range. exact Eo. }
  split; [apply (tableAt_setTable_eq _ _ _ _ Ht)|].
  pose proof (insertRow_arr _ _ _ _ _ Hi) as (Hg & Ha & Hsz & _).
  split; [exact Ha|]. rewrite Ha, Hsz.
  symmetry in Hg. apply Z.leb_le in Hg.
  destruct (aget (grow (arr t)) (r * sizeOf (st t))) as [v|] eqn:Ev;
    [left|now right].
  unfold grow, aget, alen in *.
  destruct (r * sizeOf (st t) <? 0); [discriminate Ev|].
  rewrite lookup_app_r in Ev by lia.
  apply lookup_replicate_1 in Ev. destruct Ev as (-> & _). reflexivity.
Qed.

Lemma addComponent_on_a_full_table_loses_the_back_reference_witness :
  exists sys sys',
    demoFull = Ok sys
    /\ addComponent sys 1 "Health" = Ok sys'
    /\ offsetWord sys' 1 0 = Some 1
    /\ (fun t => aget (arr t) 2) <$> tableAt (tables sys') 0 = Some (Some 0).
Proof.
  eexists.
  match goal with
  | |- exists sys', ?A /\ _ =>
      assert (HA : A) by (vm_compute; reflexivity)
  end.
  match type of HA with
  | _ = Ok ?s0 =>
      destruct (addComponent_on_a_full_table_loses_the_back_reference
                  s0 1 "Health" (mkComponentEntry "Health" ["health"] 0 2)
                  (mkTable [0; 1] (mkTableState 2 1 0 2 false None))
                  1 1
                  (mkTable [0; 1; 0; 0] (mkTableState 2 2 0 2 false None)))
        as (sys' & H1 & H2 & H3 & _)
  end.
  - vm_compute. reflexivity.
  - discriminate.
  - vm_compute. reflexivity.
  - vm_compute. reflexivity.
  - vm_compute. reflexivity.
  - vm_compute. reflexivity.
  - vm_compute. reflexivity.
  - vm_compute. reflexivity.
  - exists sys'. split; [exact HA|]. split; [exact H1|].
    split; [exact H2|]. simpl in H3. rewrite H3. reflexivity.
Defined.

Lemma countMissing_nonneg (a : list Z) (sz : Z) (fuel : nat) :
  forall i, 0 <= countMissing a sz i fuel.
Proof.
  induction fuel as [|fuel IH]; intros i; simpl; [lia|].
  destruct (i <? alen a); [|lia].
  specialize (IH (i + sz)). destruct (and1 (aget a i) =? 0); lia.
Qed.

(** X30.  A system imported from an export without entities counts every
    row of its entity table as removed, while the allocator has no row to
    start the search from: when the entity table is not empty, no entity
    exists and [newEntity] without an id fails with the allocator's
    error. *)
Theorem import_of_nothing_cannot_create_entities (cfg : EntitySystemConfig)
    (sys : EntitySystem) (tpl : option template) :
  fromJSON cfg [] = Ok sys ->
  0 < alen (e sys) ->
  (forall i, exists_ sys i = false)
  /\ 0 < removeCounter (s sys)
  /\ newEntity sys tpl None
     = Throw (Error
         "Illegal State: could not find empty slot but removeCounter > 0").
Proof.
  unfold fromJSON. intros H Hlen.
  apply bind_Ok in H. destruct H as (sys0 & E0 & H).
  simpl in H. injection H as <-. simpl in *.
  destruct (constructed_entity_table cfg sys0 E0)
    as (_ & Hs & _ & Hz & _).
  assert (Hrc : 0 < countMissing (e sys0) (sizeOf (s sys0)) 0
                                 (length (e sys0))).
  { unfold alen in Hlen. destruct (length (e sys0)) eqn:El; [lia|].
    simpl. unfold alen. rewrite El.
    destruct (Z.ltb_spec 0 (Z.of_nat (S n))) as [_|]; [|lia].
    rewrite (Hz 0) by (unfold alen; lia).
    pose proof (countMissing_nonneg (e sys0) (sizeOf (s sys0)) n
                  (0 + sizeOf (s sys0))).
    change (and1 (Some 0) =? 0) with true. cbv iota. lia. }
  split.
  { intros i. unfold exists_. simpl.
    destruct (aget (e sys0) (i * sizeOf (s sys0))) as [v|] eqn:Ev;
      [|reflexivity].
    rewrite Hz in Ev by (eapply aget_Some_range; exact Ev).
    now injection Ev as <-. }
  split; [exact Hrc|].
  unfold newEntity, insertRow. simpl.
  apply Z.ltb_lt in Hrc. rewrite Hrc. rewrite Hs. reflexivity.
Qed.

Lemma import_of_nothing_cannot_create_entities_witness :
  exists sys,
    fromJSON demoConfig [] = Ok sys
    /\ newEntity sys None None
       = Throw (Error
           "Illegal State: could not find empty slot but removeCounter > 0").
Proof.
  eexists.
  match goal with
  | |- ?A /\ _ =>
      assert (HA : A) by (vm_compute; reflexivity)
  end.
  split; [exact HA|].
  apply (import_of_nothing_cannot_create_entities demoConfig _ None HA).
  vm_compute. reflexivity.
Defined.

(** ** Templates *)

Lemma readMasks_length (a : list Z) (entityRow : Z) (idxs : list Z) :
  forall ms, readMasks a entityRow idxs = Ok ms -> length ms = length idxs.
Proof.
  induction idxs as [|i rest IH]; intros ms H; simpl in H.
  - now injection H as <-.
  - apply bind_Ok in H. destruct H as (m & _ & H).
    apply bind_Ok in H. destruct H as (ms' & E & H). injection H as <-.
    simpl. now rewrite (IH _ E).
Qed.

Lemma writeMasks_frame (masks : list Z) :
  forall sys entity j sys',
    writeMasks sys entity j masks = Ok sys' ->
    tables sys' = tables sys
    /\ s sys' = s sys /\ maskSize sys' = maskSize sys
    /\ componentsByProp sys' = componentsByProp sys
    /\ forall idx,
         idx < entity * sizeOf (s sys) + j
         \/ entity * sizeOf (s sys) + j + Z.of_nat (length masks) <= idx ->
         aget (e sys') idx = aget (e sys) idx.
Proof.
  induction masks as [|m rest IH]; intros sys entity j sys' H; simpl in H.
  - injection H as <-. auto.
  - apply bind_Ok in H. destruct H as (w & _ & H).
    apply bind_Ok in H. destruct H as (nv & _ & H).
    apply IH in H. simpl in H. destruct H as (Ht & Hs & Hm & Hp & He).
    repeat split; auto. intros idx Hidx. rewrite He.
    + apply aget_aset_ne. simpl length in Hidx. lia.
    + simpl length in Hidx. lia.
Qed.

(** X5.  A template of distinct registered props, given to
    [addComponents] for an entity that has no data row yet, in a system
    whose registry is well-formed and in which no data row has been freed:
    when the call returns, [getValue] gives back every value of the
    template. *)
Theorem addComponents_stores_the_values (sys : EntitySystem) (entity : Z)
    (props : list (string * Z)) (sys' : EntitySystem) :
  RegistryOk sys ->
  (forall a t, tableAt (tables sys) a = Some t ->
               a < maskSize sys /\ TableOk t) ->
  (forall a, 0 <= a < maskSize sys -> offsetWord sys entity a = Some (-1)) ->
  NoDup (map fst props) ->
  (forall p z, In (p, z) props ->
               exists cfg, mapGet (componentsByProp sys) p = Some cfg) ->
  addComponents sys entity (map (fun pv => (fst pv, TNum (snd pv))) props)
  = Ok sys' ->
  forall p z, In (p, z) props -> getValue sys' entity p = Ok (Some z).
Proof.
  intros Hreg Htab Hoff Hnd Hknown H p z Hin. unfold addComponents in H.
  apply bind_Ok in H. destruct H as (masks0 & Er & H).
  apply bind_Ok in H. destruct H as ([sys1 masks1] & Ek & H).
  assert (Hm0 : forall a t0, tableAt (tables sys) a = Some t0 ->
                  exists m, aget masks0 a = Some m).
  { intros a t0 Ha. destruct (Htab a t0 Ha) as (Hlt & _).
    apply tableAt_Some_range in Ha. destruct Ha as (Ha & _).
    apply readMasks_length in Er. rewrite length_seqZ' in Er.
    apply aget_in_range. unfold alen. lia. }
  assert (Hinit : PropsInv entity sys masks0 sys masks0 [] []).
  { constructor.
    - exists (e sys), (tables sys). now destruct sys.
    - reflexivity.
    - reflexivity.
    - intros a Ha. exists (-1). split; [now apply Hoff|]. simpl. auto.
    - reflexivity.
    - intros a m0 Ha. simpl. now rewrite Z.lor_0_r.
    - reflexivity.
    - intros a t Ha. now apply (Htab a t).
    - intros a t0 t Ha0 Ha. rewrite Ha0 in Ha. injection Ha as <-.
      split; [lia|auto].
    - intros p' z' []. }
  destruct (addKeys_props entity sys masks0 Hreg
              (fun a t0 Ha => proj2 (Htab a t0 Ha)) Hm0
              props [] sys masks0 [] Hinit Hnd Hknown)
    as (sys1' & masks1' & rows' & Ek' & Hinv).
  rewrite Ek in Ek'. injection Ek' as <- <-. simpl in Hinv.
  apply writeMasks_frame in H. destruct H as (Ht & Hs & Hms & Hp & He).
  destruct Hinv as [Hsame _ _ Hlink Hml _ Hshape _ _ Hval].
  destruct Hsame as (e1 & tabs1 & ->). simpl in *.
  destruct (Hval p z Hin) as (cfg & t & r & Hcfg & Hr & Htb & Hcell).
  pose proof (prop_table_index sys p cfg Hreg Hcfg) as Hidx.
  destruct (Hlink _ Hidx) as (o & Ho & Hl). rewrite Hr in Hl.
  destruct Hl as (t0 & t' & Ht0 & Ht' & -> & _).
  rewrite Htb in Ht'. injection Ht' as <-.
  destruct (reg_prop sys Hreg p cfg Hcfg)
    as (_ & _ & _ & _ & _ & (t0' & Ht0' & Hsz)).
  rewrite Ht0 in Ht0'. injection Ht0' as <-.
  destruct (tshape_tableAt _ _ _ _ Hshape Htb) as (t0'' & Ht0'' & Hst).
  rewrite Ht0 in Ht0''. injection Ht0'' as <-.
  unfold tstatic in Hst. injection Hst as Hsz' _ _.
  unfold getValue, getPropConfig. rewrite Hp. simpl. rewrite Hcfg. simpl.
  rewrite Ht. simpl. rewrite Htb, Hs, Hms. simpl.
  unfold offsetWord in Ho. simpl in Ho.
  rewrite He.
  - rewrite Ho. rewrite <- Hsz', Hsz. now rewrite Hcell.
  - simpl. right. apply PeanoNat.Nat.eq_le_incl in Hml.
    apply readMasks_length in Er. rewrite length_seqZ' in Er. lia.
Qed.

Lemma addComponents_stores_the_values_witness :
  exists sys0 sys1 sys2,
    newEntitySystem tightConfig = Ok sys0
    /\ newEntity sys0 None None = Ok (0, sys1)
    /\ addComponents sys1 0 [("health", TNum 7)] = Ok sys2
    /\ getValue sys2 0 "health" = Ok (Some 7).
Proof.
  eexists. eexists. eexists.
  match goal with
  | |- ?A /\ ?B /\ ?C /\ _ =>
      assert (HA : A) by (vm_compute; reflexivity);
      assert (HB : B) by (vm_compute; reflexivity);
      assert (HC : C) by (vm_compute; reflexivity)
  end.
  split; [exact HA|]. split; [exact HB|]. split; [exact HC|].
  match type of HC with
  | addComponents ?s1 _ _ = Ok ?s2 =>
      apply (addComponents_stores_the_values s1 0 [("health", 7)] s2)
  end.
  - constructor.
    + reflexivity.
    + cbn [components map fst]. repeat constructor. intros H.
      apply elem_of_nil in H. exact H.
    + cbn [componentsByProp map fst]. repeat constructor. intros H.
      apply elem_of_nil in H. exact H.
    + intros nm c H. cbn [components] in H. rewrite mapGet_cons in H.
      destruct (String.eqb "Health" nm) eqn:E; [|discriminate H].
      apply String.eqb_eq in E. subst nm. injection H as <-.
      split; [reflexivity|]. split; [vm_compute; split; [discriminate|reflexivity]|].
      exists 1. split; [lia|]. split; [reflexivity|]. intros _. lia.
    + intros nm nm' c c' H H' _ _. cbn [components] in H, H'.
      rewrite mapGet_cons in H, H'.
      destruct (String.eqb "Health" nm) eqn:E; [|discriminate H].
      destruct (String.eqb "Health" nm') eqn:E'; [|discriminate H'].
      apply String.eqb_eq in E, E'. congruence.
    + intros p cfg H. cbn [componentsByProp] in H. rewrite mapGet_cons in H.
      destruct (String.eqb "health" p) eqn:E; [|discriminate H].
      apply String.eqb_eq in E. subst p. injection H as <-.
      split; [reflexivity|]. split; [discriminate|]. split; [discriminate|].
      split.
      { eexists. split; [vm_compute; reflexivity|].
        split; [left; reflexivity|]. split; reflexivity. }
      split; [vm_compute; split; [discriminate|reflexivity]|].
      eexists. split; [vm_compute; reflexivity|]. reflexivity.
    + intros nm c p H Hp. cbn [components] in H. rewrite mapGet_cons in H.
      destruct (String.eqb "Health" nm) eqn:E; [|discriminate H].
      apply String.eqb_eq in E. subst nm. injection H as <-.
      destruct Hp as [<-|[]]. eexists. split; [vm_compute; reflexivity|].
      reflexivity.
    + intros p p' cfg cfg' H H' _ _. cbn [componentsByProp] in H, H'.
      rewrite mapGet_cons in H, H'.
      destruct (String.eqb "health" p) eqn:E; [|discriminate H].
      destruct (String.eqb "health" p') eqn:E'; [|discriminate H'].
      apply String.eqb_eq in E, E'. congruence.
  - intros a t H. pose proof (tableAt_Some_range _ _ _ H) as (Ha & _).
    assert (a = 0) as ->.
    { destruct (Z.eq_dec a 0) as [|Hne]; [assumption|exfalso].
      assert (Hc : a = 1 \/ a = 2 \/ a = 3 \/ a = 4 \/ a = 5 \/ a = 6
                   \/ a = 7 \/ a = 8 \/ a = 9) by lia.
      destruct Hc as [->|[->|[->|[->|[->|[->|[->|[->| ->]]]]]]]];
        vm_compute in H; discriminate H. }
    vm_compute in H. injection H as <-.
    split; [reflexivity|]. unfold TableOk. simpl.
    split; [reflexivity|]. split; [lia|]. split; [lia|].
    exists 1. split; [lia|]. split; [reflexivity|lia].
  - intros a Ha. assert (a = 0) as -> by (change (0 <= a < 1) in Ha; lia).
    vm_compute. reflexivity.
  - cbn [map fst]. repeat constructor. intros H.
    apply elem_of_nil in H. exact H.
  - intros p z [Hp|[]]. injection Hp as <- <-.
    eexists. vm_compute. reflexivity.
  - exact HC.
  - left. reflexivity.
Defined.
